(** * Condor: the statistical pipeline, embedded and verified

    A shallow embedding of the forecasting core of Condor
    (src/forecasting_engine and src/data_gathering_and_processing) together
    with the properties of it that the specification states (C1-C10) and
    further properties read off the code (X1-X20).

    Conventions of the embedding

    - A Python [float] is a value of [float] below: NaN, the two infinities,
      or an exact rational.  Rounding, overflow and the sign of zero are not
      modelled; arithmetic on finite values is exact.
    - A function that can raise returns an [outcome]: [Ok v] or [Raise e].
    - A [pandas.Series] is a list of rows (label, value); [pd_Series] builds
      one with the default [RangeIndex], as [pd.Series(values)] does.
    - Routines of numpy, scipy and statsmodels that the repository only calls
      ([adfuller], [minimize], [lowess], [ARIMA], [log1p], ...) are section
      variables: every theorem holds for whatever they compute. *)

From Stdlib Require Import List ZArith QArith Qround Qabs Bool Lia Lqa String.
From Stdlib Require Import Setoid Morphisms.
Import ListNotations.

(* ================================================================== *)
(** * Floats *)
(* ================================================================== *)

Inductive float : Type :=
| NaN
| NInf
| Fin (q : Q)
| PInf.

Definition isna (x : float) : bool :=
  match x with NaN => true | _ => false end.

Definition is_finite (x : float) : bool :=
  match x with Fin _ => true | _ => false end.

(** [x == y] on floats: NaN equals nothing, not even itself. *)
Definition feqb (x y : float) : bool :=
  match x, y with
  | Fin a, Fin b => Qeq_bool a b
  | PInf, PInf => true
  | NInf, NInf => true
  | _, _ => false
  end.

(** [x < y] on floats: any comparison with NaN is false. *)
Definition fltb (x y : float) : bool :=
  match x, y with
  | NaN, _ | _, NaN => false
  | NInf, NInf => false
  | NInf, _ => true
  | _, NInf => false
  | PInf, _ => false
  | Fin _, PInf => true
  | Fin a, Fin b => negb (Qle_bool b a)
  end.

Definition fopp (x : float) : float :=
  match x with
  | NaN => NaN
  | NInf => PInf
  | PInf => NInf
  | Fin a => Fin (- a)
  end.

Definition fadd (x y : float) : float :=
  match x, y with
  | NaN, _ | _, NaN => NaN
  | PInf, NInf | NInf, PInf => NaN
  | PInf, _ | _, PInf => PInf
  | NInf, _ | _, NInf => NInf
  | Fin a, Fin b => Fin (a + b)
  end.

Definition fsub (x y : float) : float :=
  match x, y with
  | NaN, _ | _, NaN => NaN
  | PInf, PInf | NInf, NInf => NaN
  | PInf, _ | _, NInf => PInf
  | NInf, _ | _, PInf => NInf
  | Fin a, Fin b => Fin (a - b)
  end.

Definition Qsign_pos (a : Q) : bool := negb (Qle_bool a 0).
Definition Qis_zero (a : Q) : bool := Qeq_bool a 0.

(** The product of an infinity (negative when [neg]) and the finite [a]. *)
Definition inf_times (neg : bool) (a : Q) : float :=
  if Qis_zero a then NaN
  else if xorb neg (Qsign_pos a) then PInf else NInf.

Definition fmul (x y : float) : float :=
  match x, y with
  | NaN, _ | _, NaN => NaN
  | PInf, PInf | NInf, NInf => PInf
  | PInf, NInf | NInf, PInf => NInf
  | PInf, Fin a | Fin a, PInf => inf_times false a
  | NInf, Fin a | Fin a, NInf => inf_times true a
  | Fin a, Fin b => Fin (a * b)
  end.

(** numpy's true division: a finite value over zero is an infinity (with a
    warning), zero over zero is NaN. *)
Definition fdiv (x y : float) : float :=
  match x, y with
  | NaN, _ | _, NaN => NaN
  | Fin a, Fin b =>
      if Qis_zero b then
        (if Qis_zero a then NaN else if Qsign_pos a then PInf else NInf)
      else Fin (a / b)
  | Fin _, _ => Fin 0
  | PInf, Fin b => if Qsign_pos b || Qis_zero b then PInf else NInf
  | NInf, Fin b => if Qsign_pos b || Qis_zero b then NInf else PInf
  | _, _ => NaN
  end.

Definition of_int (n : Z) : float := Fin (inject_Z n).


(* ================================================================== *)
(** * Exceptions and outcomes *)
(* ================================================================== *)

(** The exceptions the embedded code raises or catches.  [KeyboardInterrupt]
    derives from [BaseException] only; the others derive from [Exception]. *)
Inductive exn : Type :=
| ValueError (msg : string)
| TypeError (msg : string)
| IndexError (msg : string)
| LinAlgError (msg : string)
| KeyboardInterrupt.

Definition is_Exception (e : exn) : bool :=
  match e with KeyboardInterrupt => false | _ => true end.

Inductive outcome (A : Type) : Type :=
| Ok (a : A)
| Raise (e : exn).

Arguments Ok {A} a.
Arguments Raise {A} e.

Definition bind {A B : Type} (m : outcome A) (k : A -> outcome B) : outcome B :=
  match m with
  | Ok a => k a
  | Raise e => Raise e
  end.

Notation "x <- m ;; k" := (bind m (fun x => k))
  (at level 61, m at next level, right associativity).

Definition raises {A : Type} (m : outcome A) : Prop :=
  exists e, m = Raise e.

Definition returns {A : Type} (m : outcome A) : Prop :=
  exists a, m = Ok a.

(* ================================================================== *)
(** * pandas.Series *)
(* ================================================================== *)

Definition Series : Type := list (Z * float).

Definition index (y : Series) : list Z := map fst y.
Definition values (y : Series) : list float := map snd y.

(** [len(y)] as a Python int. *)
Definition len {A : Type} (l : list A) : Z := Z.of_nat (List.length l).

(** [range(n)] / [np.arange(n)]: empty when [n <= 0]. *)
Definition range (n : Z) : list Z := map Z.of_nat (seq 0 (Z.to_nat n)).

(** [pd.Series(values)]: the default index 0, 1, ..., n-1. *)
Definition pd_Series (vs : list float) : Series :=
  combine (range (len vs)) vs.

(** [y.diff()]: NaN first, then each value minus the one before it. *)
Fixpoint diff_from (prev : float) (rows : Series) : Series :=
  match rows with
  | [] => []
  | (l, v) :: rest => (l, fsub v prev) :: diff_from v rest
  end.

Definition diff (y : Series) : Series :=
  match y with
  | [] => []
  | (l, v) :: rest => (l, NaN) :: diff_from v rest
  end.

(** [y.dropna()] *)
Definition dropna (y : Series) : Series :=
  filter (fun row => negb (isna (snd row))) y.

(** [np.cumsum(xs)] *)
Fixpoint cumsum_from (acc : float) (xs : list float) : list float :=
  match xs with
  | [] => []
  | x :: rest => let s := fadd acc x in s :: cumsum_from s rest
  end.

Definition cumsum (xs : list float) : list float :=
  match xs with
  | [] => []
  | x :: rest => x :: cumsum_from x rest
  end.

(* ================================================================== *)
(** * forecasting_engine/stationarity_and_transformation.py *)
(* ================================================================== *)

Section Stationarity.

(** [statsmodels.tsa.stattools.adfuller], reduced to the p-value it returns
    ([result[1]]); it raises on a series it cannot test. *)
Variable adfuller : Series -> outcome float.

Definition adf_test (y_series : Series) (critical_val : float) : outcome bool :=
  p_value <- adfuller y_series ;;
  Ok (fltb p_value critical_val).

(** The [while] loop of [make_stationary] on its state
    [(diff_series, i, is_stationary)].  The loop body runs at most
    [max_diff - i] times; [todo] is that measure, so the branch [O] is
    reached only with the loop condition false (lemma [loop_measure]). *)
Fixpoint make_stationary_loop (todo : nat) (max_diff : Z)
         (diff_series : Series) (i : Z) (is_stationary : bool)
  : outcome (Series * Z * bool) :=
  if negb is_stationary && (i <? max_diff)%Z then
    match todo with
    | O => Ok (diff_series, i, is_stationary)
    | S todo' =>
        let diff_series := dropna (diff diff_series) in
        let i := (i + 1)%Z in
        is_stationary <- adf_test diff_series (Fin 0.05) ;;
        make_stationary_loop todo' max_diff diff_series i is_stationary
    end
  else Ok (diff_series, i, is_stationary).

Definition make_stationary (y_series : Series) (max_diff : Z)
  : outcome (Series * Z) :=
  let diff_series := y_series in
  is_stationary <- adf_test diff_series (Fin 0.05) ;;
  st <- make_stationary_loop (Z.to_nat max_diff) max_diff
                             diff_series 0%Z is_stationary ;;
  let '(diff_series, i, is_stationary) := st in
  if negb is_stationary then Ok (y_series, 0%Z)
  else Ok (diff_series, i).

End Stationarity.

(** [n] rounds of [diff().dropna()], the series the loop holds after [n]
    passes. *)
Fixpoint iter_diff (n : nat) (y : Series) : Series :=
  match n with
  | O => y
  | S k => dropna (diff (iter_diff k y))
  end.

(* ================================================================== *)
(** * numpy reductions *)
(* ================================================================== *)

Section Reductions.

(** The square root of a non-negative rational, as numpy computes it. *)
Variable Qsqrt : Q -> Q.

Definition fsqrt (x : float) : float :=
  match x with
  | NaN | NInf => NaN
  | PInf => PInf
  | Fin a => if Qle_bool 0 a then Fin (Qsqrt a) else NaN
  end.

Definition np_sum (xs : list float) : float := fold_left fadd xs (Fin 0).

(** [np.mean]: the mean of no value is 0/0, NaN. *)
Definition np_mean (xs : list float) : float :=
  fdiv (np_sum xs) (of_int (len xs)).

(** [np.std] with its default [ddof=0]. *)
Definition np_std (xs : list float) : float :=
  let m := np_mean xs in
  fsqrt (np_mean (map (fun x => let d := fsub x m in fmul d d) xs)).

End Reductions.

(* ================================================================== *)
(** * The object store *)
(* ================================================================== *)

(** Series are mutable objects.  Where a property is about what a function
    does to its caller's object, the function runs on a store of Series:
    a reference is a position in the store and a computation threads the
    store and may raise. *)

Definition ref : Type := nat.
Definition heap : Type := list Series.
Definition St (A : Type) : Type := heap -> outcome (A * heap).

Definition st_ret {A : Type} (a : A) : St A := fun h => Ok (a, h).

Definition st_bind {A B : Type} (m : St A) (k : A -> St B) : St B :=
  fun h => match m h with
           | Ok (a, h') => k a h'
           | Raise e => Raise e
           end.

Definition st_lift {A : Type} (m : outcome A) : St A :=
  fun h => match m with
           | Ok a => Ok (a, h)
           | Raise e => Raise e
           end.

Notation "x <~ m ;; k" := (st_bind m (fun x => k))
  (at level 61, m at next level, right associativity).

(** Reading the object a name is bound to.  A name always refers to a live
    object; the error is for stores that lack it. *)
Definition deref (r : ref) : St Series :=
  fun h => match nth_error h r with
           | Some s => Ok (s, h)
           | None => Raise (TypeError "no such object")
           end.

(** A new object: every expression that builds a Series allocates one. *)
Definition alloc (s : Series) : St ref :=
  fun h => Ok (List.length h, h ++ [s]).

(** [y.copy()] *)
Definition Series_copy (r : ref) : St ref :=
  s <~ deref r ;; alloc s.

(** [y[mask(y)]], boolean indexing: a new Series of the rows kept. *)
Definition Series_getitem_mask (r : ref) (keep : Z * float -> bool) : St ref :=
  s <~ deref r ;; alloc (filter keep s).

(* ================================================================== *)
(** * forecasting_engine/statistical_functions.py *)
(* ================================================================== *)

Section Statistics.

Variable Qsqrt : Q -> Q.

(** [scipy.stats.norm.logpdf(y, mu, sigma)] at one point. *)
Variable norm_logpdf : float -> float -> float -> float.

(** [scipy.optimize.minimize(fun, x0, method="Nelder-Mead").x] for a
    function of two parameters. *)
Variable minimize :
  (float * float -> float) -> float * float -> outcome (float * float).

Definition neg_log_likelihood (params : float * float) (y_array : list float)
  : float :=
  let '(mu, sigma) := params in
  fopp (np_sum (map (fun y => norm_logpdf y mu sigma) y_array)).

(** [y.notna() & (y != 0)] on one row. *)
Definition notna_and_nonzero (row : Z * float) : bool :=
  negb (isna (snd row)) && negb (feqb (snd row) (Fin 0)).

Definition estimate_normal_params (y_series : ref) : St (float * float) :=
  y_series <~ Series_copy y_series ;;
  y_series <~ Series_getitem_mask y_series notna_and_nonzero ;;
  s <~ deref y_series ;;
  let mu_guess := np_mean (values s) in
  let sigma_guess := np_std Qsqrt (values s) in
  result <~ st_lift
    (minimize (fun params => neg_log_likelihood params (values s))
              (mu_guess, sigma_guess)) ;;
  st_ret result.

(** The search the estimator runs, on the values [vs] it is given: from
    their mean and standard deviation, on their negative log-likelihood. *)
Definition nelder_mead_from_sample (vs : list float)
  : outcome (float * float) :=
  minimize (fun params => neg_log_likelihood params vs)
           (np_mean vs, np_std Qsqrt vs).

(** A call on a Series held by the caller alone: the result, the store
    dropped. *)
Definition call_estimate_normal_params (y : Series) : outcome (float * float) :=
  match estimate_normal_params 0%nat [y] with
  | Ok (result, _) => Ok result
  | Raise e => Raise e
  end.

End Statistics.

(* ================================================================== *)
(** * forecasting_engine/time_series_smoothing.py *)
(* ================================================================== *)

Section Smoothing.

(** [np.log1p] and [np.expm1] at one point. *)
Variable log1p : float -> float.
Variable expm1 : float -> float.

(** [statsmodels.nonparametric.lowess(endog, exog, frac, it)]: the rows
    [(x, fitted y)] of the array it returns. *)
Variable lowess :
  list float -> list float -> float -> Z -> list (float * float).

(** The two [isinstance] checks of the arguments are the types here. *)
Definition smooth_lowess (y_series : Series)
           (smoothing_window smoothing_iterations : Z) : outcome Series :=
  if (smoothing_window <? 3)%Z || (smoothing_window >? len y_series)%Z then
    Raise (ValueError "'smoothing_window' should be between 3 and the length of 'y_series'")
  else if existsb isna (values y_series)
          || existsb (fun v => feqb v (Fin 0)) (values y_series) then
    Raise (ValueError "The series contains NaNs or zeros!")
  else
    let fitted :=
      lowess (map log1p (values y_series))
             (map of_int (range (len y_series)))
             (fdiv (of_int smoothing_window) (of_int (len y_series)))
             smoothing_iterations in
    let y_smooth := map expm1 (map snd fitted) in
    Ok (pd_Series y_smooth).

End Smoothing.

(* ================================================================== *)
(** * data_gathering_and_processing/data_preprocessing.py *)
(* ================================================================== *)

(** [y.loc[label]] when the label is present.  Alignment of two Series on
    their labels is modelled for indexes without repeated labels: where
    pandas has to align on an index with repeated labels it raises
    InvalidIndexError, and the functions below return.  The statements
    about them are about series with the default index, or about the series
    that is returned. *)
Fixpoint loc (label : Z) (y : Series) : option float :=
  match y with
  | [] => None
  | (l, v) :: rest => if (label =? l)%Z then Some v else loc label rest
  end.

Definition aligned (label : Z) (other : Series) : float :=
  match loc label other with
  | Some w => w
  | None => NaN
  end.

(** [self.where(self.notna(), other)]: a row whose value is NaN takes the
    value [other] has at its label, NaN when [other] lacks the label. *)
Definition Series_where_notna (self other : Series) : Series :=
  map (fun row => let '(l, v) := row in
                  (l, if negb (isna v) then v else aligned l other)) self.

(** [self.fillna(value)] with a Series [value]. *)
Definition Series_fillna (self value : Series) : Series :=
  map (fun row => let '(l, v) := row in
                  (l, if isna v then aligned l value else v)) self.

(** [y_nan[y_nan == 0] = np.nan] on a copy of [y]. *)
Definition zeros_to_nan (y : Series) : Series :=
  map (fun row => let '(l, v) := row in
                  (l, if feqb v (Fin 0) then NaN else v)) y.

(** [(y != 0) & y.notnull()] on one row. *)
Definition nonzero_and_notnull (row : Z * float) : bool :=
  negb (feqb (snd row) (Fin 0)) && negb (isna (snd row)).

Definition Series_map (f : float -> float) (y : Series) : Series :=
  map (fun row => (fst row, f (snd row))) y.

Section Preprocessing.

Variable adfuller : Series -> outcome float.
Variable Qsqrt : Q -> Q.
Variable norm_logpdf : float -> float -> float -> float.
Variable minimize :
  (float * float -> float) -> float * float -> outcome (float * float).
Variable log1p : float -> float.
Variable expm1 : float -> float.
Variable lowess :
  list float -> list float -> float -> Z -> list (float * float).

(** The statements between the estimate and the smoother: the values of
    [y_nan] with [mu_estimated] in the place of every NaN, summed back
    [num_diff] times, then mapped through [expm1] under [log_transform]. *)
Definition fill_and_restore (y_nan stationary_series : Series)
           (mu_estimated : float) (num_diff : Z) (log_transform : bool)
  : list float :=
  let y := Series_where_notna y_nan stationary_series in
  let series_filled :=
    map (fun x => if negb (isna x) then x else mu_estimated) (values y) in
  let series_filled := Nat.iter (Z.to_nat num_diff) cumsum series_filled in
  if log_transform then map expm1 series_filled else series_filled.

(** The two copies the function starts with are the values [y_series] and
    [y_nan] here. *)
Definition interpolate_stock_prices (y_series : Series)
           (log_transform allow_negative_values : bool) : outcome Series :=
  let y_nan := zeros_to_nan y_series in
  let no_nan_y := filter nonzero_and_notnull y_series in
  no_nan_y <-
    (if log_transform then Ok (Series_map log1p no_nan_y)
     else if negb allow_negative_values
             && existsb (fun x => fltb x (Fin 0)) (values no_nan_y)
          then Raise (ValueError "Input series contains negative values while allow_negative_values is set to False.")
          else Ok no_nan_y) ;;
  made <- make_stationary adfuller no_nan_y 2 ;;
  let '(stationary_series, num_diff) := made in
  estimated <- call_estimate_normal_params Qsqrt norm_logpdf minimize
                                           stationary_series ;;
  let '(mu_estimated, sigma_estimated) := estimated in
  let series_filled :=
    fill_and_restore y_nan stationary_series mu_estimated num_diff
                     log_transform in
  filled_smooth <- smooth_lowess log1p expm1 lowess
                                 (pd_Series series_filled) 4 3 ;;
  Ok (Series_fillna y_nan filled_smooth).

(** [check_nans_and_zeros] *)
Definition check_nans_and_zeros (y_series : Series) : bool :=
  existsb isna (values y_series)
  || existsb (fun v => feqb v (Fin 0)) (values y_series).

End Preprocessing.

(* ================================================================== *)
(** * forecasting_engine/arimax_optimization_and_forecasting.py *)
(* ================================================================== *)

(** [itertools.product] of two and of three iterables: the rightmost
    varies fastest. *)
Definition product2 {A B : Type} (xs : list A) (ys : list B) : list (A * B) :=
  flat_map (fun x => map (fun y => (x, y)) ys) xs.

Definition product3 {A B C : Type} (xs : list A) (ys : list B) (zs : list C)
  : list (A * B * C) :=
  flat_map (fun x => flat_map (fun y => map (fun z => (x, y, z)) zs) ys) xs.

Definition order : Type := (Z * Z * Z)%type.
Definition seasonal_order : Type := (Z * Z * Z * Z)%type.

(** The list the generator returns holds 3-tuples, or 7-tuples when the
    seasonal parameters are generated. *)
Inductive test_params : Type :=
| NonSeasonal (l : list order)
| Seasonal (l : list (Z * Z * Z * Z * Z * Z * Z)).

Definition is_none {A : Type} (o : option A) : bool :=
  match o with None => true | Some _ => false end.

(** [product(range(max_P + 1), range(max_D + 1), range(max_Q + 1), [s])]:
    the fourth iterable has one element. *)
Definition seasonal_product (max_P max_D max_Q s : Z) : list seasonal_order :=
  map (fun t => let '(P, D, Q) := t in (P, D, Q, s))
      (product3 (range (max_P + 1)) (range (max_D + 1)) (range (max_Q + 1))).

Definition generate_auto_arimax_test_params
           (max_p max_d max_q : Z) (d : option Z)
           (generate_seasonal_params : bool)
           (max_P max_D max_Q : Z) (seasonality_trend : option Z)
  : outcome test_params :=
  if generate_seasonal_params && is_none seasonality_trend then
    Raise (ValueError "You must provide 'seasonality_trend' when 'generate_seasonal_params' is True.")
  else
    let non_seasonal_params :=
      match d with
      | None => product3 (range (max_p + 1)) (range (max_d + 1))
                         (range (max_q + 1))
      | Some d => product3 (range (max_p + 1)) [d] (range (max_q + 1))
      end in
    match generate_seasonal_params, seasonality_trend with
    | true, Some s =>
        let seasonal_params := seasonal_product max_P max_D max_Q s in
        let arimax_test_params :=
          product2 non_seasonal_params seasonal_params in
        Ok (Seasonal
              (map (fun t => let '((p, d, q), (P, D, Q, s)) := t in
                             (p, d, q, P, D, Q, s))
                   arimax_test_params))
    | _, _ => Ok (NonSeasonal non_seasonal_params)
    end.

(** Python's [round(x, ndigits)] on a float, [ndigits >= 0]: the nearest
    multiple of [10^-ndigits], a tie going to the even one.  NaN and the
    infinities are returned as they are. *)
Definition round_half_even (q : Q) : Z :=
  let f := Qfloor q in
  match Qcompare (q - inject_Z f)%Q (1 # 2)%Q with
  | Lt => f
  | Gt => (f + 1)%Z
  | Eq => if Z.even f then f else (f + 1)%Z
  end.

Definition py_round (x : float) (ndigits : Z) : float :=
  match x with
  | Fin q =>
      let scale := inject_Z (10 ^ ndigits) in
      Fin (inject_Z (round_half_even (q * scale)%Q) / scale)%Q
  | _ => x
  end.

(** [np.array_split(ary, sections)] of a list: [len(ary) % sections]
    chunks of one more element come first. *)
Fixpoint split_sizes {A : Type} (sizes : list nat) (l : list A)
  : list (list A) :=
  match sizes with
  | [] => []
  | n :: rest => firstn n l :: split_sizes rest (skipn n l)
  end.

Definition array_split {A : Type} (ary : list A) (sections : Z)
  : outcome (list (list A)) :=
  if (sections <=? 0)%Z then
    Raise (ValueError "number sections must be larger than 0.")
  else
    let n := Z.to_nat sections in
    let each := (List.length ary / n)%nat in
    let extras := (List.length ary mod n)%nat in
    Ok (split_sizes (repeat (S each) extras ++ repeat each (n - extras)) ary).

(** [min(l)] returns one of the objects of [l]: the first one that no later
    element is smaller than.  An object is given with its position, which
    stands for its identity. *)
Fixpoint min_from (best : nat * float) (i : nat) (l : list float)
  : nat * float :=
  match l with
  | [] => best
  | x :: rest =>
      min_from (if fltb x (snd best) then (i, x) else best) (S i) rest
  end.

Definition py_min (l : list float) : outcome (nat * float) :=
  match l with
  | [] => Raise (ValueError "min() arg is an empty sequence")
  | x :: rest => Ok (min_from (0%nat, x) 1%nat rest)
  end.

(** [l.index(x)]: the first position whose element is [x] itself or equals
    it. *)
Fixpoint index_from (x : nat * float) (i : nat) (l : list float)
  : outcome nat :=
  match l with
  | [] => Raise (ValueError "x is not in list")
  | y :: rest =>
      if (i =? fst x)%nat || feqb y (snd x) then Ok i
      else index_from x (S i) rest
  end.

Definition py_index (x : nat * float) (l : list float) : outcome nat :=
  index_from x 0%nat l.

(** [l[i]] *)
Definition getitem {A : Type} (l : list A) (i : nat) : outcome A :=
  match nth_error l i with
  | Some a => Ok a
  | None => Raise (IndexError "list index out of range")
  end.

(** The fitted model: the two information criteria read from it. *)
Record ARIMAResults : Type := { aic : float; bic : float }.

Section Arimax.

(** A candidate order (a tuple of ints), the exogenous array and the trend
    specification are passed through to statsmodels unread. *)
Variables Params Exog Trend Model : Type.

(** [sm.tsa.arima.ARIMA(endog, exog, order, seasonal_order, trend, ...)] and
    the [fit] method of the model it builds. *)
Variable ARIMA :
  list float -> option Exog -> Params -> option seasonal_order ->
  option Trend -> outcome Model.
Variable fit : Model -> outcome ARIMAResults.

(** The message printed when the fit fails is not modelled. *)
Definition check_generated_arimax_params
           (y_array : list float) (params : Params)
           (exog_array : option Exog) (trend_params : option Trend)
           (seasonal_params : option seasonal_order)
           (penalty_criteria : string) : outcome float :=
  if is_none exog_array && negb (is_none trend_params) then
    Raise (ValueError "You must provide exogenous variables (exog_array) with trend parameters (trend_params).")
  else
    arimax_model <- ARIMA y_array exog_array params seasonal_params
                          trend_params ;;
    match fit arimax_model with
    | Raise e => if is_Exception e then Ok PInf else Raise e
    | Ok model_fit =>
        if String.eqb penalty_criteria "BIC" then
          Ok (py_round (bic model_fit) 5)
        else if String.eqb penalty_criteria "AIC" then
          Ok (py_round (aic model_fit) 5)
        else
          Raise (ValueError "Invalid penalty criteria provided. Choose either 'AIC' or 'BIC'.")
    end.

(** The loop over the chunk appends the score of every candidate in turn;
    an exception of the evaluator leaves the loop. *)
Fixpoint optimize_arimax_params
         (params_chunk : list Params) (y_array : list float)
         (exog_array : option Exog) (trend_params : option Trend)
         (penalty_criteria : string) : outcome (list float) :=
  match params_chunk with
  | [] => Ok []
  | params :: rest =>
      result <- check_generated_arimax_params
                  y_array params exog_array trend_params None
                  penalty_criteria ;;
      results <- optimize_arimax_params rest y_array exog_array
                                        trend_params penalty_criteria ;;
      Ok (result :: results)
  end.

(** The objects handed to a worker of the pool. *)
#[warnings="-register-all"]
Inductive pyobj : Type :=
| PyChunk (chunk : list Params)
| PyArray (a : list float)
| PyExog (e : option Exog)
| PyTrend (t : option Trend)
| PyStr (s : string)
| PyTuple (items : list pyobj).

(** A call of [optimize_arimax_params] on the positional arguments [args]:
    the function has five parameters, none with a default. *)
Definition call_optimize_arimax_params (args : list pyobj)
  : outcome (list float) :=
  match args with
  | [PyChunk params_chunk; PyArray y_array; PyExog exog_array;
     PyTrend trend_params; PyStr penalty_criteria] =>
      optimize_arimax_params params_chunk y_array exog_array trend_params
                             penalty_criteria
  | _ => Raise (TypeError "optimize_arimax_params() missing required positional arguments")
  end.

(** [pool.imap_unordered(func, iterable)]: [func(item)] for every item, the
    results delivered in the order the workers finish.  That order is the
    schedule [completion], a permutation of the positions of the items. *)
Definition imap_unordered {B : Type} (func : list pyobj -> outcome B)
           (iterable : list pyobj) (completion : list nat)
  : list (outcome B) :=
  flat_map (fun i => match nth_error iterable i with
                     | Some item => [func [item]]
                     | None => []
                     end) completion.

(** The loop [for chunk_results in ...: results += chunk_results]; a
    worker's exception is raised when its result is reached. *)
Fixpoint collect (stream : list (outcome (list float))) (results : list float)
  : outcome (list float) :=
  match stream with
  | [] => Ok results
  | delivered :: rest =>
      chunk_results <- delivered ;;
      collect rest (results ++ chunk_results)
  end.

(** [[result for chunk_results in results for result in chunk_results]]:
    every element of [results] is iterated, and a float is not iterable. *)
Definition flatten_results (results : list float) : outcome (list float) :=
  match results with
  | [] => Ok []
  | _ :: _ => Raise (TypeError "'float' object is not iterable")
  end.

(** The last three statements: the position of the least score, looked up
    in the list of candidates. *)
Definition select_optimal (arimax_test_params : list Params)
           (test_results : list float) : outcome Params :=
  least <- py_min test_results ;;
  min_score_index <- py_index least test_results ;;
  getitem arimax_test_params min_score_index.

(** [cpu_count] is [mp.cpu_count()], [completion] the order in which the
    workers of this run finish. *)
Definition auto_arimax_optimizer
           (cpu_count : Z) (completion : list nat)
           (y_series : Series) (arimax_test_params : list Params)
           (exog_array : option Exog) (trend_params : option Trend)
           (penalty_criteria : string) (generate_seasonal_params : bool)
           (seasonality_trend : option string) (n_jobs max_cores : Z)
  : outcome Params :=
  if is_none exog_array && negb (is_none trend_params) then
    Raise (ValueError "You must provide exogenous variables (exog_array) with trend parameters (trend_params).")
  else
    let n_jobs := if (n_jobs <? 1)%Z then Z.min cpu_count max_cores
                  else n_jobs in
    let n_jobs := Z.min n_jobs (len arimax_test_params) in
    let y_array := values y_series in
    if generate_seasonal_params then
      Raise (TypeError "'bool' object is not callable")
    else
      let n_jobs := if (n_jobs <? 1)%Z then cpu_count else n_jobs in
      let n_jobs := Z.min n_jobs (len arimax_test_params) in
      chunks <- array_split arimax_test_params n_jobs ;;
      let tasks :=
        map (fun chunk => PyTuple [PyChunk chunk; PyArray y_array;
                                   PyExog exog_array; PyTrend trend_params;
                                   PyStr penalty_criteria]) chunks in
      results <- collect (imap_unordered call_optimize_arimax_params
                                         tasks completion) [] ;;
      test_results <- flatten_results results ;;
      select_optimal arimax_test_params test_results.

End Arimax.

Arguments check_generated_arimax_params {Params Exog Trend Model}.
Arguments optimize_arimax_params {Params Exog Trend Model}.
Arguments call_optimize_arimax_params {Params Exog Trend Model}.
Arguments imap_unordered {Params Exog Trend B}.
Arguments select_optimal {Params}.
Arguments auto_arimax_optimizer {Params Exog Trend Model}.
Arguments PyChunk {Params Exog Trend}.
Arguments PyArray {Params Exog Trend}.
Arguments PyExog {Params Exog Trend}.
Arguments PyTrend {Params Exog Trend}.
Arguments PyStr {Params Exog Trend}.
Arguments PyTuple {Params Exog Trend}.

Section Forecast.

Variable Qsqrt : Q -> Q.

(** [scipy.stats.norm.ppf] *)
Variable norm_ppf : float -> float.

(** [a[:-k]] and [a[k:]] for [k = len(...)], hence [k >= 0]; [a[:-0]] is
    [a[:0]], empty. *)
Definition slice_to_minus {A : Type} (a : list A) (k : nat) : list A :=
  match k with
  | O => []
  | S _ => firstn (List.length a - k) a
  end.

Definition slice_from {A : Type} (a : list A) (k : nat) : list A := skipn k a.

Fixpoint zip_with (op : float -> float -> float) (a b : list float)
  : list float :=
  match a, b with
  | x :: a', y :: b' => op x y :: zip_with op a' b'
  | _, _ => []
  end.

(** An arithmetic operator on two one-dimensional arrays, with numpy's
    broadcasting of an array of length 1. *)
Definition np_binop (op : float -> float -> float) (a b : list float)
  : outcome (list float) :=
  if (List.length a =? List.length b)%nat then Ok (zip_with op a b)
  else match a, b with
       | [x], _ => Ok (map (fun y => op x y) b)
       | _, [y] => Ok (map (fun x => op x y) a)
       | _, _ => Raise (ValueError "operands could not be broadcast together")
       end.

(** [np.arange(1, n + 1)] *)
Definition arange1 (n : nat) : list Z := map Z.of_nat (seq 1 n).

Definition calculate_forecast_prediction_interval
           (y_series y_forecast : Series) (alpha : float)
  : outcome (Series * Series) :=
  let y_array := values y_series in
  let forecast := values y_forecast in
  residuals <- np_binop fsub
                 (slice_to_minus y_array (List.length forecast))
                 (slice_from y_array (List.length forecast)) ;;
  let std_residuals := np_std Qsqrt residuals in
  let z := norm_ppf (fsub (Fin 1) (fdiv alpha (Fin 2))) in
  let sqrt_n := map (fsqrt Qsqrt)
                    (map of_int (arange1 (List.length forecast))) in
  let margin := map (fun s => fmul (fmul z std_residuals) s) sqrt_n in
  lower_bound <- np_binop fsub forecast margin ;;
  upper_bound <- np_binop fadd forecast margin ;;
  Ok (pd_Series lower_bound, pd_Series upper_bound).

End Forecast.

(* ================================================================== *)
(** * Series of finite values *)
(* ================================================================== *)

Definition all_finite (y : Series) : bool := forallb is_finite (values y).

(** The largest finite double, 2^1024 - 2^971.  Arithmetic on finite values
    is exact here, so a difference of finite values is finite whatever its
    size, where numpy gives an infinity once the result lies beyond this
    number.  A statement that depends on the difference bounds the values
    it is about. *)
Definition max_float : Q := inject_Z (2 ^ 1024 - 2 ^ 971).

(** Every value of [y] is finite and at most [bound] in magnitude. *)
Definition bounded_by (bound : Q) (y : Series) : bool :=
  forallb (fun v => match v with
                    | Fin q => Qle_bool (Qabs q) bound
                    | _ => false
                    end) (values y).

(* ================================================================== *)
(** * Missing values, in the specification's words *)
(* ================================================================== *)

(** A value that marks a missing slot of a price series: NaN or zero. *)
Definition is_missing (v : float) : bool := isna v || feqb v (Fin 0).

(** A series that contains a NaN or a zero. *)
Definition contains_nan_or_zero (y : Series) : Prop :=
  exists v, In v (values y) /\ (isna v = true \/ feqb v (Fin 0) = true).

(** A series with all its NaN and zero entries removed. *)
Definition strip_nan_and_zero (y : Series) : Series :=
  filter (fun row => negb (isna (snd row) || feqb (snd row) (Fin 0))) y.

(* ================================================================== *)
(** * Sample inputs and stand-in routines *)
(* ================================================================== *)

(** Three prices labelled 5, 6, 7: a slice of a longer series keeps the
    labels it had. *)
Definition sliced_prices : Series :=
  [(5%Z, Fin 101); (6%Z, Fin 102); (7%Z, Fin 103)].

(** The example of the docstring of [interpolate_stock_prices]. *)
Definition docstring_prices : list float :=
  [Fin 100; NaN; Fin 102; Fin 0; Fin 0; Fin 103; NaN; Fin 105; Fin 0;
   Fin 106; NaN; Fin 108; Fin 109].

(** The same prices labelled 100..112, as rows 100..112 of a longer
    series are. *)
Definition docstring_prices_sliced : Series :=
  combine (map Z.of_nat (seq 100 13)) docstring_prices.

(** Stand-ins for the numerical routines, for evaluating the embedding on
    sample inputs: a unit-root test that never rejects the unit root, an
    optimiser that stays at its starting point, identity transforms and a
    smoother that fits every point by itself. *)
Definition adfuller_never (y : Series) : outcome float := Ok (Fin 1).

Definition minimize_x0 (f : float * float -> float) (x0 : float * float)
  : outcome (float * float) := Ok x0.

Definition lowess_interpolating (endog exog : list float) (frac : float)
           (it : Z) : list (float * float) := combine exog endog.

Definition transform_id (x : float) : float := x.

Definition Qsqrt_id (q : Q) : Q := q.

Definition norm_logpdf_zero (y mu sigma : float) : float := Fin 0.




(** Stand-ins for statsmodels, for evaluating the search on sample inputs:
    a model is the order it was built with, and fitting it gives the score
    that [score] assigns to that order, as AIC and as BIC. *)
Definition ARIMA_of_order (y_array : list float) (exog_array : option unit)
           (params : order) (seasonal_params : option seasonal_order)
           (trend_params : option unit) : outcome order := Ok params.

Definition fit_scored (score : order -> float) (model : order)
  : outcome ARIMAResults :=
  Ok {| aic := score model; bic := score model |}.

(** Two candidates: the second one scores better. *)
Definition two_candidates : list order := [(0, 0, 0); (0, 0, 1)]%Z.

Definition score_of_two (params : order) : float :=
  let '(p, d, q) := params in
  if (q =? 1)%Z then Fin 3 else Fin 5.

(* ================================================================== *)
(** * The prediction interval, in the specification's words *)
(* ================================================================== *)

Section IntervalSpec.

Variable Qsqrt : Q -> Q.
Variable norm_ppf : float -> float.

(** The residuals between the historical series and itself shifted by the
    length [h] of the forecast: [y[i] - y[i + h]] for every [i] with
    [i + h] inside the series. *)
Definition shifted_residuals (y : list float) (h : nat) : list float :=
  map (fun i => fsub (nth i y NaN) (nth (i + h) y NaN))
      (seq 0 (List.length y - h)).

(** The margin of step [k] ahead: z * std * sqrt k, with z the normal
    quantile at [1 - alpha / 2]. *)
Definition step_margin (y : list float) (h : nat) (alpha : float) (k : Z)
  : float :=
  fmul (fmul (norm_ppf (fsub (Fin 1) (fdiv alpha (Fin 2))))
             (np_std Qsqrt (shifted_residuals y h)))
       (fsqrt Qsqrt (of_int k)).

(** The bounds, one per step 1, 2, ..., h of the forecast. *)
Definition lower_bounds (y forecast : list float) (alpha : float)
  : list float :=
  map (fun kf => fsub (snd kf)
                      (step_margin y (List.length forecast) alpha (fst kf)))
      (combine (arange1 (List.length forecast)) forecast).

Definition upper_bounds (y forecast : list float) (alpha : float)
  : list float :=
  map (fun kf => fadd (snd kf)
                      (step_margin y (List.length forecast) alpha (fst kf)))
      (combine (arange1 (List.length forecast)) forecast).

End IntervalSpec.

(* ================================================================== *)
(** * Rounding to significant digits, in the specification's words *)
(* ================================================================== *)

(** The number of decimal digits of a positive integer. *)
Fixpoint decimal_digits_upto (bound : nat) (n : Z) : Z :=
  match bound with
  | O => 1
  | S bound' =>
      if (n <? 10)%Z then 1%Z
      else (1 + decimal_digits_upto bound' (n / 10))%Z
  end.

Definition decimal_digits (n : Z) : Z :=
  decimal_digits_upto (Z.to_nat (Z.log2 n)) n.

(** The decimal exponent [e] of a rational [q <> 0]:
    [10^e <= |q| < 10^(e+1)]. *)
Definition decimal_exponent (q : Q) : Z :=
  let a := Qabs q in
  if Qle_bool 1 a then (decimal_digits (Qfloor a) - 1)%Z
  else (- decimal_digits (Qceiling (/ a) - 1))%Z.

(** [x] rounded to [digits] significant digits: to the nearest multiple of
    [10^(e - digits + 1)], [e] the decimal exponent of [x]. *)
Definition round_significant (x : float) (digits : Z) : float :=
  match x with
  | Fin q =>
      if Qis_zero q then x
      else
        let scale := Qpower 10 (digits - 1 - decimal_exponent q) in
        Fin (inject_Z (round_half_even (q * scale)%Q) / scale)%Q
  | _ => x
  end.

(* ================================================================== *)
(** * Further functions of stationarity_and_transformation.py *)
(* ================================================================== *)

(** A [pandas.DataFrame] of floats: its rows (label, cells), every row with
    one cell per column. *)
Definition DataFrame : Type := list (Z * list float).

Definition frame_values (X : DataFrame) : list (list float) := map snd X.

(** [np.log1p(X)], cell by cell. *)
Definition frame_map (f : float -> float) (X : DataFrame) : DataFrame :=
  map (fun row => (fst row, map f (snd row))) X.

(** [X.diff()]: a row of NaN first, then each row minus the one before it,
    column by column. *)
Fixpoint frame_diff_from (prev : list float) (rows : DataFrame) : DataFrame :=
  match rows with
  | [] => []
  | (l, r) :: rest => (l, zip_with fsub r prev) :: frame_diff_from r rest
  end.

Definition frame_diff (X : DataFrame) : DataFrame :=
  match X with
  | [] => []
  | (l, r) :: rest => (l, map (fun _ => NaN) r) :: frame_diff_from r rest
  end.

(** [X.dropna()]: the rows that hold no NaN. *)
Definition frame_dropna (X : DataFrame) : DataFrame :=
  filter (fun row => negb (existsb isna (snd row))) X.

(** A frame with the single column [y]. *)
Definition to_frame (y : Series) : DataFrame :=
  map (fun row => (fst row, [snd row])) y.

(** [range(a, b)] *)
Definition range_from (a b : Z) : list Z :=
  map (fun k => (a + k)%Z) (range (b - a)).

Section Transforms.

Variable log1p : float -> float.

(** The two [isinstance]/dtype checks of [transform_target] are the types
    here. *)
Definition transform_target (y_series : Series) (log_transform : bool)
           (difference : Z) : list float :=
  let y_series :=
    if log_transform then Series_map log1p y_series else y_series in
  let y_series :=
    Nat.iter (Z.to_nat difference) (fun y => dropna (diff y)) y_series in
  values y_series.

Definition transform_predictors (X_df : DataFrame) (log_transform : bool)
           (difference : Z) : list (list float) :=
  let X_transformed := X_df in
  let X_transformed :=
    if log_transform then frame_map log1p X_transformed else X_transformed in
  let X_transformed :=
    Nat.iter (Z.to_nat difference) (fun X => frame_dropna (frame_diff X))
             X_transformed in
  frame_values X_transformed.

(** [cross_val_score(make_pipeline(PolynomialFeatures(degree),
    LinearRegression()), X, y, cv=cv).mean()] *)
Variable cross_val_mean_score :
  Z -> list (list float) -> list float -> Z -> outcome float.

(** The [for] loop of [determine_optimal_degree] over the degrees left, on
    its state [(best_degree, best_score)]. *)
Fixpoint degree_loop (degrees : list Z) (X_transformed : list (list float))
         (y_array : list float) (cv : Z) (best_degree : Z)
         (best_score : float) : outcome Z :=
  match degrees with
  | [] => Ok best_degree
  | degree :: rest =>
      mean_score <- cross_val_mean_score degree X_transformed y_array cv ;;
      if fltb best_score mean_score then
        degree_loop rest X_transformed y_array cv degree mean_score
      else
        degree_loop rest X_transformed y_array cv best_degree best_score
  end.

Definition determine_optimal_degree (X_df : DataFrame) (y_array : list float)
           (max_degree cv : Z) (log_transform : bool) (difference : Z)
  : outcome Z :=
  let X_transformed := transform_predictors X_df log_transform difference in
  let best_degree := 0%Z in
  let best_score := NInf in
  degree_loop (range_from 1 (max_degree + 1)) X_transformed y_array cv
              best_degree best_score.

End Transforms.

(* ================================================================== *)
(** * Further functions of time_series_smoothing.py *)
(* ================================================================== *)

(** [ZeroDivisionError] besides the exceptions of [exn]. *)
Inductive py_exception : Type :=
| Builtin (e : exn)
| ZeroDivisionError (msg : string).

Inductive py_result (A : Type) : Type :=
| Return (a : A)
| Throw (e : py_exception).

Arguments Return {A} a.
Arguments Throw {A} e.

Definition of_outcome {A : Type} (m : outcome A) : py_result A :=
  match m with
  | Ok a => Return a
  | Raise e => Throw (Builtin e)
  end.

Definition py_bind {A B : Type} (m : py_result A) (k : A -> py_result B)
  : py_result B :=
  match m with
  | Return a => k a
  | Throw e => Throw e
  end.

(** [1 / n] on Python ints: true division, an error when [n] is 0. *)
Definition int_truediv (a b : Z) : py_result float :=
  if (b =? 0)%Z then Throw (ZeroDivisionError "division by zero")
  else Return (Fin (inject_Z a / inject_Z b)).

Section Regions.

Variable Qsqrt : Q -> Q.
Variable norm_ppf : float -> float.

Definition calculate_confidence_region (y_series y_smooth : Series)
           (alpha : float) : outcome (Series * Series) :=
  let y_array := values y_series in
  let smoothed_data := values y_smooth in
  residuals <- np_binop fsub y_array smoothed_data ;;
  let std_residuals := np_std Qsqrt residuals in
  let z := norm_ppf (fsub (Fin 1) (fdiv alpha (Fin 2))) in
  let margin := fmul z std_residuals in
  let lower_bound := map (fun s => fsub s margin) smoothed_data in
  let upper_bound := map (fun s => fadd s margin) smoothed_data in
  Ok (pd_Series lower_bound, pd_Series upper_bound).

Definition calculate_prediction_region (y_series y_smooth : Series)
           (alpha : float) : py_result (Series * Series) :=
  let y_array := values y_series in
  let smoothed_data := values y_smooth in
  py_bind (of_outcome (np_binop fsub y_array smoothed_data)) (fun residuals =>
  let std_residuals := np_std Qsqrt residuals in
  let z := norm_ppf (fsub (Fin 1) (fdiv alpha (Fin 2))) in
  py_bind (int_truediv 1 (len residuals)) (fun inverse =>
  let sqrt_n := fsqrt Qsqrt (fadd (Fin 1) inverse) in
  let margin := fmul (fmul z std_residuals) sqrt_n in
  let lower_bound := map (fun s => fsub s margin) smoothed_data in
  let upper_bound := map (fun s => fadd s margin) smoothed_data in
  Return (pd_Series lower_bound, pd_Series upper_bound))).

End Regions.

(** The band of constant half-width [margin] around the smoothed values,
    as two Series with the default index. *)
Definition band (smoothed_data : list float) (margin : float)
  : Series * Series :=
  (pd_Series (map (fun s => fsub s margin) smoothed_data),
   pd_Series (map (fun s => fadd s margin) smoothed_data)).

(* ================================================================== *)
(** * Further functions of statistical_functions.py *)
(* ================================================================== *)

(** What [level_shifts] may be handed as [y_series]. *)
Inductive series_like : Type :=
| FromList (l : list float)
| FromArray (a : list float)
| FromSeries (s : Series)
| NotSeriesLike.

(** The array of a list, an array or a Series. *)
Definition as_signal (y_series : series_like) : option (list float) :=
  match y_series with
  | FromList l => Some l
  | FromArray a => Some a
  | FromSeries s => Some (values s)
  | NotSeriesLike => None
  end.

(** [a[i]] on a one-dimensional array: a negative [i] counts from the
    end. *)
Definition ndarray_getitem (a : list float) (i : Z) : outcome float :=
  let j := if (i <? 0)%Z then (i + len a)%Z else i in
  if (j <? 0)%Z || (len a <=? j)%Z then
    Raise (IndexError "index is out of bounds for axis 0")
  else
    match nth_error a (Z.to_nat j) with
    | Some v => Ok v
    | None => Raise (IndexError "index is out of bounds for axis 0")
    end.

(** A list comprehension whose element expression can raise. *)
Fixpoint comprehension {A B : Type} (f : A -> outcome B) (l : list A)
  : outcome (list B) :=
  match l with
  | [] => Ok []
  | x :: rest =>
      y <- f x ;;
      ys <- comprehension f rest ;;
      Ok (y :: ys)
  end.

Section LevelShifts.

(** [rpt.Pelt(model, min_size, jump).fit(signal).predict(pen)]: the
    breakpoints found. *)
Variable pelt_predict :
  string -> Z -> Z -> list float -> float -> outcome (list Z).

Definition level_shifts (y_series : series_like) (model : string)
           (min_size jump : Z) (pen : float)
  : outcome (list Z * list float) :=
  signal <- match y_series with
            | FromList l => Ok l
            | FromArray a => Ok a
            | FromSeries s => Ok (values s)
            | NotSeriesLike =>
                Raise (TypeError "y_series must be a list, numpy array, or pandas Series.")
            end ;;
  if (len signal =? 0)%Z then
    Raise (ValueError "y_series must not be empty.")
  else
    result <- pelt_predict model min_size jump signal pen ;;
    let level_shift_indices := filter (fun i => (i <? len signal)%Z) result in
    level_shift_values <-
      comprehension (ndarray_getitem signal) level_shift_indices ;;
    Ok (level_shift_indices, level_shift_values).

End LevelShifts.

(* ================================================================== *)
(** * process_missing_dates of data_preprocessing.py *)
(* ================================================================== *)

(** A timestamp is its wall-clock time in seconds; [freq='D'] steps by one
    calendar day. *)
Definition Timestamp : Type := Z.
Definition day : Z := 86400.

(** [index.duplicated().any()] *)
Fixpoint duplicated_any (idx : list Z) : bool :=
  match idx with
  | [] => false
  | t :: rest => existsb (Z.eqb t) rest || duplicated_any rest
  end.

(** [index.min()] and [index.max()]: [None] stands for NaT, the answer on
    an empty index. *)
Definition index_min (idx : list Z) : option Z :=
  match idx with
  | [] => None
  | t :: rest => Some (fold_left Z.min rest t)
  end.

Definition index_max (idx : list Z) : option Z :=
  match idx with
  | [] => None
  | t :: rest => Some (fold_left Z.max rest t)
  end.

(** [pd.date_range(start, end, freq='D')]: [start], [start] + 1 day, ...
    up to [end]. *)
Definition date_range (start stop : option Z) : outcome (list Z) :=
  match start, stop with
  | Some a, Some b =>
      Ok (map (fun k => (a + k * day)%Z) (range ((b - a) / day + 1)))
  | _, _ => Raise (ValueError "Neither `start` nor `end` can be NaT")
  end.

Section MissingDates.

(** The cells of a row, and the row of NaN that [reindex] puts at a label
    the frame lacks. *)
Variable Row : Type.
Variable nan_row : Row.

(** [df.set_index(date_column)] *)
Variable set_index : string -> list (Z * Row) -> outcome (list (Z * Row)).

Fixpoint frame_loc (label : Z) (df : list (Z * Row)) : option Row :=
  match df with
  | [] => None
  | (l, r) :: rest => if (label =? l)%Z then Some r else frame_loc label rest
  end.

(** [df.reindex(labels)] on a frame without repeated labels. *)
Definition reindex (df : list (Z * Row)) (labels : list Z) : list (Z * Row) :=
  map (fun l => (l, match frame_loc l df with
                    | Some r => r
                    | None => nan_row
                    end)) labels.

(** [df.reset_index().rename(columns={'index': 'date'})]: the index becomes
    the column [date], the rows are labelled 0, 1, ... *)
Definition reset_index (df : list (Z * Row)) : list (Z * (Z * Row)) :=
  combine (range (len df)) df.

Definition process_missing_dates (df : list (Z * Row))
           (date_column : option string) : outcome (list (Z * (Z * Row))) :=
  df <- match date_column with
        | Some column => set_index column df
        | None => Ok df
        end ;;
  if duplicated_any (map fst df) then
    Raise (ValueError "Duplicate dates found in the index")
  else
    let min_date := index_min (map fst df) in
    let max_date := index_max (map fst df) in
    date_range <- date_range min_date max_date ;;
    let processed_df := reindex df date_range in
    Ok (reset_index processed_df).

End MissingDates.

Arguments frame_loc {Row}.
Arguments reindex {Row}.
Arguments reset_index {Row}.
Arguments process_missing_dates {Row}.

(* ================================================================== *)
(** * classes.py: ForecastARIMAX and PriceForecast.trends *)
(* ================================================================== *)

(** A candidate of the list [ForecastARIMAX] holds: a 3-tuple or a
    7-tuple. *)
Inductive candidate : Type :=
| Tuple3 (t : order)
| Tuple7 (t : Z * Z * Z * Z * Z * Z * Z).

Definition candidates (generated : test_params) : list candidate :=
  match generated with
  | NonSeasonal l => map Tuple3 l
  | Seasonal l => map Tuple7 l
  end.

Section ForecastARIMAX.

Variables Exog Trend Model ModelFit : Type.

Variable ARIMA :
  list float -> option Exog -> candidate -> option seasonal_order ->
  option Trend -> outcome Model.
Variable fit : Model -> outcome ARIMAResults.

(** The model [ForecastARIMAX.fit] builds from the selected candidate and
    fits, and the [forecast] method of a fitted model. *)
Variable fit_selected :
  list float -> Exog -> candidate -> outcome ModelFit.
Variable model_forecast : ModelFit -> Z -> option Exog -> outcome (list float).

(** The attributes of an instance. *)
Record ForecastARIMAX : Type := {
  self_y_series : Series;
  self_X_df : Exog;
  self_arimax_test_params : list candidate;
  self_penalty_criteria : string;
  self_optimal_params : option candidate;
  self_model_fit : option ModelFit
}.

Definition ForecastARIMAX_init (y_series : Series) (X_df : Exog)
           (max_p max_d max_q : Z) (d : option Z)
           (generate_seasonal_params : bool) (max_P max_D max_Q : Z)
           (seasonality_trend : option Z) (penalty_criteria : string)
  : outcome ForecastARIMAX :=
  generated <- generate_auto_arimax_test_params
                 max_p max_d max_q d generate_seasonal_params
                 max_P max_D max_Q seasonality_trend ;;
  Ok {| self_y_series := y_series;
        self_X_df := X_df;
        self_arimax_test_params := candidates generated;
        self_penalty_criteria := penalty_criteria;
        self_optimal_params := None;
        self_model_fit := None |}.

(** A method runs on the instance and leaves it in a new state, also when
    it raises: the attributes assigned before the exception stay
    assigned. *)
Definition ForecastARIMAX_fit (cpu_count : Z) (completion : list nat)
           (self : ForecastARIMAX) : outcome unit * ForecastARIMAX :=
  match auto_arimax_optimizer ARIMA fit cpu_count completion
          (self_y_series self) (self_arimax_test_params self)
          (Some (self_X_df self)) None (self_penalty_criteria self)
          false None (-1) 8 with
  | Raise e => (Raise e, self)
  | Ok optimal_params =>
      let self :=
        {| self_y_series := self_y_series self;
           self_X_df := self_X_df self;
           self_arimax_test_params := self_arimax_test_params self;
           self_penalty_criteria := self_penalty_criteria self;
           self_optimal_params := Some optimal_params;
           self_model_fit := self_model_fit self |} in
      match fit_selected (values (self_y_series self)) (self_X_df self)
                         optimal_params with
      | Raise e => (Raise e, self)
      | Ok model_fit =>
          (Ok tt,
           {| self_y_series := self_y_series self;
              self_X_df := self_X_df self;
              self_arimax_test_params := self_arimax_test_params self;
              self_penalty_criteria := self_penalty_criteria self;
              self_optimal_params := self_optimal_params self;
              self_model_fit := Some model_fit |})
      end
  end.

Definition ForecastARIMAX_forecast (self : ForecastARIMAX) (steps : Z)
           (exog : option Exog) : outcome (list float) :=
  match self_model_fit self with
  | None =>
      Raise (ValueError "The model has not been fitted yet. Please call the 'fit' method before forecasting.")
  | Some model_fit => model_forecast model_fit steps exog
  end.

(** The instance after the calls [self.fit()] of [runs], each with the
    completion order of its pool; an exception is caught by the caller. *)
Fixpoint fit_repeatedly (cpu_count : Z) (runs : list (list nat))
         (self : ForecastARIMAX) : ForecastARIMAX :=
  match runs with
  | [] => self
  | completion :: rest =>
      fit_repeatedly cpu_count rest
                     (snd (ForecastARIMAX_fit cpu_count completion self))
  end.

End ForecastARIMAX.

Arguments self_y_series {Exog ModelFit}.
Arguments self_X_df {Exog ModelFit}.
Arguments self_arimax_test_params {Exog ModelFit}.
Arguments self_penalty_criteria {Exog ModelFit}.
Arguments self_optimal_params {Exog ModelFit}.
Arguments self_model_fit {Exog ModelFit}.
Arguments ForecastARIMAX_init {Exog ModelFit}.
Arguments ForecastARIMAX_fit {Exog Trend Model ModelFit}.
Arguments ForecastARIMAX_forecast {Exog ModelFit}.
Arguments fit_repeatedly {Exog Trend Model ModelFit}.

Section Trends.

Variable log1p : float -> float.
Variable expm1 : float -> float.
Variable lowess :
  list float -> list float -> float -> Z -> list (float * float).
Variable Qsqrt : Q -> Q.
Variable norm_ppf : float -> float.

(** [PriceForecast.trends] on the column [self.stock_data[self.price_type]]:
    the six columns handed to the [DataFrame] constructor, in the order
    stock_price, smoothed, lower_ci, upper_ci, lower_pi, upper_pi.  The
    smoother and the two regions are called with their defaults (window 15,
    2 iterations, alpha 0.05). *)
Definition PriceForecast_trends (y_series : Series)
  : py_result (Series * Series * Series * Series * Series * Series) :=
  py_bind (of_outcome (smooth_lowess log1p expm1 lowess y_series 15 2))
          (fun y_smooth =>
  py_bind (of_outcome (calculate_confidence_region
                         Qsqrt norm_ppf y_series y_smooth (Fin 0.05)))
          (fun ci =>
  let '(lower_ci, upper_ci) := ci in
  py_bind (calculate_prediction_region
             Qsqrt norm_ppf y_series y_smooth (Fin 0.05))
          (fun pi =>
  let '(lower_pi, upper_pi) := pi in
  Return (y_series, y_smooth, lower_ci, upper_ci, lower_pi, upper_pi)))).

End Trends.

(* ================================================================== *)
(** * Further sample inputs and stand-in routines *)
(* ================================================================== *)

(** A unit-root test that accepts a series of at most three values and
    rejects a longer one. *)
Definition adfuller_short (y : Series) : outcome float :=
  Ok (if (len y <=? 3)%Z then Fin 0.01 else Fin 1).

Definition five_prices : Series :=
  pd_Series [Fin 1; Fin 2; Fin 4; Fin 8; Fin 16].

(** Closing prices of a Friday and of the Monday after it; rows are single
    prices, and no column is moved into the index. *)
Definition friday_monday : list (Z * float) :=
  [(1700179200, Fin 10); (1700438400, Fin 11)]%Z.

Definition set_index_missing (column : string) (df : list (Z * float))
  : outcome (list (Z * float)) :=
  Raise (ValueError "no such column").

(** A score per degree for evaluating the degree search: degrees 2 and 3
    score best and equally, degree 4 has no score (NaN). *)
Definition sample_cv_score (degree : Z) (X : list (list float))
           (y : list float) (cv : Z) : outcome float :=
  Ok (if (degree =? 1)%Z then Fin 0.5
      else if (degree =? 2)%Z then Fin 0.9
      else if (degree =? 3)%Z then Fin 0.9
      else if (degree =? 4)%Z then NaN
      else Fin 0.7).

(** A fit that fails on a singular matrix for the order (0,0,1) and scores
    the other orders by [score_of_two]. *)
Definition fit_singular_at_q1 (model : order) : outcome ARIMAResults :=
  let '(p, d, q) := model in
  if (q =? 1)%Z then Raise (LinAlgError "singular matrix")
  else fit_scored score_of_two model.

(** Fifteen prices, the least number [PriceForecast.trends] accepts. *)
Definition fifteen_prices : Series :=
  pd_Series (map (fun k => of_int (100 + k)) (range 15)).

(** A change-point search that reports position 5 and the end of the
    signal. *)
Definition pelt_at_5 (model : string) (min_size jump : Z)
           (signal : list float) (pen : float) : outcome (list Z) :=
  Ok [5%Z; len signal].

(** The example of the docstring of [level_shifts]. *)
Definition docstring_levels : Series :=
  pd_Series [Fin 1; Fin 1; Fin 1; Fin 1; Fin 1;
             Fin 5; Fin 5; Fin 5; Fin 5; Fin 5].

(** Stand-ins for statsmodels on the candidates of [ForecastARIMAX]: a
    model is its candidate, every fit scores 1, and a fitted model
    forecasts the value 1 at every step. *)
Definition ARIMA_of_candidate (y_array : list float) (exog_array : option unit)
           (params : candidate) (seasonal_params : option seasonal_order)
           (trend_params : option unit) : outcome candidate := Ok params.

Definition fit_unit_score (model : candidate) : outcome ARIMAResults :=
  Ok {| aic := Fin 1; bic := Fin 1 |}.

Definition fit_selected_candidate (y_array : list float) (exog_array : unit)
           (params : candidate) : outcome candidate := Ok params.

Definition forecast_ones (model_fit : candidate) (steps : Z)
           (exog : option unit) : outcome (list float) :=
  Ok (map (fun _ => Fin 1) (range steps)).

(* ================================================================== *)
(** * Lemmas on outcomes and lists *)
(* ================================================================== *)

Lemma bind_Ok_inv {A B : Type} (m : outcome A) (k : A -> outcome B) (b : B) :
  (x <- m ;; k x) = Ok b -> exists a, m = Ok a /\ k a = Ok b.
Proof.
  destruct m as [a | e]; simpl; intros H.
  - exists a. split; [reflexivity | exact H].
  - discriminate H.
Qed.

Lemma bind_Ok {A B : Type} (m : outcome A) (k : A -> outcome B) (a : A) :
  m = Ok a -> (x <- m ;; k x) = k a.
Proof. intros ->. reflexivity. Qed.

(** Going back through one [bind] of a computation that returned. *)
Ltac bind_inv H x Hx := apply bind_Ok_inv in H as [x [Hx H]].

Lemma iter_diff_shift (n : nat) (y : Series) :
  iter_diff n (dropna (diff y)) = iter_diff (S n) y.
Proof.
  induction n as [| n IH]; simpl.
  - reflexivity.
  - rewrite IH. reflexivity.
Qed.

(* ================================================================== *)
(** * Stationarity transform: the order returned and the fallback *)
(* ================================================================== *)

Section StationarityFacts.

Variable adfuller : Series -> outcome float.

(** What the loop returns, when it returns: the series differenced [n]
    more times, the counter advanced by [n], with [n] within the measure;
    and it stopped on an accepted series or at [max_diff]. *)
Lemma loop_returns (todo : nat) (max_diff : Z) :
  forall (s : Series) (i : Z) (st : bool) (s' : Series) (k : Z) (st' : bool),
    todo = Z.to_nat (max_diff - i) ->
    make_stationary_loop adfuller todo max_diff s i st = Ok (s', k, st') ->
    exists n : nat,
      (n <= todo)%nat /\ k = (i + Z.of_nat n)%Z /\ s' = iter_diff n s /\
      (st' = true \/ (max_diff <= k)%Z) /\
      (st = true -> n = 0%nat /\ st' = true).
Proof.
  induction todo as [| todo IH]; intros s i st s' k st' Hm H.
  - simpl in H.
    destruct (negb st && (i <? max_diff)%Z) eqn:G.
    + apply andb_prop in G as [_ G]. apply Z.ltb_lt in G. lia.
    + injection H as <- <- <-. exists 0%nat. simpl.
      split; [lia |]. split; [lia |]. split; [reflexivity |]. split.
      * apply andb_false_iff in G as [G | G].
        -- left. now destruct st.
        -- right. apply Z.ltb_ge in G. lia.
      * intros ->. split; reflexivity.
  - simpl in H.
    destruct (negb st && (i <? max_diff)%Z) eqn:G.
    + apply andb_prop in G as [Gs G]. apply Z.ltb_lt in G.
      apply bind_Ok_inv in H as [st1 [_ H]].
      apply IH in H; [| lia].
      destruct H as [n [Hn [Hk [Hs [Hstop _]]]]].
      exists (S n). rewrite <- iter_diff_shift.
      split; [lia |]. split; [lia |]. split; [exact Hs |].
      split; [exact Hstop |].
      intros ->. discriminate Gs.
    + injection H as <- <- <-. exists 0%nat. simpl.
      split; [lia |]. split; [lia |]. split; [reflexivity |]. split.
      * apply andb_false_iff in G as [G | G].
        -- left. now destruct st.
        -- right. apply Z.ltb_ge in G. lia.
      * intros ->. split; reflexivity.
Qed.

(** The measure is enough: the loop leaves through its condition, never
    through the exhausted measure. *)
Lemma loop_measure (max_diff : Z) (i : Z) (st : bool) :
  negb st && (i <? max_diff)%Z = true ->
  Z.to_nat (max_diff - i) <> 0%nat.
Proof.
  intros G. apply andb_prop in G as [_ G]. apply Z.ltb_lt in G. lia.
Qed.

(** When every test rejects, the loop differences [max_diff - i] times. *)
Lemma loop_all_reject (todo : nat) (max_diff : Z) :
  forall (s : Series) (i : Z),
    todo = Z.to_nat (max_diff - i) ->
    (forall n, (1 <= n <= todo)%nat ->
               adf_test adfuller (iter_diff n s) (Fin 0.05) = Ok false) ->
    make_stationary_loop adfuller todo max_diff s i false
    = Ok (iter_diff todo s, (i + Z.of_nat todo)%Z, false).
Proof.
  induction todo as [| todo IH]; intros s i Hm Hrej.
  - simpl. destruct (i <? max_diff)%Z eqn:G.
    + apply Z.ltb_lt in G. lia.
    + rewrite Z.add_0_r. reflexivity.
  - simpl. destruct (i <? max_diff)%Z eqn:G.
    + rewrite (bind_Ok _ _ false (Hrej 1%nat ltac:(lia))).
      rewrite (IH (dropna (diff s)) (i + 1)%Z ltac:(lia)).
      * rewrite iter_diff_shift. f_equal. f_equal. f_equal. lia.
      * intros n Hn. rewrite iter_diff_shift. apply Hrej. lia.
    + apply Z.ltb_ge in G. lia.
Qed.

(** When the test answers on every series it can be asked about, the loop
    returns. *)
Lemma loop_total (todo : nat) (max_diff : Z) :
  forall (s : Series) (i : Z) (st : bool),
    (forall n, (1 <= n <= todo)%nat -> returns (adfuller (iter_diff n s))) ->
    returns (make_stationary_loop adfuller todo max_diff s i st).
Proof.
  induction todo as [| todo IH]; intros s i st Hret.
  - simpl. destruct (negb st && (i <? max_diff)%Z); eexists; reflexivity.
  - simpl. destruct (negb st && (i <? max_diff)%Z).
    + destruct (Hret 1%nat ltac:(lia)) as [p Hp]. simpl in Hp.
      unfold adf_test. rewrite Hp. simpl.
      apply IH. intros n Hn. rewrite iter_diff_shift. apply Hret. lia.
    + eexists; reflexivity.
Qed.

End StationarityFacts.

(** C3.  For every series and every [max_diff >= 0], whatever the unit-root
    test computes: (1) a result [(s, k)] of [make_stationary] has
    [0 <= k <= max_diff], and [s] is the input differenced exactly [k]
    times, so the input itself when [k = 0]; (2) when the test rejects
    (p-value not below 0.05) the input and each of its [max_diff]
    differenced series, the result is the original, undifferenced input
    with order 0; (3) when the test accepts the input, the result is the
    input with order 0; (4) the function returns whenever the test answers
    on the series it is asked about. *)
Theorem make_stationary_order_and_fallback
        (adfuller : Series -> outcome float) (y : Series) (max_diff : Z) :
  (0 <= max_diff)%Z ->
  (forall s k, make_stationary adfuller y max_diff = Ok (s, k) ->
               (0 <= k <= max_diff)%Z /\ s = iter_diff (Z.to_nat k) y /\
               (k = 0%Z -> s = y)) /\
  ((forall j, (j <= Z.to_nat max_diff)%nat ->
              exists p, adfuller (iter_diff j y) = Ok p /\
                        fltb p (Fin 0.05) = false) ->
   make_stationary adfuller y max_diff = Ok (y, 0%Z)) /\
  (forall p, adfuller y = Ok p -> fltb p (Fin 0.05) = true ->
             make_stationary adfuller y max_diff = Ok (y, 0%Z)) /\
  ((forall j, (j <= Z.to_nat max_diff)%nat ->
              returns (adfuller (iter_diff j y))) ->
   returns (make_stationary adfuller y max_diff)).
Proof.
  intros Hmax. repeat apply conj.
  - intros s k H. unfold make_stationary in H.
    bind_inv H st0 Htest.
    bind_inv H st Hloop. destruct st as [[s1 k1] st1].
    apply loop_returns in Hloop; [| f_equal; lia].
    destruct Hloop as [n [Hn [Hk [Hs _]]]].
    destruct st1; simpl in H; injection H as <- <-.
    + subst k1. rewrite Z.add_0_l, Nat2Z.id.
      split; [lia |]. split; [exact Hs |].
      intros Hz. assert (n = 0%nat) by lia. subst n. exact Hs.
    + split; [lia |]. split; reflexivity.
  - intros Hrej. unfold make_stationary.
    assert (H0 : adf_test adfuller y (Fin 0.05) = Ok false).
    { destruct (Hrej 0%nat ltac:(lia)) as [p [Hp Hlt]]. simpl in Hp.
      unfold adf_test. rewrite Hp. simpl. rewrite Hlt. reflexivity. }
    rewrite H0. cbn [bind].
    rewrite loop_all_reject.
    + reflexivity.
    + f_equal. lia.
    + intros n Hn. destruct (Hrej n ltac:(lia)) as [p [Hp Hlt]].
      unfold adf_test. rewrite Hp. simpl. rewrite Hlt. reflexivity.
  - intros p Hp Hlt. unfold make_stationary, adf_test.
    rewrite Hp. cbn [bind]. rewrite Hlt.
    destruct (Z.to_nat max_diff); reflexivity.
  - intros Hret. unfold make_stationary.
    destruct (Hret 0%nat ltac:(lia)) as [p Hp]. simpl in Hp.
    unfold adf_test at 1. rewrite Hp. cbn [bind].
    destruct (loop_total adfuller (Z.to_nat max_diff) max_diff y 0
                         (fltb p (Fin 0.05))) as [[[s1 k1] st1] Hloop].
    + intros n Hn. apply Hret. lia.
    + rewrite Hloop. cbn [bind].
      destruct (negb st1); eexists; reflexivity.
Qed.

Lemma make_stationary_order_and_fallback_witness :
  (0 <= 2)%Z /\
  make_stationary adfuller_never
                  (pd_Series [Fin 1; Fin 2; Fin 4; Fin 8; Fin 16]) 2
  = Ok (pd_Series [Fin 1; Fin 2; Fin 4; Fin 8; Fin 16], 0%Z).
Proof.
  split; [lia |].
  apply (make_stationary_order_and_fallback
           adfuller_never
           (pd_Series [Fin 1; Fin 2; Fin 4; Fin 8; Fin 16]) 2).
  - lia.
  - intros j _. exists (Fin 1). split; reflexivity.
Defined.

(* ================================================================== *)
(** * Differencing, and the reverse differencing of the gap filler *)
(* ================================================================== *)

(** Differences of finite values are finite, so [dropna] drops the leading
    NaN of [diff] and nothing else. *)
Lemma diff_from_finite (rest : Series) :
  forall v, is_finite v = true -> all_finite rest = true ->
            all_finite (diff_from v rest) = true
            /\ dropna (diff_from v rest) = diff_from v rest.
Proof.
  induction rest as [| [l w] rest IH]; intros v Hv Hall.
  - split; reflexivity.
  - unfold all_finite in Hall. simpl in Hall.
    apply andb_prop in Hall as [Hw Hrest].
    destruct (IH w Hw Hrest) as [IH1 IH2].
    destruct v as [| | a |]; try discriminate Hv.
    destruct w as [| | b |]; try discriminate Hw.
    split.
    + unfold all_finite. simpl. exact IH1.
    + unfold dropna in *. simpl. rewrite IH2. reflexivity.
Qed.

Lemma dropna_diff_finite (y : Series) :
  all_finite y = true ->
  all_finite (dropna (diff y)) = true /\
  dropna (diff y) = match y with
                    | [] => []
                    | (_, v) :: rest => diff_from v rest
                    end.
Proof.
  destruct y as [| [l v] rest]; intros Hall.
  - split; reflexivity.
  - unfold all_finite in Hall. simpl in Hall.
    apply andb_prop in Hall as [Hv Hrest].
    destruct (diff_from_finite rest v Hv Hrest) as [H1 H2].
    assert (E : dropna (diff ((l, v) :: rest)) = diff_from v rest).
    { unfold dropna in *. simpl. exact H2. }
    rewrite E. split; [exact H1 | reflexivity].
Qed.

Lemma iter_diff_finite (n : nat) (y : Series) :
  all_finite y = true -> all_finite (iter_diff n y) = true.
Proof.
  intros Hall. induction n as [| n IH]; simpl.
  - exact Hall.
  - apply dropna_diff_finite, IH.
Qed.





(* ================================================================== *)
(** * The candidate orders *)
(* ================================================================== *)

Lemma in_range (n x : Z) : In x (range n) <-> (0 <= x < n)%Z.
Proof.
  unfold range. rewrite in_map_iff. split.
  - intros [k [<- Hk]]. apply in_seq in Hk. lia.
  - intros Hx. exists (Z.to_nat x). split; [lia |]. apply in_seq. lia.
Qed.

Lemma NoDup_map_injective {A B : Type} (f : A -> B) (l : list A) :
  (forall a a', f a = f a' -> a = a') -> NoDup l -> NoDup (map f l).
Proof.
  intros Hinj Hnd. induction Hnd as [| a l Hnotin _ IH]; simpl.
  - constructor.
  - constructor; [| exact IH].
    intros Hin. apply in_map_iff in Hin as [a' [E Ha']].
    apply Hinj in E. subst a'. contradiction.
Qed.

Lemma NoDup_range (n : Z) : NoDup (range n).
Proof.
  unfold range. apply NoDup_map_injective.
  - intros a a' E. lia.
  - apply seq_NoDup.
Qed.

Lemma NoDup_flat_map {A B : Type} (f : A -> list B) (l : list A) :
  NoDup l ->
  (forall a, In a l -> NoDup (f a)) ->
  (forall a a' b, In b (f a) -> In b (f a') -> a = a') ->
  NoDup (flat_map f l).
Proof.
  intros Hnd Hf Hdisj. induction Hnd as [| a l Hnotin _ IH]; simpl.
  - constructor.
  - apply NoDup_app.
    + apply Hf. left. reflexivity.
    + apply IH. intros a' Ha'. apply Hf. right. exact Ha'.
    + intros b Hb Hb'. apply in_flat_map in Hb' as [a' [Ha' Hb']].
      assert (a = a') by (eapply Hdisj; eassumption).
      subst a'. contradiction.
Qed.

Lemma in_product3 {A B C : Type} (xs : list A) (ys : list B) (zs : list C)
      (x : A) (y : B) (z : C) :
  In (x, y, z) (product3 xs ys zs) <-> In x xs /\ In y ys /\ In z zs.
Proof.
  unfold product3. rewrite in_flat_map. split.
  - intros [x' [Hx H]]. apply in_flat_map in H as [y' [Hy H]].
    apply in_map_iff in H as [z' [E Hz]].
    injection E as -> -> ->. auto.
  - intros [Hx [Hy Hz]]. exists x. split; [exact Hx |].
    apply in_flat_map. exists y. split; [exact Hy |].
    apply in_map_iff. exists z. split; [reflexivity | exact Hz].
Qed.

Lemma NoDup_product3 {A B C : Type}
      (xs : list A) (ys : list B) (zs : list C) :
  NoDup xs -> NoDup ys -> NoDup zs -> NoDup (product3 xs ys zs).
Proof.
  intros Hx Hy Hz. unfold product3.
  apply NoDup_flat_map; [exact Hx | |].
  - intros x _. apply NoDup_flat_map; [exact Hy | |].
    + intros y _. apply NoDup_map_injective; [| exact Hz].
      intros z z' E. injection E as ->. reflexivity.
    + intros y y' [[x' y''] z] H H'.
      apply in_map_iff in H as [z1 [E1 _]].
      apply in_map_iff in H' as [z2 [E2 _]].
      congruence.
  - intros x x' [[x'' y] z] H H'.
    apply in_flat_map in H as [y1 [_ H]].
    apply in_map_iff in H as [z1 [E1 _]].
    apply in_flat_map in H' as [y2 [_ H']].
    apply in_map_iff in H' as [z2 [E2 _]].
    congruence.
Qed.

(** C5.  Without seasonal parameters the generator returns the Cartesian
    product of p in [0, max_p], d in [0, max_d] (the single d when one is
    given) and q in [0, max_q]: a list without repetition holding exactly
    those triples, laid out as [itertools.product] does.  The call with
    max_p=1, max_d=0, max_q=1 and the other arguments at their defaults
    returns (0,0,0), (0,0,1), (1,0,0), (1,0,1) in that order.  Asking for
    seasonal parameters without a periodicity raises [ValueError]. *)
Theorem generate_auto_arimax_test_params_cartesian
        (max_p max_d max_q : Z) (d : option Z) (max_P max_D max_Q : Z)
        (seasonality_trend : option Z) :
  (exists l,
      generate_auto_arimax_test_params max_p max_d max_q d false
                                       max_P max_D max_Q seasonality_trend
      = Ok (NonSeasonal l) /\
      l = product3 (range (max_p + 1))
                   (match d with
                    | None => range (max_d + 1)
                    | Some d0 => [d0]
                    end)
                   (range (max_q + 1)) /\
      NoDup l /\
      (forall p d' q,
          In (p, d', q) l <->
          (0 <= p <= max_p)%Z /\
          match d with
          | None => (0 <= d' <= max_d)%Z
          | Some d0 => d' = d0
          end /\
          (0 <= q <= max_q)%Z)) /\
  generate_auto_arimax_test_params 1 0 1 None false 2 1 2 None
  = Ok (NonSeasonal [(0, 0, 0); (0, 0, 1); (1, 0, 0); (1, 0, 1)]%Z) /\
  (exists msg,
      generate_auto_arimax_test_params max_p max_d max_q d true
                                       max_P max_D max_Q None
      = Raise (ValueError msg)).
Proof.
  split; [| split].
  - eexists. split; [| split; [reflexivity | split]].
    + destruct d, seasonality_trend; reflexivity.
    + destruct d.
      * apply NoDup_product3; try apply NoDup_range.
        constructor; [intros [] | constructor].
      * apply NoDup_product3; apply NoDup_range.
    + intros p d' q. rewrite in_product3, !in_range.
      destruct d as [d0 |].
      * simpl. intuition (try lia; try congruence).
      * rewrite in_range. lia.
  - reflexivity.
  - eexists. reflexivity.
Qed.

(* ================================================================== *)
(** * The smoother: its guards, its result *)
(* ================================================================== *)

Lemma length_range (n : Z) : List.length (range n) = Z.to_nat n.
Proof. unfold range. rewrite length_map, length_seq. reflexivity. Qed.

Lemma length_range_len {A : Type} (l : list A) :
  List.length (range (len l)) = List.length l.
Proof. rewrite length_range. unfold len. apply Nat2Z.id. Qed.

(** Rows and labels of a Series with the default index. *)
Lemma nth_error_enumerated (vs : list float) :
  forall (a i : nat),
    nth_error (combine (map Z.of_nat (seq a (List.length vs))) vs) i
    = option_map (fun v => (Z.of_nat (a + i), v)) (nth_error vs i).
Proof.
  induction vs as [| v vs IH]; intros a i; simpl.
  - destruct i; reflexivity.
  - destruct i as [| i]; simpl.
    + rewrite Nat.add_0_r. reflexivity.
    + rewrite IH. rewrite Nat.add_succ_r. reflexivity.
Qed.

Lemma values_pd_Series (vs : list float) : values (pd_Series vs) = vs.
Proof.
  unfold values, pd_Series.
  assert (H : forall (ls : list Z) (l : list float),
             List.length ls = List.length l -> map snd (combine ls l) = l).
  { intros ls l. revert ls.
    induction l as [| v l IH]; intros [| x ls] E; simpl in *;
      try reflexivity; try discriminate E.
    f_equal. apply IH. lia. }
  apply H, length_range_len.
Qed.

Lemma index_pd_Series (vs : list float) :
  index (pd_Series vs) = range (len vs).
Proof.
  unfold index, pd_Series.
  assert (H : forall (ls : list Z) (l : list float),
             List.length ls = List.length l -> map fst (combine ls l) = ls).
  { intros ls l. revert ls.
    induction l as [| v l IH]; intros [| x ls] E; simpl in *;
      try reflexivity; try discriminate E.
    f_equal. apply IH. lia. }
  apply H, length_range_len.
Qed.

Lemma length_pd_Series (vs : list float) :
  List.length (pd_Series vs) = List.length vs.
Proof.
  rewrite <- (values_pd_Series vs) at 2. unfold values.
  rewrite length_map. reflexivity.
Qed.

Lemma check_nans_and_zeros_true (y : Series) :
  contains_nan_or_zero y <-> check_nans_and_zeros y = true.
Proof.
  unfold contains_nan_or_zero, check_nans_and_zeros. split.
  - intros [v [Hin [H | H]]]; apply orb_true_iff; [left | right];
      apply existsb_exists; exists v; auto.
  - intros H. apply orb_true_iff in H as [H | H];
      apply existsb_exists in H as [v [Hin Hv]]; exists v; auto.
Qed.

Section SmootherFacts.

Variable log1p : float -> float.
Variable expm1 : float -> float.
Variable lowess :
  list float -> list float -> float -> Z -> list (float * float).

(** C9.  [smooth_lowess] raises [ValueError] for every series when the
    window is below 3 (so for a window of 2), and when the window exceeds
    the length of the series; it raises [ValueError] for every series that
    contains a NaN or a zero, whatever the window; and it accepts a window
    equal to the length of a series of at least 3 values, none NaN or
    zero. *)
Theorem smooth_lowess_guards (y : Series) (window iterations : Z) :
  ((window < 3)%Z ->
   exists msg, smooth_lowess log1p expm1 lowess y window iterations
               = Raise (ValueError msg)) /\
  ((len y < window)%Z ->
   exists msg, smooth_lowess log1p expm1 lowess y window iterations
               = Raise (ValueError msg)) /\
  (contains_nan_or_zero y ->
   exists msg, smooth_lowess log1p expm1 lowess y window iterations
               = Raise (ValueError msg)) /\
  ((3 <= len y)%Z -> ~ contains_nan_or_zero y ->
   returns (smooth_lowess log1p expm1 lowess y (len y) iterations)).
Proof.
  unfold smooth_lowess. repeat apply conj.
  - intros H. apply Z.ltb_lt in H. rewrite H. simpl. eexists; reflexivity.
  - intros H. apply Z.gtb_lt in H. rewrite H, orb_true_r.
    eexists; reflexivity.
  - intros H. apply check_nans_and_zeros_true in H.
    unfold check_nans_and_zeros in H.
    destruct ((window <? 3)%Z || (window >? len y)%Z);
      [eexists; reflexivity |].
    rewrite H. eexists; reflexivity.
  - intros Hlen Hclean.
    assert (Hw : ((len y <? 3)%Z || (len y >? len y)%Z) = false).
    { apply orb_false_iff. split; [apply Z.ltb_ge; lia |].
      rewrite Z.gtb_ltb. apply Z.ltb_irrefl. }
    rewrite Hw.
    destruct (existsb isna (values y)
              || existsb (fun v => feqb v (Fin 0)) (values y)) eqn:E.
    + exfalso. apply Hclean, check_nans_and_zeros_true. exact E.
    + eexists; reflexivity.
Qed.

(** On a valid input the two guards pass and the regression runs. *)
Lemma smooth_lowess_valid_input (y : Series) (window iterations : Z) :
  (3 <= window <= len y)%Z ->
  check_nans_and_zeros y = false ->
  smooth_lowess log1p expm1 lowess y window iterations
  = Ok (pd_Series
          (map expm1
               (map snd (lowess (map log1p (values y))
                                (map of_int (range (len y)))
                                (fdiv (of_int window) (of_int (len y)))
                                iterations)))).
Proof.
  intros Hw Hclean. unfold smooth_lowess.
  assert (G : ((window <? 3)%Z || (window >? len y)%Z) = false).
  { apply orb_false_iff. split; [apply Z.ltb_ge; lia |].
    rewrite Z.gtb_ltb. apply Z.ltb_ge. lia. }
  rewrite G. unfold check_nans_and_zeros in Hclean. rewrite Hclean.
  reflexivity.
Qed.

(** C7, as the code has it.  For every valid input (no NaN, no zero, a
    window between 3 and the length of the series) [smooth_lowess] returns
    the series built from [expm1] of the values that the locally weighted
    regression fits to [log1p] of the input over the positions 0..n-1,
    with fraction window/n and the given number of reweighting passes.
    The result carries the default index 0, 1, ... (one label per fitted
    value), not the index of the input; it has the length of the input
    when the regression returns one fitted value per observation, and then
    its index is the input's exactly when the input's is the default
    one. *)
Theorem smooth_lowess_result (y : Series) (window iterations : Z) :
  (3 <= window <= len y)%Z ->
  check_nans_and_zeros y = false ->
  let fitted := lowess (map log1p (values y))
                       (map of_int (range (len y)))
                       (fdiv (of_int window) (of_int (len y)))
                       iterations in
  exists out,
    smooth_lowess log1p expm1 lowess y window iterations = Ok out /\
    values out = map expm1 (map snd fitted) /\
    index out = range (len fitted) /\
    (List.length fitted = List.length y ->
     List.length out = List.length y /\
     (index out = index y <-> index y = range (len y))).
Proof.
  intros Hw Hclean fitted.
  rewrite (smooth_lowess_valid_input y window iterations Hw Hclean).
  fold fitted. eexists. split; [reflexivity |].
  assert (Hidx : index (pd_Series (map expm1 (map snd fitted)))
                 = range (len fitted)).
  { rewrite index_pd_Series. unfold len. rewrite !length_map. reflexivity. }
  split; [apply values_pd_Series |]. split; [exact Hidx |].
  intros Hlen.
  split.
  - rewrite length_pd_Series, !length_map. exact Hlen.
  - rewrite Hidx. unfold len. rewrite Hlen.
    split; intros H; symmetry; exact H.
Qed.

End SmootherFacts.

Lemma smooth_lowess_guards_witness :
  (exists msg,
      smooth_lowess transform_id transform_id lowess_interpolating
                    (pd_Series [Fin 101; Fin 102; Fin 103; Fin 104]) 2 2
      = Raise (ValueError msg)) /\
  returns (smooth_lowess transform_id transform_id lowess_interpolating
                         (pd_Series [Fin 101; Fin 102; Fin 103; Fin 104])
                         4 2).
Proof.
  pose proof (smooth_lowess_guards
                transform_id transform_id lowess_interpolating
                (pd_Series [Fin 101; Fin 102; Fin 103; Fin 104]) 2 2)
    as [Hsmall _].
  pose proof (smooth_lowess_guards
                transform_id transform_id lowess_interpolating
                (pd_Series [Fin 101; Fin 102; Fin 103; Fin 104]) 4 2)
    as [_ [_ [_ Hfull]]].
  split.
  - apply Hsmall. reflexivity.
  - apply Hfull.
    + discriminate.
    + intros H. apply check_nans_and_zeros_true in H. discriminate H.
Defined.

Lemma smooth_lowess_result_witness :
  (3 <= 3 <= len (pd_Series [Fin 101; Fin 102; Fin 103; Fin 104]))%Z /\
  exists out,
    smooth_lowess transform_id transform_id lowess_interpolating
                  (pd_Series [Fin 101; Fin 102; Fin 103; Fin 104]) 3 2
    = Ok out /\
    values out = [Fin 101; Fin 102; Fin 103; Fin 104].
Proof.
  split; [split; discriminate |].
  destruct (smooth_lowess_result
              transform_id transform_id lowess_interpolating
              (pd_Series [Fin 101; Fin 102; Fin 103; Fin 104]) 3 2)
    as [out [Hout [Hvalues _]]].
  - split; discriminate.
  - reflexivity.
  - exists out. split; [exact Hout | exact Hvalues].
Defined.

(** C7 as the specification states it fails on the index: for the three
    prices labelled 5, 6, 7, a valid input for a window of 3, whatever the
    numerical routines compute the result is not indexed 5, 6, 7. *)
Lemma smooth_lowess_resets_index :
  ((3 <= 3 <= len sliced_prices)%Z /\
   check_nans_and_zeros sliced_prices = false) /\
  ~ exists log1p expm1 lowess out,
      smooth_lowess log1p expm1 lowess sliced_prices 3 2 = Ok out /\
      index out = index sliced_prices.
Proof.
  split; [split; [split; discriminate | reflexivity] |].
  intros [log1p [expm1 [lowess [out [Hout Hidx]]]]].
  rewrite smooth_lowess_valid_input in Hout;
    [| split; discriminate | reflexivity].
  injection Hout as <-.
  rewrite index_pd_Series in Hidx. unfold range in Hidx.
  destruct (Z.to_nat _) as [| n]; simpl in Hidx; discriminate Hidx.
Qed.

(* ================================================================== *)
(** * The estimator of the normal parameters *)
(* ================================================================== *)

Lemma notna_and_nonzero_strip (y : Series) :
  filter notna_and_nonzero y = strip_nan_and_zero y.
Proof.
  unfold strip_nan_and_zero. apply filter_ext. intros row.
  unfold notna_and_nonzero. rewrite negb_orb. reflexivity.
Qed.

Lemma strip_nan_and_zero_idempotent (y : Series) :
  strip_nan_and_zero (strip_nan_and_zero y) = strip_nan_and_zero y.
Proof.
  unfold strip_nan_and_zero.
  induction y as [| row y IH]; simpl.
  - reflexivity.
  - destruct (negb (isna (snd row) || feqb (snd row) (Fin 0))) eqn:E; simpl.
    + rewrite E, IH. reflexivity.
    + exact IH.
Qed.

Lemma nth_error_alloc (h : heap) (s : Series) :
  nth_error (h ++ [s]) (List.length h) = Some s.
Proof.
  rewrite nth_error_app2 by lia. rewrite Nat.sub_diag. reflexivity.
Qed.

Lemma nth_error_kept (h extra : heap) (r : ref) (s : Series) :
  nth_error h r = Some s -> nth_error (h ++ extra) r = Some s.
Proof.
  intros H. rewrite nth_error_app1; [exact H |].
  apply nth_error_Some. rewrite H. discriminate.
Qed.

Section EstimatorFacts.

Variable Qsqrt : Q -> Q.
Variable norm_logpdf : float -> float -> float -> float.
Variable minimize :
  (float * float -> float) -> float * float -> outcome (float * float).

(** A run of the estimator on a store: two objects are allocated, the copy
    and the filtered copy; no object is written. *)
Lemma estimate_normal_params_run (h : heap) (r : ref) (s : Series) :
  nth_error h r = Some s ->
  estimate_normal_params Qsqrt norm_logpdf minimize r h
  = match nelder_mead_from_sample Qsqrt norm_logpdf minimize
                                (values (strip_nan_and_zero s)) with
    | Ok result => Ok (result, h ++ [s] ++ [strip_nan_and_zero s])
    | Raise e => Raise e
    end.
Proof.
  intros Hr.
  unfold estimate_normal_params, Series_copy, Series_getitem_mask,
    st_bind, deref, alloc, st_lift, st_ret.
  rewrite Hr. rewrite nth_error_alloc.
  rewrite length_app. simpl List.length.
  replace (List.length h + 1)%nat
    with (List.length (h ++ [s])) by (rewrite length_app; reflexivity).
  rewrite nth_error_alloc. rewrite notna_and_nonzero_strip.
  unfold nelder_mead_from_sample.
  rewrite <- app_assoc.
  destruct (minimize _ _); reflexivity.
Qed.

Lemma call_estimate_normal_params_run (s : Series) :
  call_estimate_normal_params Qsqrt norm_logpdf minimize s
  = nelder_mead_from_sample Qsqrt norm_logpdf minimize
                            (values (strip_nan_and_zero s)).
Proof.
  unfold call_estimate_normal_params.
  rewrite (estimate_normal_params_run [s] 0%nat s eq_refl).
  destruct (nelder_mead_from_sample _ _ _ _) as [result | e]; reflexivity.
Qed.

(** C10.  Whatever the optimiser and the density compute:
    (1) the estimate for a series [s] is the estimate for [s] with its NaN
    and zero entries removed;
    (2) it is the result of the search started at the mean and standard
    deviation of the entries kept, minimising the negative log-likelihood
    of those entries;
    (3) a run on a store in which the caller holds [s] leaves every object
    of the store as it was, the caller's series among them, and returns
    the estimate of (1). *)
Theorem estimate_normal_params_ignores_nan_and_zero (s : Series) :
  call_estimate_normal_params Qsqrt norm_logpdf minimize s
  = call_estimate_normal_params Qsqrt norm_logpdf minimize
                                (strip_nan_and_zero s) /\
  call_estimate_normal_params Qsqrt norm_logpdf minimize s
  = minimize
      (fun params =>
         neg_log_likelihood norm_logpdf params
                            (values (strip_nan_and_zero s)))
      (np_mean (values (strip_nan_and_zero s)),
       np_std Qsqrt (values (strip_nan_and_zero s))) /\
  (forall (h : heap) (r : ref),
      nth_error h r = Some s ->
      (forall result h',
          estimate_normal_params Qsqrt norm_logpdf minimize r h
          = Ok (result, h') ->
          (forall r0 s0, nth_error h r0 = Some s0 ->
                         nth_error h' r0 = Some s0) /\
          call_estimate_normal_params Qsqrt norm_logpdf minimize s
          = Ok result) /\
      (forall e,
          estimate_normal_params Qsqrt norm_logpdf minimize r h = Raise e ->
          call_estimate_normal_params Qsqrt norm_logpdf minimize s
          = Raise e)).
Proof.
  split; [| split].
  - rewrite !call_estimate_normal_params_run.
    rewrite strip_nan_and_zero_idempotent. reflexivity.
  - apply call_estimate_normal_params_run.
  - intros h r Hr. rewrite call_estimate_normal_params_run.
    rewrite (estimate_normal_params_run h r s Hr).
    destruct (nelder_mead_from_sample _ _ _ _) as [res | e0]; split.
    + intros result h' H. injection H as <- <-.
      split; [| reflexivity].
      intros r0 s0 H0. apply nth_error_kept. exact H0.
    + intros e H. discriminate H.
    + intros result h' H. discriminate H.
    + intros e H. injection H as <-. reflexivity.
Qed.

End EstimatorFacts.

Lemma estimate_normal_params_ignores_nan_and_zero_witness :
  call_estimate_normal_params
    Qsqrt_id norm_logpdf_zero minimize_x0
    (pd_Series [Fin 1.2; NaN; Fin 2.3; Fin 0; Fin 3.4; NaN])
  = call_estimate_normal_params
      Qsqrt_id norm_logpdf_zero minimize_x0
      [(0%Z, Fin 1.2); (2%Z, Fin 2.3); (4%Z, Fin 3.4)].
Proof.
  exact (proj1 (estimate_normal_params_ignores_nan_and_zero
                  Qsqrt_id norm_logpdf_zero minimize_x0
                  (pd_Series [Fin 1.2; NaN; Fin 2.3; Fin 0; Fin 3.4; NaN]))).
Defined.

(* ================================================================== *)
(** * The prediction interval of a forecast *)
(* ================================================================== *)

Lemma zip_with_nth (op : float -> float -> float) (d : float) :
  forall a b,
    zip_with op a b
    = map (fun i => op (nth i a d) (nth i b d))
          (seq 0 (Nat.min (List.length a) (List.length b))).
Proof.
  induction a as [| x a IH]; intros [| y b]; simpl; try reflexivity.
  rewrite <- seq_shift, map_map. f_equal. apply IH.
Qed.

Lemma zip_with_map_right (op : float -> float -> float) {K : Type}
      (g : K -> float) :
  forall (a : list float) (ks : list K),
    zip_with op a (map g ks)
    = map (fun kf => op (snd kf) (g (fst kf))) (combine ks a).
Proof.
  induction a as [| x a IH]; intros [| k ks]; simpl; try reflexivity.
  f_equal. apply IH.
Qed.

Lemma np_binop_same_length (op : float -> float -> float) (a b : list float) :
  List.length a = List.length b -> np_binop op a b = Ok (zip_with op a b).
Proof.
  intros E. unfold np_binop. rewrite E, Nat.eqb_refl. reflexivity.
Qed.

(** The two slices of the code hold the same number of values, and their
    difference is the shifted residuals. *)
Lemma slices_residuals (y : list float) (h : nat) :
  h <> 0%nat ->
  np_binop fsub (slice_to_minus y h) (slice_from y h)
  = Ok (shifted_residuals y h).
Proof.
  intros Hh. destruct h as [| h']; [contradiction |].
  unfold slice_to_minus, slice_from.
  rewrite np_binop_same_length
    by (rewrite length_firstn, length_skipn; lia).
  f_equal. rewrite (zip_with_nth fsub NaN).
  rewrite length_firstn, length_skipn.
  replace (Nat.min (Nat.min (List.length y - S h') (List.length y))
                   (List.length y - S h'))
    with (List.length y - S h')%nat by lia.
  unfold shifted_residuals. apply map_ext_in. intros i Hi.
  apply in_seq in Hi. rewrite nth_firstn, nth_skipn.
  destruct (Nat.ltb_spec i (List.length y - S h')); [| lia].
  f_equal. f_equal. lia.
Qed.

Section IntervalFacts.

Variable Qsqrt : Q -> Q.
Variable norm_ppf : float -> float.

(** C6.  For a forecast of at least one step,
    [calculate_forecast_prediction_interval] returns the two series of
    bounds forecast[k] -/+ z * std * sqrt k, for k = 1..len(forecast),
    where std is the standard deviation of the residuals
    y[:-len(forecast)] - y[len(forecast):] of the historical series
    against itself shifted, and z is the normal quantile at 1 - alpha/2. *)
Theorem calculate_forecast_prediction_interval_bounds
        (y_series y_forecast : Series) (alpha : float) :
  y_forecast <> [] ->
  calculate_forecast_prediction_interval Qsqrt norm_ppf
                                         y_series y_forecast alpha
  = Ok (pd_Series (lower_bounds Qsqrt norm_ppf (values y_series)
                                (values y_forecast) alpha),
        pd_Series (upper_bounds Qsqrt norm_ppf (values y_series)
                                (values y_forecast) alpha)) /\
  (forall k f,
      nth_error (values y_forecast) k = Some f ->
      let margin :=
        fmul (fmul (norm_ppf (fsub (Fin 1) (fdiv alpha (Fin 2))))
                   (np_std Qsqrt
                           (shifted_residuals
                              (values y_series)
                              (List.length (values y_forecast)))))
             (fsqrt Qsqrt (of_int (Z.of_nat (1 + k)))) in
      nth_error (lower_bounds Qsqrt norm_ppf (values y_series)
                              (values y_forecast) alpha) k
      = Some (fsub f margin) /\
      nth_error (upper_bounds Qsqrt norm_ppf (values y_series)
                              (values y_forecast) alpha) k
      = Some (fadd f margin)).
Proof.
  intros Hne. split.
  - unfold calculate_forecast_prediction_interval.
    assert (Hh : List.length (values y_forecast) <> 0%nat).
    { unfold values. rewrite length_map.
      destruct y_forecast; [contradiction | discriminate]. }
    rewrite (slices_residuals _ _ Hh). cbn [bind].
    rewrite !map_map.
    rewrite !np_binop_same_length
      by (rewrite length_map; unfold arange1;
          rewrite length_map, length_seq; reflexivity).
    cbn [bind]. rewrite !zip_with_map_right.
    reflexivity.
  - intros k f Hk margin.
    unfold lower_bounds, upper_bounds, arange1.
    rewrite !nth_error_map, (nth_error_enumerated _ 1 k), Hk.
    split; reflexivity.
Qed.

End IntervalFacts.

Lemma calculate_forecast_prediction_interval_bounds_witness :
  pd_Series [Fin 11; Fin 12] <> [] /\
  calculate_forecast_prediction_interval
    Qsqrt_id transform_id
    (pd_Series [Fin 1; Fin 2; Fin 4; Fin 8; Fin 10])
    (pd_Series [Fin 11; Fin 12]) (Fin 0.05)
  = Ok (pd_Series (lower_bounds Qsqrt_id transform_id
                                [Fin 1; Fin 2; Fin 4; Fin 8; Fin 10]
                                [Fin 11; Fin 12] (Fin 0.05)),
        pd_Series (upper_bounds Qsqrt_id transform_id
                                [Fin 1; Fin 2; Fin 4; Fin 8; Fin 10]
                                [Fin 11; Fin 12] (Fin 0.05))).
Proof.
  split; [discriminate |].
  apply (calculate_forecast_prediction_interval_bounds
           Qsqrt_id transform_id
           (pd_Series [Fin 1; Fin 2; Fin 4; Fin 8; Fin 10])
           (pd_Series [Fin 11; Fin 12]) (Fin 0.05)).
  discriminate.
Defined.

(* ================================================================== *)
(** * The fitness of one candidate order *)
(* ================================================================== *)

Section FitnessFacts.

Variables Params Exog Trend Model : Type.
Variable ARIMA :
  list float -> option Exog -> Params -> option seasonal_order ->
  option Trend -> outcome Model.
Variable fit : Model -> outcome ARIMAResults.

(** A fit that raises an [Exception] is scored infinity; nothing is
    raised. *)
Lemma check_generated_arimax_params_fit_raises
      (y_array : list float) (params : Params) (exog_array : option Exog)
      (trend_params : option Trend) (seasonal_params : option seasonal_order)
      (penalty_criteria : string) (model : Model) (e : exn) :
  is_none exog_array && negb (is_none trend_params) = false ->
  ARIMA y_array exog_array params seasonal_params trend_params = Ok model ->
  fit model = Raise e ->
  is_Exception e = true ->
  check_generated_arimax_params ARIMA fit y_array params exog_array
                                trend_params seasonal_params penalty_criteria
  = Ok PInf.
Proof.
  intros Hguard Hmodel Hfit He. unfold check_generated_arimax_params.
  rewrite Hguard, Hmodel. cbn [bind]. rewrite Hfit, He. reflexivity.
Qed.

(** A fit that succeeds is scored by [round(aic, 5)] or [round(bic, 5)]:
    five digits after the decimal point. *)
Lemma check_generated_arimax_params_fit_succeeds
      (y_array : list float) (params : Params) (exog_array : option Exog)
      (trend_params : option Trend) (seasonal_params : option seasonal_order)
      (model : Model) (model_fit : ARIMAResults) :
  is_none exog_array && negb (is_none trend_params) = false ->
  ARIMA y_array exog_array params seasonal_params trend_params = Ok model ->
  fit model = Ok model_fit ->
  check_generated_arimax_params ARIMA fit y_array params exog_array
                                trend_params seasonal_params "AIC"
  = Ok (py_round (aic model_fit) 5) /\
  check_generated_arimax_params ARIMA fit y_array params exog_array
                                trend_params seasonal_params "BIC"
  = Ok (py_round (bic model_fit) 5).
Proof.
  intros Hguard Hmodel Hfit. unfold check_generated_arimax_params.
  rewrite Hguard, Hmodel. cbn [bind]. rewrite Hfit. split; reflexivity.
Qed.

End FitnessFacts.

(** C4, at an input where the code and the specification part.  With the model
    built and the fit failing on a singular matrix the evaluator returns
    infinity.  With a successful fit whose AIC is 123.456789 it returns
    123.45679: [round(aic, 5)] keeps five digits after the decimal point,
    eight significant digits here, where five significant digits give
    123.46. *)
Theorem check_generated_arimax_params_keeps_five_decimals :
  check_generated_arimax_params
    ARIMA_of_order (fun _ => Raise (LinAlgError "singular matrix"))
    [Fin 1; Fin 2; Fin 3] (1, 1, 1)%Z None None None "AIC"
  = Ok PInf /\
  check_generated_arimax_params
    ARIMA_of_order (fit_scored (fun _ => Fin 123.456789))
    [Fin 1; Fin 2; Fin 3] (1, 1, 1)%Z None None None "AIC"
  = Ok (Fin 123.45679) /\
  round_significant (Fin 123.456789) 5 = Fin 123.46 /\
  feqb (Fin 123.45679) (Fin 123.46) = false.
Proof.
  split; [| split; [| split]].
  - apply (check_generated_arimax_params_fit_raises
             _ _ _ _ ARIMA_of_order _ _ _ _ _ _ _ (1, 1, 1)%Z
             (LinAlgError "singular matrix")); reflexivity.
  - destruct (check_generated_arimax_params_fit_succeeds
                _ _ _ _ ARIMA_of_order
                (fit_scored (fun _ => Fin 123.456789))
                [Fin 1; Fin 2; Fin 3] (1, 1, 1)%Z None None None
                (1, 1, 1)%Z
                {| aic := Fin 123.456789; bic := Fin 123.456789 |}
                eq_refl eq_refl eq_refl) as [Haic _].
    rewrite Haic. vm_compute. reflexivity.
  - vm_compute. reflexivity.
  - vm_compute. reflexivity.
Qed.

(* ================================================================== *)
(** * The search over the candidates *)
(* ================================================================== *)

(** The order of floats that are not NaN. *)

Lemma Qle_bool_false (a b : Q) : Qle_bool a b = false <-> ~ (a <= b)%Q.
Proof.
  rewrite <- Qle_bool_iff. destruct (Qle_bool a b); split; intros H.
  - discriminate H.
  - exfalso. apply H. reflexivity.
  - intros H'. discriminate H'.
  - reflexivity.
Qed.

Lemma Qeq_bool_false (a b : Q) : Qeq_bool a b = false <-> ~ (a == b)%Q.
Proof.
  rewrite <- Qeq_bool_iff. destruct (Qeq_bool a b); split; intros H.
  - discriminate H.
  - exfalso. apply H. reflexivity.
  - intros H'. discriminate H'.
  - reflexivity.
Qed.

Ltac float_order :=
  simpl in *; try discriminate; try reflexivity;
  repeat match goal with
         | H : negb _ = true |- _ => apply negb_true_iff in H
         | H : negb _ = false |- _ => apply negb_false_iff in H
         | H : Qle_bool _ _ = true |- _ => apply Qle_bool_iff in H
         | H : Qle_bool _ _ = false |- _ => apply Qle_bool_false in H
         | |- negb _ = true => apply negb_true_iff
         | |- negb _ = false => apply negb_false_iff
         | |- Qle_bool _ _ = true => apply Qle_bool_iff
         | |- Qle_bool _ _ = false => apply Qle_bool_false
         | |- Qeq_bool _ _ = false => apply Qeq_bool_false
         end;
  try lra.

Lemma fltb_irrefl (x : float) : fltb x x = false.
Proof. destruct x; float_order. Qed.

Lemma fltb_asym (x y : float) : fltb x y = true -> fltb y x = false.
Proof. destruct x, y; intros H; float_order. Qed.

Lemma fltb_lt_neq (x y : float) : fltb x y = true -> feqb y x = false.
Proof. destruct x, y; intros H; float_order. Qed.

(** [x < z <= y] gives [x < y]. *)
Lemma fltb_lt_le (x y z : float) :
  isna y = false ->
  fltb x z = true -> fltb y z = false -> fltb x y = true.
Proof. destruct x, y, z; intros Hy H1 H2; float_order. Qed.

(** [min(l)] over scores without NaN: the object returned is an element of
    [l] that no element is smaller than, and every element before it is
    greater. *)
Lemma min_from_first_minimum (l : list float) :
  forall (pre : list float) (bi : nat) (bv : float),
    Forall (fun s => isna s = false) (pre ++ l) ->
    nth_error pre bi = Some bv ->
    (forall s, In s pre -> fltb s bv = false) ->
    (forall j s, (j < bi)%nat -> nth_error pre j = Some s ->
                 fltb bv s = true) ->
    let r := min_from (bi, bv) (List.length pre) l in
    nth_error (pre ++ l) (fst r) = Some (snd r) /\
    (forall s, In s (pre ++ l) -> fltb s (snd r) = false) /\
    (forall j s, (j < fst r)%nat -> nth_error (pre ++ l) j = Some s ->
                 fltb (snd r) s = true).
Proof.
  induction l as [| x l IH]; intros pre bi bv Hnan Hbest Hmin Hfirst.
  - simpl. rewrite app_nil_r. auto.
  - simpl min_from.
    replace (pre ++ x :: l) with ((pre ++ [x]) ++ l) in *
      by (rewrite <- app_assoc; reflexivity).
    replace (S (List.length pre)) with (List.length (pre ++ [x]))
      by (rewrite length_app; simpl; lia).
    assert (Hpre : forall s, In s pre -> isna s = false).
    { intros s Hs. rewrite Forall_forall in Hnan. apply Hnan.
      apply in_or_app. left. apply in_or_app. left. exact Hs. }
    destruct (fltb x bv) eqn:Hx.
    + apply IH; [exact Hnan | | |].
      * rewrite nth_error_app2 by lia. rewrite Nat.sub_diag. reflexivity.
      * intros s Hs. apply in_app_or in Hs as [Hs | [<- | []]].
        -- apply fltb_asym. apply (fltb_lt_le x s bv); auto.
        -- apply fltb_irrefl.
      * intros j s Hj Hs. rewrite nth_error_app1 in Hs by exact Hj.
        apply nth_error_In in Hs.
        apply (fltb_lt_le x s bv); auto.
    + apply IH; [exact Hnan | | |].
      * rewrite nth_error_app1; [exact Hbest |].
        apply nth_error_Some. rewrite Hbest. discriminate.
      * intros s Hs. apply in_app_or in Hs as [Hs | [<- | []]]; auto.
      * intros j s Hj Hs. apply (Hfirst j s Hj).
        assert (bi < List.length pre)%nat
          by (apply nth_error_Some; rewrite Hbest; discriminate).
        rewrite nth_error_app1 in Hs by lia. exact Hs.
Qed.

(** [l.index(x)] of an object [x] of [l] that every earlier element differs
    from is the position of [x]. *)
Lemma index_from_position (l : list float) :
  forall (pre : list float) (ri : nat) (rv : float),
    nth_error (pre ++ l) ri = Some rv ->
    (List.length pre <= ri)%nat ->
    (forall j s, (j < ri)%nat -> nth_error (pre ++ l) j = Some s ->
                 feqb s rv = false) ->
    index_from (ri, rv) (List.length pre) l = Ok ri.
Proof.
  induction l as [| x l IH]; intros pre ri rv Hr Hle Hneq.
  - rewrite app_nil_r in Hr.
    assert (ri < List.length pre)%nat
      by (apply nth_error_Some; rewrite Hr; discriminate).
    lia.
  - simpl. destruct (Nat.eqb_spec (List.length pre) ri) as [E | NE].
    + simpl. rewrite E. reflexivity.
    + simpl.
      assert (Hx : feqb x rv = false).
      { apply (Hneq (List.length pre)); [lia |].
        rewrite nth_error_app2 by lia. rewrite Nat.sub_diag. reflexivity. }
      rewrite Hx.
      replace (S (List.length pre)) with (List.length (pre ++ [x]))
        by (rewrite length_app; simpl; lia).
      apply IH.
      * rewrite <- app_assoc. exact Hr.
      * rewrite length_app. simpl. lia.
      * intros j s Hj Hs. rewrite <- app_assoc in Hs.
        apply (Hneq j s Hj Hs).
Qed.

(** X1.  On scores without NaN, one per candidate, the last three
    statements of the optimizer select the first candidate whose score no
    score is below, in the order in which the scores stand in the list. *)
Lemma select_optimal_first_minimum {Params : Type}
      (arimax_test_params : list Params) (test_results : list float) :
  List.length arimax_test_params = List.length test_results ->
  test_results <> [] ->
  Forall (fun s => isna s = false) test_results ->
  exists (i : nat) (optimal_params : Params) (least : float),
    select_optimal arimax_test_params test_results = Ok optimal_params /\
    nth_error arimax_test_params i = Some optimal_params /\
    nth_error test_results i = Some least /\
    (forall s, In s test_results -> fltb s least = false) /\
    (forall j s, (j < i)%nat -> nth_error test_results j = Some s ->
                 fltb least s = true).
Proof.
  intros Hlen Hne Hnan.
  destruct test_results as [| x rest]; [contradiction |].
  pose proof (min_from_first_minimum rest [x] 0 x Hnan eq_refl) as Hmin.
  simpl in Hmin.
  destruct (min_from (0%nat, x) 1 rest) as [ri rv] eqn:Er.
  destruct Hmin as [Hri [Hleast Hfirst]].
  - intros s [<- | []]. apply fltb_irrefl.
  - intros j s Hj. lia.
  - simpl in Hri, Hleast, Hfirst.
    destruct (nth_error arimax_test_params ri) as [c |] eqn:Ec.
    + assert (Hidx : py_index (ri, rv) (x :: rest) = Ok ri).
      { apply (index_from_position (x :: rest) [] ri rv Hri).
        - simpl. lia.
        - intros j s Hj Hs. apply fltb_lt_neq. apply (Hfirst j s Hj Hs). }
      exists ri, c, rv. unfold select_optimal. simpl py_min. rewrite Er.
      cbn [bind]. rewrite Hidx. cbn [bind]. unfold getitem. rewrite Ec.
      repeat split; auto.
    + exfalso. apply nth_error_None in Ec.
      assert (ri < List.length (x :: rest))%nat
        by (apply nth_error_Some; rewrite Hri; discriminate).
      lia.
Qed.

Lemma select_optimal_first_minimum_witness :
  List.length two_candidates = List.length [Fin 3; Fin 3] /\
  exists (i : nat) (optimal_params : order) (least : float),
    select_optimal two_candidates [Fin 3; Fin 3] = Ok optimal_params /\
    nth_error two_candidates i = Some optimal_params /\
    nth_error [Fin 3; Fin 3] i = Some least /\
    (forall s, In s [Fin 3; Fin 3] -> fltb s least = false) /\
    (forall j s, (j < i)%nat -> nth_error [Fin 3; Fin 3] j = Some s ->
                 fltb least s = true).
Proof.
  split; [reflexivity |].
  apply (select_optimal_first_minimum two_candidates [Fin 3; Fin 3]).
  - reflexivity.
  - discriminate.
  - repeat constructor.
Defined.

Section SearchFacts.

Variables Params Exog Trend Model : Type.
Variable ARIMA :
  list float -> option Exog -> Params -> option seasonal_order ->
  option Trend -> outcome Model.
Variable fit : Model -> outcome ARIMAResults.

(** The pool calls the worker with one argument, the tuple: the call fails
    before the worker runs. *)
Lemma worker_call_on_tuple (items : list (pyobj Params Exog Trend)) :
  raises (call_optimize_arimax_params ARIMA fit [PyTuple items]).
Proof. eexists. reflexivity. Qed.

(** Collecting a stream whose every delivery raises: the first delivery
    raises, and an empty stream leaves the accumulator. *)
Lemma collect_all_raise (stream : list (outcome (list float)))
      (results : list float) :
  Forall raises stream ->
  (stream = [] /\ collect stream results = Ok results) \/
  raises (collect stream results).
Proof.
  intros H. destruct H as [| r stream [e ->] _].
  - left. split; reflexivity.
  - right. exists e. reflexivity.
Qed.

Lemma imap_unordered_tuples_raise
      (tasks : list (pyobj Params Exog Trend)) (completion : list nat) :
  Forall (fun t => exists items, t = PyTuple items) tasks ->
  Forall raises
         (imap_unordered (call_optimize_arimax_params ARIMA fit)
                         tasks completion).
Proof.
  intros Htasks. unfold imap_unordered.
  induction completion as [| i completion IH]; simpl.
  - constructor.
  - destruct (nth_error tasks i) as [t |] eqn:E; simpl; [| exact IH].
    constructor; [| exact IH].
    apply nth_error_In in E.
    rewrite Forall_forall in Htasks.
    destruct (Htasks t E) as [items ->]. apply (worker_call_on_tuple items).
Qed.

(** As written, the optimizer returns for no input: by one of its guards,
    by the worker's call, or by the minimum of no score. *)
Lemma auto_arimax_optimizer_raises
      (cpu_count : Z) (completion : list nat)
      (y_series : Series) (arimax_test_params : list Params)
      (exog_array : option Exog) (trend_params : option Trend)
      (penalty_criteria : string) (generate_seasonal_params : bool)
      (seasonality_trend : option string) (n_jobs max_cores : Z) :
  raises (auto_arimax_optimizer ARIMA fit cpu_count completion y_series
                                arimax_test_params exog_array trend_params
                                penalty_criteria generate_seasonal_params
                                seasonality_trend n_jobs max_cores).
Proof.
  unfold auto_arimax_optimizer.
  destruct (is_none exog_array && negb (is_none trend_params));
    [eexists; reflexivity |].
  destruct generate_seasonal_params; [eexists; reflexivity |].
  destruct (array_split arimax_test_params _) as [chunks | e];
    [| exists e; reflexivity].
  cbn [bind].
  match goal with
  | |- raises (bind (collect ?stream []) _) =>
      destruct (collect_all_raise stream []) as [[_ Hc] | [e Hc]]
  end.
  - apply imap_unordered_tuples_raise.
    apply Forall_forall. intros t Ht. apply in_map_iff in Ht as [c [<- _]].
    eexists. reflexivity.
  - rewrite Hc. eexists. reflexivity.
  - rewrite Hc. exists e. reflexivity.
Qed.

End SearchFacts.

(** C2, at an input where the code and the specification part: two candidates,
    (0,0,0) scoring 5 and (0,0,1) scoring 3, and two workers.
    (1) As written the optimizer returns no order, whichever worker
    finishes first: the pool passes the worker one tuple where it takes
    five arguments.
    (2) Each worker is given one candidate, and the scores the two would
    deliver are [5] and [3].  Collected in generation order they select
    (0,0,1), the minimum.  Collected with the second worker finishing
    first they select (0,0,0), which scores 5: the position of the least
    score in the stream of results is looked up in the list of candidates,
    and no score is tied to the candidate it came from. *)
Theorem auto_arimax_optimizer_depends_on_completion_order :
  (forall completion,
      raises (auto_arimax_optimizer
                ARIMA_of_order (fit_scored score_of_two) 4 completion
                (pd_Series [Fin 1; Fin 2; Fin 3]) two_candidates
                None None "AIC" false None 2 8)) /\
  array_split two_candidates 2 = Ok [[(0, 0, 0)%Z]; [(0, 0, 1)%Z]] /\
  optimize_arimax_params ARIMA_of_order (fit_scored score_of_two)
                         [(0, 0, 0)%Z] [Fin 1; Fin 2; Fin 3]
                         None None "AIC"
  = Ok [Fin 5.00000] /\
  optimize_arimax_params ARIMA_of_order (fit_scored score_of_two)
                         [(0, 0, 1)%Z] [Fin 1; Fin 2; Fin 3]
                         None None "AIC"
  = Ok [Fin 3.00000] /\
  (results <- collect [Ok [Fin 5.00000]; Ok [Fin 3.00000]] [] ;;
   select_optimal two_candidates results) = Ok (0, 0, 1)%Z /\
  (results <- collect [Ok [Fin 3.00000]; Ok [Fin 5.00000]] [] ;;
   select_optimal two_candidates results) = Ok (0, 0, 0)%Z.
Proof.
  split; [| repeat split; vm_compute; reflexivity].
  intros completion. apply auto_arimax_optimizer_raises.
Qed.

(* ================================================================== *)
(** * Gap filling *)
(* ================================================================== *)








Section InterpolationFacts.

Variable adfuller : Series -> outcome float.
Variable Qsqrt : Q -> Q.
Variable norm_logpdf : float -> float -> float -> float.
Variable minimize :
  (float * float -> float) -> float * float -> outcome (float * float).
Variable log1p : float -> float.
Variable expm1 : float -> float.
Variable lowess :
  list float -> list float -> float -> Z -> list (float * float).


(** The steps a returned result went through. *)
Lemma interpolate_stock_prices_Ok_inv (y : Series)
      (log_transform allow_negative_values : bool) (out : Series) :
  interpolate_stock_prices adfuller Qsqrt norm_logpdf minimize
                           log1p expm1 lowess
                           y log_transform allow_negative_values
  = Ok out ->
  exists no_nan_y stationary_series num_diff mu sigma filled_smooth,
    make_stationary adfuller no_nan_y 2
    = Ok (stationary_series, num_diff) /\
    call_estimate_normal_params Qsqrt norm_logpdf minimize
                                stationary_series
    = Ok (mu, sigma) /\
    smooth_lowess log1p expm1 lowess
                  (pd_Series (fill_and_restore expm1 (zeros_to_nan y)
                                               stationary_series mu num_diff
                                               log_transform)) 4 3
    = Ok filled_smooth /\
    out = Series_fillna (zeros_to_nan y) filled_smooth.
Proof.
  unfold interpolate_stock_prices. intros H.
  bind_inv H no_nan_y Hclean.
  bind_inv H made Hmade. destruct made as [s k].
  bind_inv H estimated Hest. destruct estimated as [mu sigma].
  bind_inv H fs Hsmooth.
  injection H as <-.
  exists no_nan_y, s, k, mu, sigma, fs. repeat split; assumption.
Qed.







End InterpolationFacts.



(* ================================================================== *)
(** * Stationarity transform: the order is the least one accepted *)
(* ================================================================== *)

Section LeastOrderFacts.

Variable adfuller : Series -> outcome float.

(** The verdicts behind a run of the loop: it ran [n] passes, the test
    rejected after each pass but the last, and the flag it returns is the
    verdict on the series it returns. *)
Lemma loop_verdicts (todo : nat) (max_diff : Z) :
  forall (s : Series) (i : Z) (st : bool) (s' : Series) (k : Z) (st' : bool),
    todo = Z.to_nat (max_diff - i) ->
    make_stationary_loop adfuller todo max_diff s i st = Ok (s', k, st') ->
    exists n : nat,
      k = (i + Z.of_nat n)%Z /\ s' = iter_diff n s /\
      (n = 0%nat -> st' = st) /\
      (n <> 0%nat -> st = false /\
                     adf_test adfuller s' (Fin 0.05) = Ok st') /\
      (forall j, (1 <= j < n)%nat ->
                 adf_test adfuller (iter_diff j s) (Fin 0.05) = Ok false) /\
      (st' = false -> (max_diff <= k)%Z).
Proof.
  induction todo as [| todo IH]; intros s i st s' k st' Hm H.
  - simpl in H.
    destruct (negb st && (i <? max_diff)%Z) eqn:G.
    + apply andb_prop in G as [_ G]. apply Z.ltb_lt in G. lia.
    + injection H as <- <- <-. exists 0%nat. simpl.
      split; [lia |]. split; [reflexivity |]. split; [reflexivity |].
      split; [intros C; contradiction |]. split; [intros j Hj; lia |].
      intros ->. simpl in G. apply Z.ltb_ge in G. lia.
  - simpl in H.
    destruct (negb st && (i <? max_diff)%Z) eqn:G.
    + apply andb_prop in G as [Gs G]. apply Z.ltb_lt in G.
      apply bind_Ok_inv in H as [st1 [Htest H]].
      apply IH in H; [| lia].
      destruct H as [n [Hk [Hs [Hzero [Hpos [Hrej Hstop]]]]]].
      exists (S n). rewrite <- iter_diff_shift.
      split; [lia |]. split; [exact Hs |].
      split; [intros C; discriminate C |].
      split.
      * intros _. split; [now destruct st |].
        destruct n as [| n'].
        -- pose proof (Hzero eq_refl) as E. subst st' s'. simpl. exact Htest.
        -- apply Hpos. discriminate.
      * split; [| exact Hstop].
        intros j Hj. destruct j as [| j']; [lia |].
        rewrite <- iter_diff_shift.
        destruct j' as [| j''].
        -- simpl. destruct n as [| n']; [lia |].
           destruct (Hpos ltac:(discriminate)) as [E _].
           rewrite E in Htest. exact Htest.
        -- apply Hrej. lia.
    + injection H as <- <- <-. exists 0%nat. simpl.
      split; [lia |]. split; [reflexivity |]. split; [reflexivity |].
      split; [intros C; contradiction |]. split; [intros j Hj; lia |].
      intros ->. simpl in G. apply Z.ltb_ge in G. lia.
Qed.

(** X2.  The order [make_stationary] returns is the least one the unit-root
    test accepts: when it returns [(s, k)] with [k > 0], the test accepted
    [s], the input differenced [k] times, and rejected the input and each
    of its first [k - 1] differenced series; when it returns order 0, either
    the test accepted the input itself or it rejected the input and every
    differenced series up to [max_diff] passes (the fallback to the
    undifferenced input). *)
Theorem make_stationary_least_order (y s : Series) (max_diff k : Z) :
  make_stationary adfuller y max_diff = Ok (s, k) ->
  ((0 < k)%Z ->
   adf_test adfuller (iter_diff (Z.to_nat k) y) (Fin 0.05) = Ok true /\
   forall j, (j < Z.to_nat k)%nat ->
             adf_test adfuller (iter_diff j y) (Fin 0.05) = Ok false) /\
  (k = 0%Z ->
   adf_test adfuller y (Fin 0.05) = Ok true \/
   forall j, (j <= Z.to_nat max_diff)%nat ->
             adf_test adfuller (iter_diff j y) (Fin 0.05) = Ok false).
Proof.
  intros H. unfold make_stationary in H.
  bind_inv H st0 Htest.
  bind_inv H st Hloop. destruct st as [[s1 k1] st1].
  apply loop_verdicts in Hloop; [| f_equal; lia].
  destruct Hloop as [n [Hk [Hs [Hzero [Hpos [Hrej Hstop]]]]]].
  rewrite Z.add_0_l in Hk.
  destruct st1; simpl in H; injection H as <- <-.
  - subst k1. rewrite Nat2Z.id. split.
    + intros Hk. assert (Hn : n <> 0%nat) by lia.
      destruct (Hpos Hn) as [E Hlast]. subst st0 s1.
      split; [exact Hlast |].
      intros j Hj. destruct j as [| j']; [exact Htest |].
      apply Hrej. lia.
    + intros Hz. assert (n = 0%nat) by lia. subst n.
      left. pose proof (Hzero eq_refl) as E. subst st0. exact Htest.
  - split; [lia |]. intros _. right.
    specialize (Hstop eq_refl).
    intros j Hj.
    assert (Hjn : (j <= n)%nat) by lia.
    destruct n as [| n'].
    + assert (j = 0%nat) by lia. subst j. simpl.
      pose proof (Hzero eq_refl) as E. subst st0. exact Htest.
    + destruct (Hpos ltac:(discriminate)) as [E Hlast]. subst st0.
      destruct j as [| j']; [exact Htest |].
      destruct (Nat.eq_dec (S j') (S n')) as [-> | Hne].
      * subst s1. exact Hlast.
      * apply Hrej. lia.
Qed.

End LeastOrderFacts.

Lemma make_stationary_least_order_witness :
  make_stationary adfuller_short five_prices 2
  = Ok (iter_diff 2 five_prices, 2%Z) /\
  adf_test adfuller_short (iter_diff 1 five_prices) (Fin 0.05) = Ok false.
Proof.
  split; [reflexivity |].
  apply (make_stationary_least_order
           adfuller_short five_prices (iter_diff 2 five_prices) 2 2).
  - reflexivity.
  - lia.
  - simpl. lia.
Defined.

(* ================================================================== *)
(** * transform_target *)
(* ================================================================== *)

Lemma iter_dropna_diff (n : nat) (y : Series) :
  Nat.iter n (fun s => dropna (diff s)) y = iter_diff n y.
Proof.
  induction n as [| n IH]; simpl.
  - reflexivity.
  - rewrite IH. reflexivity.
Qed.

Lemma values_diff_from (rest : Series) :
  forall v, values (diff_from v rest)
            = zip_with fsub (values rest) (v :: values rest).
Proof.
  induction rest as [| [l w] rest IH]; intros v; simpl.
  - reflexivity.
  - rewrite IH. reflexivity.
Qed.

(** One pass over finite values: the successive differences. *)
Lemma values_dropna_diff (y : Series) :
  all_finite y = true ->
  values (dropna (diff y)) = zip_with fsub (tl (values y)) (values y).
Proof.
  intros Hall. destruct (dropna_diff_finite y Hall) as [_ E]. rewrite E.
  destruct y as [| [l v] rest]; simpl.
  - reflexivity.
  - apply values_diff_from.
Qed.

Lemma length_zip_with (op : float -> float -> float) (a b : list float) :
  List.length (zip_with op a b) = Nat.min (List.length a) (List.length b).
Proof.
  revert b. induction a as [| x a IH]; intros [| y b]; simpl;
    try reflexivity.
  rewrite IH. reflexivity.
Qed.

Lemma length_iter_diff (n : nat) (y : Series) :
  all_finite y = true ->
  List.length (iter_diff n y) = (List.length y - n)%nat.
Proof.
  intros Hall. induction n as [| n IH]; simpl.
  - lia.
  - pose proof (values_dropna_diff (iter_diff n y)
                  (iter_diff_finite n y Hall)) as E.
    apply (f_equal (@List.length float)) in E.
    rewrite length_zip_with in E. unfold values in E.
    rewrite !length_map in E.
    assert (T : List.length (tl (map snd (iter_diff n y)))
                = (List.length (iter_diff n y) - 1)%nat).
    { destruct (iter_diff n y); simpl; [reflexivity |].
      rewrite length_map. lia. }
    rewrite T in E. lia.
Qed.

(** Bounded values are finite, and a pass of differencing at most doubles
    the bound. *)
Lemma bounded_by_weaken (bound bound' : Q) (y : Series) :
  (bound <= bound')%Q -> bounded_by bound y = true ->
  bounded_by bound' y = true.
Proof.
  unfold bounded_by. intros Hle H.
  rewrite forallb_forall in *. intros v Hv. specialize (H v Hv).
  destruct v as [| | q |]; try discriminate H.
  apply Qle_bool_iff. apply Qle_bool_iff in H.
  apply (Qle_trans _ _ _ H Hle).
Qed.

Lemma bounded_by_all_finite (bound : Q) (y : Series) :
  bounded_by bound y = true -> all_finite y = true.
Proof.
  unfold bounded_by, all_finite. intros H.
  rewrite forallb_forall in *. intros v Hv. specialize (H v Hv).
  destruct v; try discriminate H. reflexivity.
Qed.

Lemma bounded_by_values (bound : Q) (y : Series) :
  bounded_by bound y = true ->
  Forall (fun v => exists q, v = Fin q /\ (Qabs q <= bound)%Q) (values y).
Proof.
  unfold bounded_by. intros H. apply Forall_forall. intros v Hv.
  rewrite forallb_forall in H. specialize (H v Hv).
  destruct v as [| | q |]; try discriminate H.
  exists q. split; [reflexivity | apply Qle_bool_iff, H].
Qed.

Lemma diff_from_bounded (bound : Q) (rest : Series) :
  forall q, (Qabs q <= bound)%Q -> bounded_by bound rest = true ->
            bounded_by (2 * bound) (diff_from (Fin q) rest) = true.
Proof.
  induction rest as [| [l w] rest IH]; intros q Hq H.
  - reflexivity.
  - unfold bounded_by in H. cbn [values map snd forallb] in H.
    apply andb_prop in H as [Hw Hrest].
    destruct w as [| | r |]; try discriminate Hw.
    apply Qle_bool_iff in Hw.
    unfold bounded_by. cbn [diff_from values map snd forallb fsub].
    apply andb_true_intro. split.
    + apply Qle_bool_iff. apply Qabs_Qle_condition.
      apply Qabs_Qle_condition in Hq. apply Qabs_Qle_condition in Hw.
      lra.
    + apply (IH r Hw Hrest).
Qed.

Lemma dropna_diff_bounded (bound : Q) (y : Series) :
  bounded_by bound y = true ->
  bounded_by (2 * bound) (dropna (diff y)) = true.
Proof.
  intros H.
  destruct (dropna_diff_finite y (bounded_by_all_finite bound y H))
    as [_ E].
  rewrite E. destruct y as [| [l v] rest]; [reflexivity |].
  unfold bounded_by in H. cbn [values map snd forallb] in H.
  apply andb_prop in H as [Hv Hrest].
  destruct v as [| | q |]; try discriminate Hv.
  apply Qle_bool_iff in Hv. apply (diff_from_bounded bound rest q Hv Hrest).
Qed.

Lemma iter_diff_bounded (bound : Q) (n : nat) (y : Series) :
  bounded_by bound y = true ->
  bounded_by (inject_Z (2 ^ Z.of_nat n) * bound) (iter_diff n y) = true.
Proof.
  intros H. induction n as [| n IH].
  - simpl iter_diff. apply (bounded_by_weaken bound); [| exact H].
    change (inject_Z (2 ^ Z.of_nat 0)) with 1%Q. lra.
  - simpl iter_diff.
    apply (bounded_by_weaken (2 * (inject_Z (2 ^ Z.of_nat n) * bound)));
      [| apply dropna_diff_bounded, IH].
    rewrite Nat2Z.inj_succ, Z.pow_succ_r by lia.
    rewrite inject_Z_mult. change (inject_Z 2) with 2%Q. lra.
Qed.

(** X3.  On a series of finite values whose magnitudes are at most [bound],
    with [2^difference * bound] within the range of a double (so that no
    difference overflows), and without the log transform,
    [transform_target] with [difference = d] returns [len(y) - d] values
    (none once [d] reaches the length), all of them finite and within the
    range of a double; for [d >= 1] they are the successive differences
    [a[i+1] - a[i]] of the array [a] returned for [d - 1]; with
    [difference <= 0] the values are returned unchanged. *)
Theorem transform_target_differences
        (log1p : float -> float) (y : Series) (difference : Z) (bound : Q) :
  bounded_by bound y = true ->
  (inject_Z (2 ^ Z.max 0 difference) * bound <= max_float)%Q ->
  List.length (transform_target log1p y false difference)
  = (List.length y - Z.to_nat difference)%nat /\
  Forall (fun v => exists q, v = Fin q /\ (Qabs q <= max_float)%Q)
         (transform_target log1p y false difference) /\
  ((1 <= difference)%Z ->
   transform_target log1p y false difference
   = zip_with fsub (tl (transform_target log1p y false (difference - 1)))
                   (transform_target log1p y false (difference - 1))) /\
  ((difference <= 0)%Z ->
   transform_target log1p y false difference = values y).
Proof.
  intros Hbound Hrange.
  pose proof (bounded_by_all_finite bound y Hbound) as Hall.
  unfold transform_target. rewrite !iter_dropna_diff.
  split; [| split; [| split]].
  - unfold values. rewrite length_map. apply length_iter_diff, Hall.
  - pose proof (bounded_by_values
                  _ _ (iter_diff_bounded bound (Z.to_nat difference) y
                                         Hbound)) as Hvalues.
    replace (Z.of_nat (Z.to_nat difference)) with (Z.max 0 difference)
      in Hvalues by lia.
    eapply Forall_impl; [| exact Hvalues].
    intros v [q [-> Hq]]. exists q. split; [reflexivity |].
    apply (Qle_trans _ _ _ Hq Hrange).
  - intros Hd.
    replace (Z.to_nat difference) with (S (Z.to_nat (difference - 1)))
      by lia.
    simpl. apply values_dropna_diff, iter_diff_finite, Hall.
  - intros Hd. replace (Z.to_nat difference) with 0%nat by lia.
    reflexivity.
Qed.

Lemma transform_target_differences_witness :
  bounded_by 16 five_prices = true /\
  List.length (transform_target transform_id five_prices false 2) = 3%nat /\
  Forall (fun v => exists q, v = Fin q /\ (Qabs q <= max_float)%Q)
         (transform_target transform_id five_prices false 2).
Proof.
  split; [reflexivity |].
  destruct (transform_target_differences transform_id five_prices 2 16)
    as [Hlen [Hfinite _]].
  - reflexivity.
  - unfold Qle. vm_compute. discriminate.
  - split; [exact Hlen | exact Hfinite].
Defined.

(** X4.  [transform_target] redoes what [make_stationary] found: when
    [make_stationary] returns the series [s] with the order [k], the values
    of [s] are [transform_target(y, difference=k)], whatever the unit-root
    test computes. *)
Theorem transform_target_of_make_stationary
        (log1p : float -> float) (adfuller : Series -> outcome float)
        (y s : Series) (max_diff k : Z) :
  make_stationary adfuller y max_diff = Ok (s, k) ->
  values s = transform_target log1p y false k.
Proof.
  intros H. unfold transform_target. rewrite iter_dropna_diff.
  unfold make_stationary in H.
  bind_inv H st0 Htest.
  bind_inv H st Hloop. destruct st as [[s1 k1] st1].
  apply loop_returns in Hloop; [| f_equal; lia].
  destruct Hloop as [n [_ [Hk [Hs _]]]].
  destruct st1; simpl in H; injection H as <- <-.
  - subst k1 s1. rewrite Z.add_0_l, Nat2Z.id. reflexivity.
  - reflexivity.
Qed.

Lemma transform_target_of_make_stationary_witness :
  values (iter_diff 2 five_prices)
  = transform_target transform_id five_prices false 2.
Proof.
  apply (transform_target_of_make_stationary
           transform_id adfuller_short five_prices
           (iter_diff 2 five_prices) 2 2).
  reflexivity.
Defined.

(* ================================================================== *)
(** * transform_predictors and determine_optimal_degree *)
(* ================================================================== *)

Lemma frame_diff_from_to_frame (rest : Series) :
  forall v, frame_diff_from [v] (to_frame rest) = to_frame (diff_from v rest).
Proof.
  induction rest as [| [l w] rest IH]; intros v; simpl.
  - reflexivity.
  - rewrite IH. reflexivity.
Qed.

Lemma frame_dropna_to_frame (y : Series) :
  frame_dropna (to_frame y) = to_frame (dropna y).
Proof.
  induction y as [| [l v] y IH]; simpl.
  - reflexivity.
  - unfold frame_dropna, dropna in *. simpl.
    rewrite orb_false_r.
    destruct (isna v); simpl; rewrite IH; reflexivity.
Qed.

Lemma frame_pass_to_frame (y : Series) :
  frame_dropna (frame_diff (to_frame y)) = to_frame (dropna (diff y)).
Proof.
  rewrite <- frame_dropna_to_frame. f_equal.
  destruct y as [| [l v] rest]; simpl.
  - reflexivity.
  - rewrite frame_diff_from_to_frame. reflexivity.
Qed.

Lemma frame_iter_to_frame (n : nat) (y : Series) :
  Nat.iter n (fun X => frame_dropna (frame_diff X)) (to_frame y)
  = to_frame (Nat.iter n (fun s => dropna (diff s)) y).
Proof.
  induction n as [| n IH]; simpl.
  - reflexivity.
  - rewrite IH. apply frame_pass_to_frame.
Qed.

Lemma frame_dropna_no_nan (X : DataFrame) :
  Forall (fun cells => existsb isna cells = false)
         (frame_values (frame_dropna X)).
Proof.
  unfold frame_values, frame_dropna. apply Forall_forall.
  intros cells Hin. apply in_map_iff in Hin as [[l r] [<- Hin]].
  apply filter_In in Hin as [_ Hkeep]. simpl in *.
  now apply negb_true_iff in Hkeep.
Qed.

(** X5.  [transform_predictors] on a frame of one column agrees with
    [transform_target] on that column: the same values, one per row, for
    every log-transform flag and number of differencing passes; and after
    at least one pass no row of any frame holds a NaN (a row with a missing
    value in one predictor is dropped as a whole). *)
Theorem transform_predictors_single_column
        (log1p : float -> float) (log_transform : bool) (difference : Z) :
  (forall y : Series,
      transform_predictors log1p (to_frame y) log_transform difference
      = map (fun v => [v]) (transform_target log1p y log_transform difference))
  /\
  (forall X_df : DataFrame,
      (0 < difference)%Z ->
      Forall (fun cells => existsb isna cells = false)
             (transform_predictors log1p X_df log_transform difference)).
Proof.
  split.
  - intros y. unfold transform_predictors, transform_target.
    assert (E : (if log_transform then frame_map log1p (to_frame y)
                 else to_frame y)
                = to_frame (if log_transform then Series_map log1p y else y)).
    { destruct log_transform; [| reflexivity].
      unfold frame_map, to_frame, Series_map. rewrite !map_map.
      reflexivity. }
    rewrite E, frame_iter_to_frame.
    unfold frame_values, to_frame, values. rewrite !map_map. reflexivity.
  - intros X_df Hd. unfold transform_predictors.
    destruct (Z.to_nat difference) as [| n] eqn:En; [lia |].
    simpl. apply frame_dropna_no_nan.
Qed.

Lemma transform_predictors_single_column_witness :
  Forall (fun cells => existsb isna cells = false)
         (transform_predictors transform_id
            [(0%Z, [Fin 1; NaN]); (1%Z, [Fin 2; Fin 5]); (2%Z, [Fin 4; Fin 6])]
            false 1).
Proof.
  apply (transform_predictors_single_column transform_id false 1).
  lia.
Defined.

Lemma fltb_trans (x y z : float) :
  fltb x y = true -> fltb y z = true -> fltb x z = true.
Proof. destruct x, y, z; intros H1 H2; float_order. Qed.

(** A score that does not exceed [x] does not exceed a greater [y]
    either, and differs from it. *)
Lemma fltb_not_above (x y z : float) :
  fltb x y = true -> fltb x z = false -> fltb y z = false.
Proof. destruct x, y, z; intros H1 H2; float_order. Qed.

Lemma fltb_not_above_neq (x y z : float) :
  fltb x y = true -> fltb x z = false -> feqb z y = false.
Proof. destruct x, y, z; intros H1 H2; float_order. Qed.

Lemma fltb_lt_neq_sym (x y : float) : fltb x y = true -> feqb x y = false.
Proof. destruct x, y; intros H; float_order. Qed.

Lemma nth_error_range_from (a b : Z) (j : nat) (d : Z) :
  nth_error (range_from a b) j = Some d -> d = (a + Z.of_nat j)%Z.
Proof.
  unfold range_from, range. rewrite map_map, nth_error_map, nth_error_seq.
  destruct (j <? Z.to_nat (b - a))%nat; simpl; intros H.
  - injection H as <-. reflexivity.
  - discriminate H.
Qed.

Lemma in_range_from (a b d : Z) :
  In d (range_from a b) <-> (a <= d < b)%Z.
Proof.
  unfold range_from. rewrite in_map_iff. split.
  - intros [k [<- Hk]]. apply in_range in Hk. lia.
  - intros Hd. exists (d - a)%Z. split; [lia |]. apply in_range. lia.
Qed.

Section DegreeFacts.

Variable log1p : float -> float.
Variable cross_val_mean_score :
  Z -> list (list float) -> list float -> Z -> outcome float.

(** The state the loop ends in: the best score is not exceeded by the
    score of any degree tried, and the degree returned is either the one
    the loop started with or the first one tried that reaches the best
    score. *)
Lemma degree_loop_best (X : list (list float)) (y : list float) (cv : Z)
      (degrees : list Z) :
  forall (best_degree : Z) (best_score : float) (r : Z),
    degree_loop cross_val_mean_score degrees X y cv best_degree best_score
    = Ok r ->
    exists best : float,
      (forall d, In d degrees ->
                 exists s, cross_val_mean_score d X y cv = Ok s /\
                           fltb best s = false) /\
      ((r = best_degree /\ best = best_score) \/
       (exists i : nat,
           nth_error degrees i = Some r /\
           cross_val_mean_score r X y cv = Ok best /\
           fltb best_score best = true /\
           forall j d, (j < i)%nat -> nth_error degrees j = Some d ->
                       exists s, cross_val_mean_score d X y cv = Ok s /\
                                 feqb s best = false)).
Proof.
  induction degrees as [| d0 rest IH]; intros bd bs r H.
  - simpl in H. injection H as <-. exists bs. split.
    + intros d [].
    + left. split; reflexivity.
  - simpl in H. bind_inv H s0 Hs0.
    destruct (fltb bs s0) eqn:Hlt.
    + apply IH in H as [best [Hall Hcase]]. exists best.
      destruct Hcase as [[-> ->] | [i [Hi [Hr [Hbest Hearlier]]]]].
      * split.
        -- intros d [<- | Hd]; [| apply Hall, Hd].
           exists s0. split; [exact Hs0 | apply fltb_irrefl].
        -- right. exists 0%nat. simpl.
           split; [reflexivity |]. split; [exact Hs0 |].
           split; [exact Hlt |]. intros j d Hj. lia.
      * split.
        -- intros d [<- | Hd]; [| apply Hall, Hd].
           exists s0. split; [exact Hs0 | apply fltb_asym, Hbest].
        -- right. exists (S i). simpl.
           split; [exact Hi |]. split; [exact Hr |].
           split; [apply (fltb_trans bs s0 best Hlt Hbest) |].
           intros j d Hj Hd. destruct j as [| j'].
           ++ simpl in Hd. injection Hd as <-.
              exists s0. split; [exact Hs0 | apply fltb_lt_neq_sym, Hbest].
           ++ simpl in Hd. apply (Hearlier j' d); [lia | exact Hd].
    + apply IH in H as [best [Hall Hcase]]. exists best.
      destruct Hcase as [[-> ->] | [i [Hi [Hr [Hbest Hearlier]]]]].
      * split.
        -- intros d [<- | Hd]; [| apply Hall, Hd].
           exists s0. split; [exact Hs0 | exact Hlt].
        -- left. split; reflexivity.
      * split.
        -- intros d [<- | Hd]; [| apply Hall, Hd].
           exists s0. split; [exact Hs0 |].
           apply (fltb_not_above bs best s0 Hbest Hlt).
        -- right. exists (S i). simpl.
           split; [exact Hi |]. split; [exact Hr |].
           split; [exact Hbest |].
           intros j d Hj Hd. destruct j as [| j'].
           ++ simpl in Hd. injection Hd as <-.
              exists s0. split; [exact Hs0 |].
              apply (fltb_not_above_neq bs best s0 Hbest Hlt).
           ++ simpl in Hd. apply (Hearlier j' d); [lia | exact Hd].
Qed.

Lemma degree_loop_total (X : list (list float)) (y : list float) (cv : Z)
      (degrees : list Z) :
  forall (best_degree : Z) (best_score : float),
    (forall d, In d degrees -> returns (cross_val_mean_score d X y cv)) ->
    returns (degree_loop cross_val_mean_score degrees X y cv
                         best_degree best_score).
Proof.
  induction degrees as [| d0 rest IH]; intros bd bs Hret.
  - eexists; reflexivity.
  - simpl. destruct (Hret d0 (or_introl eq_refl)) as [s0 Hs0].
    rewrite Hs0. cbn [bind].
    destruct (fltb bs s0); apply IH; intros d Hd; apply Hret; right;
      exact Hd.
Qed.

(** X6.  [determine_optimal_degree] returns the smallest degree with the
    best cross-validated mean score.  A result [r] is 0 exactly when no
    degree in [1, max_degree] scores above minus infinity (none is tried
    when [max_degree < 1]; a NaN score never counts); otherwise [r] lies in
    [1, max_degree], no degree's score exceeds the score of [r], and the
    score of every smaller degree differs from it (it is lower, or NaN).
    The function returns whenever the scoring of every degree does; the
    scores are those of the predictors as [transform_predictors] returns
    them. *)
Theorem determine_optimal_degree_first_best
        (X_df : DataFrame) (y_array : list float) (max_degree cv : Z)
        (log_transform : bool) (difference : Z) :
  let X := transform_predictors log1p X_df log_transform difference in
  let score := fun d => cross_val_mean_score d X y_array cv in
  (forall r,
      determine_optimal_degree log1p cross_val_mean_score X_df y_array
                               max_degree cv log_transform difference
      = Ok r ->
      (r = 0%Z /\
       forall d, (1 <= d <= max_degree)%Z ->
                 exists s, score d = Ok s /\ fltb NInf s = false) \/
      ((1 <= r <= max_degree)%Z /\
       exists best,
         score r = Ok best /\ fltb NInf best = true /\
         forall d, (1 <= d <= max_degree)%Z ->
                   exists s, score d = Ok s /\ fltb best s = false /\
                             ((d < r)%Z -> feqb s best = false))) /\
  ((forall d, (1 <= d <= max_degree)%Z -> returns (score d)) ->
   returns (determine_optimal_degree log1p cross_val_mean_score X_df y_array
                                     max_degree cv log_transform
                                     difference)).
Proof.
  intros X score. split.
  - intros r H. unfold determine_optimal_degree in H. fold X in H.
    apply degree_loop_best in H as [best [Hall Hcase]].
    destruct Hcase as [[-> ->] | [i [Hi [Hr [Hbest Hearlier]]]]].
    + left. split; [reflexivity |].
      intros d Hd. apply Hall. apply in_range_from. lia.
    + right.
      assert (Hin : In r (range_from 1 (max_degree + 1)))
        by (apply (nth_error_In _ _ Hi)).
      apply in_range_from in Hin.
      split; [lia |].
      exists best. split; [exact Hr |]. split; [exact Hbest |].
      intros d Hd.
      destruct (Hall d) as [s [Hs Hle]]; [apply in_range_from; lia |].
      exists s. split; [exact Hs |]. split; [exact Hle |].
      intros Hlt.
      pose proof (nth_error_range_from _ _ _ _ Hi) as Er.
      destruct (nth_error (range_from 1 (max_degree + 1))
                          (Z.to_nat (d - 1))) as [d' |] eqn:Ed.
      * pose proof (nth_error_range_from _ _ _ _ Ed) as Ed'.
        assert (d' = d) by lia. clear Ed'. subst d'.
        destruct (Hearlier (Z.to_nat (d - 1)) d) as [s' [Hs' Hneq]];
          [lia | exact Ed |].
        unfold score in Hs. rewrite Hs in Hs'. injection Hs' as <-.
        exact Hneq.
      * exfalso. apply nth_error_None in Ed.
        assert (i < List.length (range_from 1 (max_degree + 1)))%nat
          by (apply nth_error_Some; rewrite Hi; discriminate).
        lia.
  - intros Hret. unfold determine_optimal_degree. fold X.
    apply degree_loop_total. intros d Hd. apply Hret.
    apply in_range_from in Hd. lia.
Qed.

End DegreeFacts.

Lemma determine_optimal_degree_first_best_witness :
  determine_optimal_degree transform_id sample_cv_score
                           (to_frame five_prices) (values five_prices)
                           5 5 false 0 = Ok 2%Z /\
  returns (determine_optimal_degree transform_id sample_cv_score
                                    (to_frame five_prices)
                                    (values five_prices) 5 5 false 0).
Proof.
  split; [reflexivity |].
  apply (determine_optimal_degree_first_best
           transform_id sample_cv_score (to_frame five_prices)
           (values five_prices) 5 5 false 0).
  intros d _. eexists. reflexivity.
Defined.

(* ================================================================== *)
(** * The confidence and prediction regions around the smoothed values *)
(* ================================================================== *)

Lemma np_binop_mismatch (op : float -> float -> float) (a b : list float) :
  List.length a <> List.length b ->
  List.length a <> 1%nat -> List.length b <> 1%nat ->
  np_binop op a b = Raise (ValueError "operands could not be broadcast together").
Proof.
  intros Hne Ha Hb. unfold np_binop.
  apply Nat.eqb_neq in Hne. rewrite Hne.
  destruct a as [| x [| x' a]]; destruct b as [| y [| y' b]];
    simpl in *; try reflexivity; try contradiction.
Qed.

Section RegionFacts.

Variable Qsqrt : Q -> Q.
Variable norm_ppf : float -> float.

(** Both regions on two non-empty series of equal length. *)
Lemma regions_on_equal_lengths (y_series y_smooth : Series) (alpha : float) :
  List.length y_series = List.length y_smooth -> y_series <> [] ->
  let margin :=
    fmul (norm_ppf (fsub (Fin 1) (fdiv alpha (Fin 2))))
         (np_std Qsqrt (zip_with fsub (values y_series) (values y_smooth))) in
  calculate_confidence_region Qsqrt norm_ppf y_series y_smooth alpha
  = Ok (band (values y_smooth) margin) /\
  calculate_prediction_region Qsqrt norm_ppf y_series y_smooth alpha
  = Return (band (values y_smooth)
                 (fmul margin
                       (fsqrt Qsqrt
                              (Fin (1 + 1 / inject_Z (len y_series)))))).
Proof.
  intros Hlen Hne margin.
  assert (Hres : np_binop fsub (values y_series) (values y_smooth)
                 = Ok (zip_with fsub (values y_series) (values y_smooth))).
  { apply np_binop_same_length. unfold values. rewrite !length_map.
    exact Hlen. }
  assert (Hn : len (zip_with fsub (values y_series) (values y_smooth))
               = len y_series).
  { unfold len. rewrite length_zip_with. unfold values.
    rewrite !length_map. lia. }
  split.
  - unfold calculate_confidence_region. rewrite Hres. reflexivity.
  - unfold calculate_prediction_region. rewrite Hres.
    cbn [of_outcome py_bind]. rewrite Hn. unfold int_truediv.
    destruct (Z.eqb_spec (len y_series) 0) as [E | _].
    + exfalso. destruct y_series; [contradiction | discriminate E].
    + reflexivity.
Qed.

(** X7.  [calculate_confidence_region] on two series of equal length
    returns the band [smoothed -/+ margin] with the one margin
    [norm.ppf(1 - alpha/2) * std(y - smoothed)], the differences taken by
    position; both bounds carry the default index 0..n-1 and have the
    length of [y_smooth] whenever the function returns; two series of
    different lengths, neither of length 1, raise ValueError. *)
Theorem calculate_confidence_region_band
        (y_series y_smooth : Series) (alpha : float) :
  (List.length y_series = List.length y_smooth ->
   calculate_confidence_region Qsqrt norm_ppf y_series y_smooth alpha
   = Ok (band (values y_smooth)
              (fmul (norm_ppf (fsub (Fin 1) (fdiv alpha (Fin 2))))
                    (np_std Qsqrt (zip_with fsub (values y_series)
                                            (values y_smooth)))))) /\
  (forall lower upper,
      calculate_confidence_region Qsqrt norm_ppf y_series y_smooth alpha
      = Ok (lower, upper) ->
      index lower = range (len y_smooth) /\
      index upper = range (len y_smooth) /\
      exists margin,
        values lower = map (fun s => fsub s margin) (values y_smooth) /\
        values upper = map (fun s => fadd s margin) (values y_smooth)) /\
  (List.length y_series <> List.length y_smooth ->
   List.length y_series <> 1%nat -> List.length y_smooth <> 1%nat ->
   exists msg,
     calculate_confidence_region Qsqrt norm_ppf y_series y_smooth alpha
     = Raise (ValueError msg)).
Proof.
  split; [| split].
  - intros Hlen. unfold calculate_confidence_region.
    rewrite np_binop_same_length
      by (unfold values; rewrite !length_map; exact Hlen).
    reflexivity.
  - intros lower upper H. unfold calculate_confidence_region in H.
    bind_inv H residuals Hres. injection H as <- <-.
    rewrite !index_pd_Series, !values_pd_Series.
    unfold len, values. rewrite !length_map.
    split; [reflexivity |]. split; [reflexivity |].
    eexists. split; reflexivity.
  - intros Hne Hy Hs. eexists. unfold calculate_confidence_region.
    rewrite np_binop_mismatch
      by (unfold values; rewrite !length_map; assumption).
    reflexivity.
Qed.

(** X8.  [calculate_prediction_region] is the confidence region widened by
    the factor [sqrt(1 + 1/n)], [n] the number of residuals: on two
    non-empty series of equal length both functions return a band around
    the smoothed values, the margin of the prediction region being the
    margin of the confidence region times that factor.  On two empty
    series the confidence region is a pair of empty series and the
    prediction region raises ZeroDivisionError ([1 / len(residuals)]).  An
    exception of the confidence region is raised by the prediction region
    as well. *)
Theorem calculate_prediction_region_widens
        (y_series y_smooth : Series) (alpha : float) :
  (List.length y_series = List.length y_smooth -> y_series <> [] ->
   exists margin,
     calculate_confidence_region Qsqrt norm_ppf y_series y_smooth alpha
     = Ok (band (values y_smooth) margin) /\
     calculate_prediction_region Qsqrt norm_ppf y_series y_smooth alpha
     = Return (band (values y_smooth)
                    (fmul margin
                          (fsqrt Qsqrt
                                 (Fin (1 + 1 / inject_Z (len y_series))))))) /\
  (y_series = [] -> y_smooth = [] ->
   calculate_confidence_region Qsqrt norm_ppf y_series y_smooth alpha
   = Ok (pd_Series [], pd_Series []) /\
   exists msg,
     calculate_prediction_region Qsqrt norm_ppf y_series y_smooth alpha
     = Throw (ZeroDivisionError msg)) /\
  (forall e,
      calculate_confidence_region Qsqrt norm_ppf y_series y_smooth alpha
      = Raise e ->
      calculate_prediction_region Qsqrt norm_ppf y_series y_smooth alpha
      = Throw (Builtin e)).
Proof.
  split; [| split].
  - intros Hlen Hne. eexists.
    apply (regions_on_equal_lengths y_series y_smooth alpha Hlen Hne).
  - intros -> ->. split; [reflexivity |]. eexists. reflexivity.
  - intros e H. unfold calculate_confidence_region in H.
    unfold calculate_prediction_region.
    destruct (np_binop fsub (values y_series) (values y_smooth))
      as [residuals | e']; simpl in H.
    + discriminate H.
    + injection H as <-. reflexivity.
Qed.

End RegionFacts.

Lemma calculate_confidence_region_band_witness :
  List.length five_prices
  = List.length (pd_Series [Fin 2; Fin 2; Fin 5; Fin 7; Fin 15]) /\
  calculate_confidence_region
    Qsqrt_id transform_id five_prices
    (pd_Series [Fin 2; Fin 2; Fin 5; Fin 7; Fin 15]) (Fin 0.05)
  = Ok (band [Fin 2; Fin 2; Fin 5; Fin 7; Fin 15]
             (fmul (fsub (Fin 1) (fdiv (Fin 0.05) (Fin 2)))
                   (np_std Qsqrt_id
                           [fsub (Fin 1) (Fin 2); fsub (Fin 2) (Fin 2);
                            fsub (Fin 4) (Fin 5); fsub (Fin 8) (Fin 7);
                            fsub (Fin 16) (Fin 15)]))).
Proof.
  split; [reflexivity |].
  exact (proj1 (calculate_confidence_region_band
                  Qsqrt_id transform_id five_prices
                  (pd_Series [Fin 2; Fin 2; Fin 5; Fin 7; Fin 15])
                  (Fin 0.05)) eq_refl).
Defined.

Lemma calculate_prediction_region_widens_witness :
  exists margin,
    calculate_confidence_region
      Qsqrt_id transform_id five_prices
      (pd_Series [Fin 2; Fin 2; Fin 5; Fin 7; Fin 15]) (Fin 0.05)
    = Ok (band [Fin 2; Fin 2; Fin 5; Fin 7; Fin 15] margin) /\
    calculate_prediction_region
      Qsqrt_id transform_id five_prices
      (pd_Series [Fin 2; Fin 2; Fin 5; Fin 7; Fin 15]) (Fin 0.05)
    = Return (band [Fin 2; Fin 2; Fin 5; Fin 7; Fin 15]
                   (fmul margin (fsqrt Qsqrt_id (Fin (1 + 1 / 5))))).
Proof.
  apply (calculate_prediction_region_widens
           Qsqrt_id transform_id five_prices
           (pd_Series [Fin 2; Fin 2; Fin 5; Fin 7; Fin 15]) (Fin 0.05)).
  - reflexivity.
  - discriminate.
Defined.

(* ================================================================== *)
(** * process_missing_dates: one row per calendar day *)
(* ================================================================== *)

Lemma duplicated_any_NoDup (idx : list Z) :
  duplicated_any idx = false <-> NoDup idx.
Proof.
  induction idx as [| t rest IH]; simpl.
  - split; [constructor | reflexivity].
  - rewrite orb_false_iff, IH. split.
    + intros [Hex Hnd]. constructor; [| exact Hnd].
      intros Hin.
      assert (E : existsb (Z.eqb t) rest = true).
      { apply existsb_exists. exists t. split; [exact Hin |].
        apply Z.eqb_refl. }
      rewrite E in Hex. discriminate Hex.
    + intros Hnd. inversion Hnd as [| x l Hnotin Hrest]; subst.
      split; [| exact Hrest].
      destruct (existsb (Z.eqb t) rest) eqn:E; [| reflexivity].
      apply existsb_exists in E as [x [Hin Hx]].
      apply Z.eqb_eq in Hx. subst x. contradiction.
Qed.

Lemma fold_left_min_spec (rest : list Z) :
  forall t, let m := fold_left Z.min rest t in
            (m <= t)%Z /\ (forall x, In x rest -> (m <= x)%Z) /\
            (m = t \/ In m rest).
Proof.
  induction rest as [| x rest IH]; intros t; simpl.
  - split; [lia |]. split; [intros x [] | left; reflexivity].
  - destruct (IH (Z.min t x)) as [H1 [H2 H3]].
    split; [lia |]. split.
    + intros y [<- | Hy]; [lia | apply H2, Hy].
    + destruct H3 as [H3 | H3]; [| right; right; exact H3].
      destruct (Z.min_spec t x) as [[_ E] | [_ E]]; rewrite E in *.
      * left. exact H3.
      * right. left. symmetry. exact H3.
Qed.

Lemma fold_left_max_spec (rest : list Z) :
  forall t, let m := fold_left Z.max rest t in
            (t <= m)%Z /\ (forall x, In x rest -> (x <= m)%Z) /\
            (m = t \/ In m rest).
Proof.
  induction rest as [| x rest IH]; intros t; simpl.
  - split; [lia |]. split; [intros x [] | left; reflexivity].
  - destruct (IH (Z.max t x)) as [H1 [H2 H3]].
    split; [lia |]. split.
    + intros y [<- | Hy]; [lia | apply H2, Hy].
    + destruct H3 as [H3 | H3]; [| right; right; exact H3].
      destruct (Z.max_spec t x) as [[_ E] | [_ E]]; rewrite E in *.
      * right. left. symmetry. exact H3.
      * left. exact H3.
Qed.

Lemma combine_range_snd {A : Type} (l : list A) :
  map snd (combine (range (len l)) l) = l.
Proof.
  assert (H : forall (ls : list Z) (l : list A),
             List.length ls = List.length l -> map snd (combine ls l) = l).
  { clear l. intros ls l. revert ls.
    induction l as [| v l IH]; intros [| x ls] E; simpl in *;
      try reflexivity; try discriminate E.
    f_equal. apply IH. lia. }
  apply H, length_range_len.
Qed.

Lemma combine_range_fst {A : Type} (l : list A) :
  map fst (combine (range (len l)) l) = range (len l).
Proof.
  assert (H : forall (ls : list Z) (l : list A),
             List.length ls = List.length l -> map fst (combine ls l) = ls).
  { clear l. intros ls l. revert ls.
    induction l as [| v l IH]; intros [| x ls] E; simpl in *;
      try reflexivity; try discriminate E.
    f_equal. apply IH. lia. }
  apply H, length_range_len.
Qed.

Section MissingDatesFacts.

Variable Row : Type.
Variable nan_row : Row.
Variable set_index : string -> list (Z * Row) -> outcome (list (Z * Row)).

Lemma frame_loc_Some (df : list (Z * Row)) (t : Z) (r : Row) :
  frame_loc t df = Some r -> In (t, r) df.
Proof.
  induction df as [| [l r'] df IH]; simpl; intros H.
  - discriminate H.
  - destruct (Z.eqb_spec t l) as [-> | _].
    + injection H as <-. left. reflexivity.
    + right. apply IH, H.
Qed.

Lemma frame_loc_None (df : list (Z * Row)) (t : Z) :
  frame_loc t df = None -> ~ In t (map fst df).
Proof.
  induction df as [| [l r'] df IH]; simpl; intros H.
  - intros [].
  - destruct (Z.eqb_spec t l) as [-> | Hne]; [discriminate H |].
    intros [E | Hin]; [congruence | exact (IH H Hin)].
Qed.

Lemma frame_loc_In (df : list (Z * Row)) (t : Z) (r : Row) :
  NoDup (map fst df) -> In (t, r) df -> frame_loc t df = Some r.
Proof.
  induction df as [| [l r'] df IH]; simpl; intros Hnd Hin.
  - contradiction.
  - inversion Hnd as [| x ls Hnotin Hrest]; subst.
    destruct Hin as [E | Hin].
    + injection E as -> ->. rewrite Z.eqb_refl. reflexivity.
    + destruct (Z.eqb_spec t l) as [-> | _].
      * exfalso. apply Hnotin. apply in_map_iff.
        exists (l, r). split; [reflexivity | exact Hin].
      * apply IH; assumption.
Qed.

Lemma reindex_rows (df : list (Z * Row)) (labels : list Z) (t : Z) (r : Row) :
  In (t, r) (reindex nan_row df labels) ->
  frame_loc t df = Some r \/ (frame_loc t df = None /\ r = nan_row).
Proof.
  unfold reindex. intros Hin.
  apply in_map_iff in Hin as [t' [E _]].
  injection E as Et Er. subst t'.
  destruct (frame_loc t df) as [r' |]; subst r.
  - left. reflexivity.
  - right. split; reflexivity.
Qed.

(** X9.  [process_missing_dates] on a frame indexed by timestamps.  An
    index with a repeated timestamp raises ValueError, and so does an empty
    frame (its minimum is NaT).  Otherwise the function returns a frame
    labelled 0..m-1 whose [date] column is the first timestamp [lo] and
    every whole day after it up to the last timestamp [hi], each once and
    in increasing order.  Every row of the input whose timestamp is a whole
    number of days after [lo] is in the result unchanged; every row of the
    result is such an input row or a row of NaN at a date the input lacks;
    an input row that is not a whole number of days after [lo] is dropped.
    With a [date_column] the same holds for the frame [set_index]
    returns. *)
Theorem process_missing_dates_daily_rows (df : list (Z * Row)) :
  (~ NoDup (map fst df) ->
   process_missing_dates nan_row set_index df None
   = Raise (ValueError "Duplicate dates found in the index")) /\
  (df = [] ->
   exists msg,
     process_missing_dates nan_row set_index df None
     = Raise (ValueError msg)) /\
  (NoDup (map fst df) -> df <> [] ->
   exists (out : list (Z * (Z * Row))) (lo hi : Z),
     process_missing_dates nan_row set_index df None = Ok out /\
     In lo (map fst df) /\ In hi (map fst df) /\
     (forall t, In t (map fst df) -> (lo <= t <= hi)%Z) /\
     map fst out = range (len out) /\
     map (fun row => fst (snd row)) out
     = map (fun k => (lo + k * day)%Z) (range ((hi - lo) / day + 1)) /\
     (forall t r, In (t, r) df -> ((t - lo) mod day = 0)%Z ->
                  In (t, r) (map snd out)) /\
     (forall t r, In (t, r) (map snd out) ->
                  In (t, r) df \/
                  (r = nan_row /\ ~ In t (map fst df))) /\
     (forall t r, In (t, r) df -> ((t - lo) mod day <> 0)%Z ->
                  ~ In t (map (fun row => fst (snd row)) out))) /\
  (forall column,
      process_missing_dates nan_row set_index df (Some column)
      = (indexed <- set_index column df ;;
         process_missing_dates nan_row set_index indexed None)).
Proof.
  split; [| split; [| split]].
  - intros Hdup. unfold process_missing_dates. cbn [bind].
    destruct (duplicated_any (map fst df)) eqn:E; [reflexivity |].
    exfalso. apply Hdup. apply duplicated_any_NoDup, E.
  - intros ->. eexists. reflexivity.
  - intros Hnd Hne.
    destruct df as [| [t0 r0] rest]; [contradiction |].
    set (df := (t0, r0) :: rest) in *.
    set (lo := fold_left Z.min (map fst rest) t0).
    set (hi := fold_left Z.max (map fst rest) t0).
    set (grid := map (fun k => (lo + k * day)%Z)
                     (range ((hi - lo) / day + 1))).
    destruct (fold_left_min_spec (map fst rest) t0) as [Hlo1 [Hlo2 Hlo3]].
    destruct (fold_left_max_spec (map fst rest) t0) as [Hhi1 [Hhi2 Hhi3]].
    fold lo in Hlo1, Hlo2, Hlo3. fold hi in Hhi1, Hhi2, Hhi3.
    assert (Hrun : process_missing_dates nan_row set_index df None
                   = Ok (reset_index (reindex nan_row df grid))).
    { unfold process_missing_dates. cbn [bind].
      apply duplicated_any_NoDup in Hnd. rewrite Hnd. reflexivity. }
    assert (Hsnd : map snd (reset_index (reindex nan_row df grid))
                   = reindex nan_row df grid)
      by apply combine_range_snd.
    assert (Hdates : map (fun row : Z * (Z * Row) => fst (snd row))
                         (reset_index (reindex nan_row df grid)) = grid).
    { rewrite <- (map_map snd fst), Hsnd.
      unfold reindex. rewrite map_map. simpl. apply map_id. }
    exists (reset_index (reindex nan_row df grid)), lo, hi.
    split; [exact Hrun |].
    split; [simpl; destruct Hlo3 as [-> | H]; auto |].
    split; [simpl; destruct Hhi3 as [-> | H]; auto |].
    split.
    { intros t [<- | Ht]; [simpl; lia |].
      specialize (Hlo2 t Ht). specialize (Hhi2 t Ht). lia. }
    split.
    { unfold reset_index. rewrite combine_range_fst. f_equal.
      unfold len. rewrite length_combine, length_range, Nat2Z.id, Nat.min_id.
      reflexivity. }
    split; [exact Hdates |].
    split; [| split].
    + intros t r Hin Hmod. rewrite Hsnd. unfold reindex.
      apply in_map_iff. exists t.
      rewrite (frame_loc_In df t r Hnd Hin). split; [reflexivity |].
      assert (Ht : (lo <= t <= hi)%Z).
      { assert (Hin' : In t (map fst df))
          by (apply in_map_iff; exists (t, r); auto).
        destruct Hin' as [<- | Ht]; [simpl; lia |].
        specialize (Hlo2 t Ht). specialize (Hhi2 t Ht). lia. }
      unfold grid. apply in_map_iff. exists ((t - lo) / day)%Z. split.
      * pose proof (Z.div_mod (t - lo) day ltac:(discriminate)) as E.
        rewrite Hmod in E. lia.
      * apply in_range. split.
        -- apply Z.div_pos; [lia | reflexivity].
        -- assert ((t - lo) / day <= (hi - lo) / day)%Z
             by (apply Z.div_le_mono; [reflexivity | lia]).
           lia.
    + intros t r Hin. rewrite Hsnd in Hin. unfold reindex in Hin.
      apply reindex_rows in Hin as [El | [El ->]].
      * left. apply frame_loc_Some, El.
      * right. split; [reflexivity | apply frame_loc_None, El].
    + intros t r Hin Hmod Hgrid. rewrite Hdates in Hgrid.
      unfold grid in Hgrid. apply in_map_iff in Hgrid as [k [E _]].
      apply Hmod. replace (t - lo)%Z with (k * day)%Z by lia.
      apply Z.mod_mul. discriminate.
  - intros column. reflexivity.
Qed.

End MissingDatesFacts.

Lemma process_missing_dates_daily_rows_witness :
  exists (out : list (Z * (Z * float))) (lo hi : Z),
    process_missing_dates NaN set_index_missing friday_monday None = Ok out /\
    In lo (map fst friday_monday) /\ In hi (map fst friday_monday) /\
    (forall t, In t (map fst friday_monday) -> (lo <= t <= hi)%Z) /\
    map fst out = range (len out) /\
    map (fun row => fst (snd row)) out
    = map (fun k => (lo + k * day)%Z) (range ((hi - lo) / day + 1)) /\
    (forall t r, In (t, r) friday_monday -> ((t - lo) mod day = 0)%Z ->
                 In (t, r) (map snd out)) /\
    (forall t r, In (t, r) (map snd out) ->
                 In (t, r) friday_monday \/
                 (r = NaN /\ ~ In t (map fst friday_monday))) /\
    (forall t r, In (t, r) friday_monday -> ((t - lo) mod day <> 0)%Z ->
                 ~ In t (map (fun row => fst (snd row)) out)).
Proof.
  apply (process_missing_dates_daily_rows
           float NaN set_index_missing friday_monday).
  - repeat constructor; simpl; intuition discriminate.
  - discriminate.
Defined.

(* ================================================================== *)
(** * The candidate orders: the seasonal grid and the size of the grid *)
(* ================================================================== *)

Lemma length_flat_map_const {A B : Type} (f : A -> list B) (n : nat)
      (l : list A) :
  (forall a, In a l -> List.length (f a) = n) ->
  List.length (flat_map f l) = (List.length l * n)%nat.
Proof.
  induction l as [| a l IH]; intros H; simpl.
  - reflexivity.
  - rewrite length_app, (H a) by (left; reflexivity).
    rewrite IH by (intros a' Ha'; apply H; right; exact Ha').
    reflexivity.
Qed.

Lemma length_product2 {A B : Type} (xs : list A) (ys : list B) :
  List.length (product2 xs ys) = (List.length xs * List.length ys)%nat.
Proof.
  unfold product2. apply length_flat_map_const.
  intros x _. apply length_map.
Qed.

Lemma length_product3 {A B C : Type}
      (xs : list A) (ys : list B) (zs : list C) :
  List.length (product3 xs ys zs)
  = (List.length xs * List.length ys * List.length zs)%nat.
Proof.
  unfold product3.
  rewrite (length_flat_map_const _ (List.length ys * List.length zs)).
  - lia.
  - intros x _. apply length_flat_map_const. intros y _. apply length_map.
Qed.

Lemma in_product2 {A B : Type} (xs : list A) (ys : list B) (x : A) (y : B) :
  In (x, y) (product2 xs ys) <-> In x xs /\ In y ys.
Proof.
  unfold product2. rewrite in_flat_map. split.
  - intros [x' [Hx H]]. apply in_map_iff in H as [y' [E Hy]].
    injection E as -> ->. auto.
  - intros [Hx Hy]. exists x. split; [exact Hx |].
    apply in_map_iff. exists y. split; [reflexivity | exact Hy].
Qed.

Lemma NoDup_product2 {A B : Type} (xs : list A) (ys : list B) :
  NoDup xs -> NoDup ys -> NoDup (product2 xs ys).
Proof.
  intros Hx Hy. unfold product2.
  apply NoDup_flat_map; [exact Hx | |].
  - intros x _. apply NoDup_map_injective; [| exact Hy].
    intros y y' E. injection E as ->. reflexivity.
  - intros x x' [x'' y] H H'.
    apply in_map_iff in H as [y1 [E1 _]].
    apply in_map_iff in H' as [y2 [E2 _]].
    congruence.
Qed.

Lemma NoDup_non_seasonal (max_p max_d max_q : Z) (d : option Z) :
  NoDup (match d with
         | None => product3 (range (max_p + 1)) (range (max_d + 1))
                            (range (max_q + 1))
         | Some d0 => product3 (range (max_p + 1)) [d0] (range (max_q + 1))
         end).
Proof.
  destruct d.
  - apply NoDup_product3; try apply NoDup_range.
    constructor; [intros [] | constructor].
  - apply NoDup_product3; apply NoDup_range.
Qed.

(** X10.  With seasonal parameters and a periodicity [s], the generator
    returns the 7-tuples (p, d, q, P, D, Q, s) of the Cartesian product of
    the non-seasonal grid and P in [0, max_P], D in [0, max_D], Q in
    [0, max_Q]: a list without repetition holding exactly those tuples, the
    given [d] fixing the non-seasonal d only.  The number of candidates is
    the product of the sizes of the ranges, in both modes: a negative
    maximum empties the grid. *)
Theorem generate_auto_arimax_test_params_seasonal_grid
        (max_p max_d max_q : Z) (d : option Z) (max_P max_D max_Q s : Z) :
  let size := fun m => Z.to_nat (m + 1) in
  let size_d := match d with None => size max_d | Some _ => 1%nat end in
  (exists l,
      generate_auto_arimax_test_params max_p max_d max_q d true
                                       max_P max_D max_Q (Some s)
      = Ok (Seasonal l) /\
      NoDup l /\
      (forall p d' q P D Q s',
          In (p, d', q, P, D, Q, s') l <->
          (0 <= p <= max_p)%Z /\
          match d with
          | None => (0 <= d' <= max_d)%Z
          | Some d0 => d' = d0
          end /\
          (0 <= q <= max_q)%Z /\
          (0 <= P <= max_P)%Z /\ (0 <= D <= max_D)%Z /\
          (0 <= Q <= max_Q)%Z /\ s' = s) /\
      List.length l
      = (size max_p * size_d * size max_q
         * (size max_P * size max_D * size max_Q))%nat) /\
  (forall seasonality_trend,
      exists l,
        generate_auto_arimax_test_params max_p max_d max_q d false
                                         max_P max_D max_Q seasonality_trend
        = Ok (NonSeasonal l) /\
        List.length l = (size max_p * size_d * size max_q)%nat).
Proof.
  intros size size_d.
  assert (Hsize : List.length
                    (match d with
                     | None => product3 (range (max_p + 1))
                                        (range (max_d + 1))
                                        (range (max_q + 1))
                     | Some d0 => product3 (range (max_p + 1)) [d0]
                                           (range (max_q + 1))
                     end)
                  = (size max_p * size_d * size max_q)%nat).
  { unfold size_d, size. destruct d; rewrite length_product3, !length_range;
      reflexivity. }
  split.
  - eexists. split; [reflexivity |]. split; [| split].
    + apply NoDup_map_injective.
      * intros [[[p1 d1] q1] [[[P1 D1] Q1] s1]]
               [[[p2 d2] q2] [[[P2 D2] Q2] s2]] E.
        injection E as -> -> -> -> -> -> ->. reflexivity.
      * apply NoDup_product2; [apply NoDup_non_seasonal |].
        unfold seasonal_product. apply NoDup_map_injective.
        -- intros [[P1 D1] Q1] [[P2 D2] Q2] E.
           injection E as -> -> ->. reflexivity.
        -- apply NoDup_product3; apply NoDup_range.
    + intros p d' q P D Q s'. rewrite in_map_iff. split.
      * intros [[[[p1 d1] q1] [[[P1 D1] Q1] s1]] [E Hin]].
        injection E as -> -> -> -> -> -> ->.
        apply in_product2 in Hin as [Hns Hs].
        unfold seasonal_product in Hs.
        apply in_map_iff in Hs as [[[P2 D2] Q2] [E Hs]].
        injection E as -> -> -> ->.
        apply in_product3 in Hs as [HP [HD HQ]].
        apply in_range in HP, HD, HQ.
        destruct d as [d0 |]; apply in_product3 in Hns as [Hp [Hd Hq]];
          apply in_range in Hp, Hq.
        -- destruct Hd as [<- | []]. repeat split; lia.
        -- apply in_range in Hd. repeat split; lia.
      * intros [Hp [Hd [Hq [HP [HD [HQ ->]]]]]].
        exists ((p, d', q), (P, D, Q, s)). split; [reflexivity |].
        apply in_product2. split.
        -- destruct d as [d0 |]; apply in_product3; rewrite !in_range.
           ++ subst d'. simpl. intuition lia.
           ++ lia.
        -- unfold seasonal_product. apply in_map_iff.
           exists (P, D, Q). split; [reflexivity |].
           apply in_product3. rewrite !in_range. lia.
    + rewrite length_map, length_product2, Hsize.
      unfold seasonal_product. rewrite length_map, length_product3.
      rewrite !length_range. reflexivity.
  - intros seasonality_trend. eexists. split.
    + destruct seasonality_trend; reflexivity.
    + exact Hsize.
Qed.

(* ================================================================== *)
(** * The dispatch of the search: the chunks and the worker's call *)
(* ================================================================== *)

Lemma concat_split_sizes {A : Type} (sizes : list nat) :
  forall l : list A,
    (List.length l <= list_sum sizes)%nat ->
    List.concat (split_sizes sizes l) = l.
Proof.
  induction sizes as [| n sizes IH]; intros l Hlen; simpl in *.
  - destruct l; [reflexivity | simpl in Hlen; lia].
  - rewrite IH by (rewrite length_skipn; lia).
    apply firstn_skipn.
Qed.

Lemma lengths_split_sizes {A : Type} (sizes : list nat) :
  forall l : list A,
    (list_sum sizes <= List.length l)%nat ->
    map (@List.length A) (split_sizes sizes l) = sizes.
Proof.
  induction sizes as [| n sizes IH]; intros l Hlen; simpl in *.
  - reflexivity.
  - rewrite IH by (rewrite length_skipn; lia).
    rewrite length_firstn. f_equal. lia.
Qed.

Lemma list_sum_repeat (x k : nat) : list_sum (repeat x k) = (k * x)%nat.
Proof.
  induction k as [| k IH]; simpl; [reflexivity | rewrite IH; reflexivity].
Qed.

Lemma length_split_sizes {A : Type} (sizes : list nat) :
  forall l : list A, List.length (split_sizes sizes l) = List.length sizes.
Proof.
  induction sizes as [| n sizes IH]; intros l; simpl.
  - reflexivity.
  - rewrite IH. reflexivity.
Qed.

(** [np.array_split] partitions: for a positive number of sections there
    are exactly that many chunks, concatenated in order they give back the
    list, and with [n] elements and [k] sections the first [n mod k] chunks
    hold [n / k + 1] elements and the others [n / k]. *)
Lemma array_split_chunks {A : Type} (ary : list A) (sections : Z) :
  (0 < sections)%Z ->
  exists chunks,
    array_split ary sections = Ok chunks /\
    List.concat chunks = ary /\
    List.length chunks = Z.to_nat sections /\
    map (@List.length A) chunks
    = (repeat (S (List.length ary / Z.to_nat sections))
              (List.length ary mod Z.to_nat sections)
       ++ repeat (List.length ary / Z.to_nat sections)
                 (Z.to_nat sections
                  - List.length ary mod Z.to_nat sections))%nat.
Proof.
  intros Hpos. unfold array_split.
  destruct (Z.leb_spec sections 0) as [Hle | _]; [lia |].
  set (n := Z.to_nat sections).
  assert (Hn : n <> 0%nat) by (unfold n; lia).
  set (each := (List.length ary / n)%nat).
  set (extras := (List.length ary mod n)%nat).
  assert (Hextras : (extras < n)%nat) by (apply Nat.mod_upper_bound, Hn).
  assert (Hsum : list_sum (repeat (S each) extras
                           ++ repeat each (n - extras))
                 = List.length ary).
  { rewrite list_sum_app, !list_sum_repeat.
    pose proof (Nat.div_mod_eq (List.length ary) n) as E.
    fold each extras in E. nia. }
  eexists. split; [reflexivity |]. split; [| split].
  - apply concat_split_sizes. rewrite Hsum. lia.
  - rewrite length_split_sizes, length_app, !repeat_length. lia.
  - apply lengths_split_sizes. rewrite Hsum. lia.
Qed.

Section DispatchFacts.

Variables Params Exog Trend Model : Type.

Lemma collect_first_raises (e : exn) (stream : list (outcome (list float))) :
  forall results,
    stream <> [] ->
    Forall (fun delivered => delivered = Raise e) stream ->
    collect stream results = Raise e.
Proof.
  intros results Hne Hall. destruct Hall as [| r stream -> _].
  - contradiction.
  - reflexivity.
Qed.

Lemma imap_unordered_tuples_TypeError
      (ARIMA : list float -> option Exog -> Params -> option seasonal_order ->
               option Trend -> outcome Model)
      (fit : Model -> outcome ARIMAResults)
      (tasks : list (pyobj Params Exog Trend)) (completion : list nat) :
  Forall (fun t => exists items, t = PyTuple items) tasks ->
  Forall (fun delivered =>
            delivered = Raise (TypeError "optimize_arimax_params() missing required positional arguments"))
         (imap_unordered (call_optimize_arimax_params ARIMA fit)
                         tasks completion).
Proof.
  intros Htasks. unfold imap_unordered.
  induction completion as [| i completion IH]; simpl.
  - constructor.
  - destruct (nth_error tasks i) as [t |] eqn:E; simpl; [| exact IH].
    constructor; [| exact IH].
    apply nth_error_In in E.
    rewrite Forall_forall in Htasks.
    destruct (Htasks t E) as [items ->]. reflexivity.
Qed.

Lemma imap_unordered_delivers {B : Type}
      (func : list (pyobj Params Exog Trend) -> outcome B)
      (tasks : list (pyobj Params Exog Trend)) (completion : list nat) :
  tasks <> [] -> In 0%nat completion ->
  imap_unordered func tasks completion <> [].
Proof.
  intros Hne Hin. unfold imap_unordered.
  destruct tasks as [| t tasks]; [contradiction |].
  induction completion as [| i completion IH]; [contradiction |].
  simpl. destruct Hin as [-> | Hin].
  - simpl. discriminate.
  - destruct (nth_error (t :: tasks) i); simpl; [discriminate |].
    apply IH, Hin.
Qed.

(** X11.  The dispatch of [auto_arimax_optimizer].  With candidates to
    test, at least one core and [max_cores >= 1] (and neither guard
    raising), the number of jobs is the requested [n_jobs], or
    [min(cpu_count, max_cores)] when [n_jobs < 1], capped by the number of
    candidates; [np.array_split] cuts the candidates into exactly that many
    chunks, which concatenated in order give back the list of candidates,
    none empty and their sizes differing by at most one; and the pool is
    handed one task per chunk, the tuple of the chunk and the four shared
    arguments. *)
Theorem auto_arimax_optimizer_dispatch
        (ARIMA : list float -> option Exog -> Params ->
                 option seasonal_order -> option Trend -> outcome Model)
        (fit : Model -> outcome ARIMAResults)
        (cpu_count : Z) (completion : list nat)
        (y_series : Series) (arimax_test_params : list Params)
        (exog_array : option Exog) (trend_params : option Trend)
        (penalty_criteria : string)
        (seasonality_trend : option string) (n_jobs max_cores : Z) :
  is_none exog_array && negb (is_none trend_params) = false ->
  arimax_test_params <> [] ->
  (1 <= cpu_count)%Z -> (1 <= max_cores)%Z ->
  let jobs := Z.min (if (n_jobs <? 1)%Z then Z.min cpu_count max_cores
                     else n_jobs)
                    (len arimax_test_params) in
  exists chunks,
    array_split arimax_test_params jobs = Ok chunks /\
    len chunks = jobs /\
    List.concat chunks = arimax_test_params /\
    Forall (fun chunk => chunk <> []) chunks /\
    (forall chunk chunk',
        In chunk chunks -> In chunk' chunks ->
        (List.length chunk <= List.length chunk' + 1)%nat) /\
    auto_arimax_optimizer ARIMA fit cpu_count completion y_series
                          arimax_test_params exog_array trend_params
                          penalty_criteria false seasonality_trend
                          n_jobs max_cores
    = (results <- collect
                    (imap_unordered
                       (call_optimize_arimax_params ARIMA fit)
                       (map (fun chunk =>
                               PyTuple [PyChunk chunk;
                                        PyArray (values y_series);
                                        PyExog exog_array;
                                        PyTrend trend_params;
                                        PyStr penalty_criteria]) chunks)
                       completion) [] ;;
       test_results <- flatten_results results ;;
       select_optimal arimax_test_params test_results).
Proof.
  intros Hguard Hne Hcpu Hcores jobs.
  assert (Hlen : (1 <= len arimax_test_params)%Z).
  { destruct arimax_test_params; [contradiction |].
    unfold len. simpl List.length. lia. }
  assert (Hjobs : (1 <= jobs <= len arimax_test_params)%Z).
  { unfold jobs. destruct (Z.ltb_spec n_jobs 1); lia. }
  destruct (array_split_chunks arimax_test_params jobs)
    as [chunks [Hsplit [Hconcat [Hcount Hsizes]]]]; [lia |].
  set (n := Z.to_nat jobs) in *.
  assert (Hn : (1 <= n <= List.length arimax_test_params)%nat)
    by (unfold n, len in *; lia).
  assert (Heach : (1 <= List.length arimax_test_params / n)%nat)
    by (apply Nat.div_le_lower_bound; lia).
  assert (Hsize : forall chunk,
             In chunk chunks ->
             List.length chunk = (List.length arimax_test_params / n)%nat \/
             List.length chunk
             = S (List.length arimax_test_params / n)).
  { intros chunk Hin.
    apply (in_map (@List.length Params)) in Hin.
    rewrite Hsizes in Hin. apply in_app_or in Hin as [Hin | Hin];
      apply repeat_spec in Hin; auto. }
  exists chunks. split; [exact Hsplit |].
  split; [unfold len; rewrite Hcount; unfold n; lia |].
  split; [exact Hconcat |]. split; [| split].
  - apply Forall_forall. intros chunk Hin ->.
    destruct (Hsize [] Hin) as [E | E]; simpl in E; lia.
  - intros chunk chunk' Hin Hin'.
    destruct (Hsize chunk Hin), (Hsize chunk' Hin'); lia.
  - unfold auto_arimax_optimizer. rewrite Hguard.
    match goal with
    | |- context [array_split _ ?m] => replace m with jobs
    end.
    + rewrite Hsplit. reflexivity.
    + fold jobs. destruct (Z.ltb_spec jobs 1); lia.
Qed.

(** X12.  What [auto_arimax_optimizer] raises, on a machine with at least
    one core and a pool whose first worker delivers: one exception,
    whatever [ARIMA] and [fit] compute, so that no model is ever built or
    fitted.  It is ValueError when a trend is given without exogenous
    variables; otherwise TypeError when [generate_seasonal_params] is True
    (the flag is called as a function); otherwise ValueError when the list
    of candidates is empty (zero sections for [np.array_split]); otherwise
    the TypeError of the first worker call, which is handed one tuple in
    place of five arguments. *)
Theorem auto_arimax_optimizer_never_fits
        (cpu_count : Z) (completion : list nat)
        (y_series : Series) (arimax_test_params : list Params)
        (exog_array : option Exog) (trend_params : option Trend)
        (penalty_criteria : string) (generate_seasonal_params : bool)
        (seasonality_trend : option string) (n_jobs max_cores : Z) :
  (1 <= cpu_count)%Z ->
  In 0%nat completion ->
  exists e,
    (forall (ARIMA : list float -> option Exog -> Params ->
                     option seasonal_order -> option Trend -> outcome Model)
            (fit : Model -> outcome ARIMAResults),
        auto_arimax_optimizer ARIMA fit cpu_count completion y_series
                              arimax_test_params exog_array trend_params
                              penalty_criteria generate_seasonal_params
                              seasonality_trend n_jobs max_cores
        = Raise e) /\
    (if is_none exog_array && negb (is_none trend_params)
     then exists msg, e = ValueError msg
     else if generate_seasonal_params
          then exists msg, e = TypeError msg
          else match arimax_test_params with
               | [] => exists msg, e = ValueError msg
               | _ :: _ =>
                   e = TypeError "optimize_arimax_params() missing required positional arguments"
               end).
Proof.
  intros Hcpu Hfirst. unfold auto_arimax_optimizer.
  destruct (is_none exog_array && negb (is_none trend_params)).
  { eexists. split; [intros; reflexivity | eexists; reflexivity]. }
  destruct generate_seasonal_params.
  { eexists. split; [intros; reflexivity | eexists; reflexivity]. }
  destruct arimax_test_params as [| c rest].
  { eexists. split; [| eexists; reflexivity].
    intros ARIMA fit. unfold array_split.
    match goal with
    | |- context [(?n <=? 0)%Z] =>
        destruct (Z.leb_spec n 0) as [_ | Hgt]
    end; [reflexivity |].
    exfalso. unfold len in Hgt. simpl in Hgt.
    destruct (n_jobs <? 1)%Z; lia. }
  eexists. split; [| reflexivity].
  intros ARIMA fit.
  match goal with
  | |- context [array_split _ ?n] =>
      destruct (array_split_chunks (c :: rest) n)
        as [chunks [Hchunks [_ [Hlen _]]]];
      [| rewrite Hchunks; assert (Hn : (1 <= n)%Z)]
  end.
  - unfold len. simpl List.length.
    destruct (n_jobs <? 1)%Z eqn:E1;
      [| apply Z.ltb_ge in E1];
      match goal with
      | |- context [(?m <? 1)%Z] => destruct (Z.ltb_spec m 1)
      end; lia.
  - unfold len. simpl List.length.
    destruct (n_jobs <? 1)%Z eqn:E1;
      [| apply Z.ltb_ge in E1];
      match goal with
      | |- context [(?m <? 1)%Z] => destruct (Z.ltb_spec m 1)
      end; lia.
  - cbn [bind].
    rewrite (collect_first_raises
               (TypeError "optimize_arimax_params() missing required positional arguments")).
    + reflexivity.
    + apply imap_unordered_delivers; [| exact Hfirst].
      destruct chunks; [simpl in Hlen; lia | discriminate].
    + apply imap_unordered_tuples_TypeError.
      apply Forall_forall. intros t Ht. apply in_map_iff in Ht as [ch [<- _]].
      eexists. reflexivity.
Qed.

End DispatchFacts.

Lemma auto_arimax_optimizer_dispatch_witness :
  exists chunks,
    array_split two_candidates 2 = Ok chunks /\
    len chunks = 2%Z /\
    List.concat chunks = two_candidates /\
    Forall (fun chunk => chunk <> []) chunks /\
    (forall chunk chunk',
        In chunk chunks -> In chunk' chunks ->
        (List.length chunk <= List.length chunk' + 1)%nat) /\
    auto_arimax_optimizer ARIMA_of_order (fit_scored score_of_two)
                          4 [1; 0]%nat (pd_Series [Fin 1; Fin 2; Fin 3])
                          two_candidates None None "AIC" false None 2 8
    = (results <- collect
                    (imap_unordered
                       (call_optimize_arimax_params
                          ARIMA_of_order (fit_scored score_of_two))
                       (map (fun chunk =>
                               PyTuple [PyChunk chunk;
                                        PyArray [Fin 1; Fin 2; Fin 3];
                                        PyExog None; PyTrend None;
                                        PyStr "AIC"]) chunks)
                       [1; 0]%nat) [] ;;
       test_results <- flatten_results results ;;
       select_optimal two_candidates test_results).
Proof.
  exact (auto_arimax_optimizer_dispatch
           order unit unit order ARIMA_of_order (fit_scored score_of_two)
           4 [1; 0]%nat (pd_Series [Fin 1; Fin 2; Fin 3]) two_candidates
           None None "AIC" None 2 8
           eq_refl ltac:(discriminate) ltac:(lia) ltac:(lia)).
Defined.

Lemma auto_arimax_optimizer_never_fits_witness :
  exists e,
    (forall ARIMA fit,
        auto_arimax_optimizer (Model := order) (Exog := unit) (Trend := unit)
                              ARIMA fit 4 [1; 0]%nat
                              (pd_Series [Fin 1; Fin 2; Fin 3]) two_candidates
                              None None "AIC" false None 2 8
        = Raise e) /\
    e = TypeError "optimize_arimax_params() missing required positional arguments".
Proof.
  apply (auto_arimax_optimizer_never_fits
           order unit unit order 4 [1; 0]%nat
           (pd_Series [Fin 1; Fin 2; Fin 3]) two_candidates
           None None "AIC" false None 2 8).
  - lia.
  - simpl. auto.
Defined.

(* ================================================================== *)
(** * The worker: one score per candidate, in order *)
(* ================================================================== *)

Section WorkerFacts.

Variables Params Exog Trend Model : Type.
Variable ARIMA :
  list float -> option Exog -> Params -> option seasonal_order ->
  option Trend -> outcome Model.
Variable fit : Model -> outcome ARIMAResults.

(** The score of a candidate whose model was built, under a valid
    criterion. *)
Lemma check_generated_arimax_params_score
      (y_array : list float) (params : Params) (exog_array : option Exog)
      (trend_params : option Trend) (penalty_criteria : string)
      (model : Model) :
  is_none exog_array && negb (is_none trend_params) = false ->
  penalty_criteria = "AIC"%string \/ penalty_criteria = "BIC"%string ->
  ARIMA y_array exog_array params None trend_params = Ok model ->
  (forall e, fit model = Raise e -> is_Exception e = true) ->
  check_generated_arimax_params ARIMA fit y_array params exog_array
                                trend_params None penalty_criteria
  = Ok (match fit model with
        | Ok model_fit =>
            py_round (if String.eqb penalty_criteria "BIC"
                      then bic model_fit else aic model_fit) 5
        | Raise _ => PInf
        end).
Proof.
  intros Hguard Hpc Hmodel Hexc. unfold check_generated_arimax_params.
  rewrite Hguard, Hmodel. cbn [bind].
  destruct (fit model) as [model_fit | e] eqn:Hfit.
  - destruct Hpc as [-> | ->]; reflexivity.
  - rewrite (Hexc e eq_refl). reflexivity.
Qed.

(** X13.  [optimize_arimax_params] scores a chunk in order and a failed
    fit does not stop it.  With a valid criterion ('AIC' or 'BIC') and no
    trend given without exogenous variables, when the model of every
    candidate of the chunk can be built and no fit is interrupted
    (KeyboardInterrupt), the worker returns one score per candidate, in the
    order of the chunk: the criterion of the fit rounded to five decimals,
    or infinity where the fit raised.  An exception of the ARIMA
    constructor is not caught: raised for a candidate whose predecessors
    were scored, it is raised by the worker and the scores of the chunk are
    lost. *)
Theorem optimize_arimax_params_scores_in_order
        (params_chunk : list Params) (y_array : list float)
        (exog_array : option Exog) (trend_params : option Trend)
        (penalty_criteria : string) :
  is_none exog_array && negb (is_none trend_params) = false ->
  penalty_criteria = "AIC"%string \/ penalty_criteria = "BIC"%string ->
  ((forall params, In params params_chunk ->
      exists model,
        ARIMA y_array exog_array params None trend_params = Ok model /\
        forall e, fit model = Raise e -> is_Exception e = true) ->
   exists results,
     optimize_arimax_params ARIMA fit params_chunk y_array exog_array
                            trend_params penalty_criteria = Ok results /\
     Forall2 (fun params score =>
                exists model,
                  ARIMA y_array exog_array params None trend_params
                  = Ok model /\
                  score = match fit model with
                          | Ok model_fit =>
                              py_round (if String.eqb penalty_criteria "BIC"
                                        then bic model_fit
                                        else aic model_fit) 5
                          | Raise _ => PInf
                          end)
             params_chunk results) /\
  (forall scored params rest e,
      params_chunk = scored ++ params :: rest ->
      (forall params', In params' scored ->
         exists model,
           ARIMA y_array exog_array params' None trend_params = Ok model /\
           forall e', fit model = Raise e' -> is_Exception e' = true) ->
      ARIMA y_array exog_array params None trend_params = Raise e ->
      optimize_arimax_params ARIMA fit params_chunk y_array exog_array
                             trend_params penalty_criteria = Raise e).
Proof.
  intros Hguard Hpc. split.
  - induction params_chunk as [| params rest IH]; intros Hbuilt.
    + exists []. split; [reflexivity | constructor].
    + destruct (Hbuilt params (or_introl eq_refl)) as [model [Hmodel Hexc]].
      destruct IH as [results [Hrest Hscores]].
      { intros params' Hin. apply Hbuilt. right. exact Hin. }
      eexists. split.
      * simpl. rewrite (check_generated_arimax_params_score
                          _ _ _ _ _ model Hguard Hpc Hmodel Hexc).
        cbn [bind]. rewrite Hrest. reflexivity.
      * constructor; [| exact Hscores].
        exists model. split; [exact Hmodel | reflexivity].
  - intros scored params rest e -> Hscored Hraise.
    induction scored as [| params' scored IH]; simpl.
    + unfold check_generated_arimax_params at 1.
      rewrite Hguard, Hraise. reflexivity.
    + destruct (Hscored params' (or_introl eq_refl))
        as [model [Hmodel Hexc]].
      rewrite (check_generated_arimax_params_score
                 _ _ _ _ _ model Hguard Hpc Hmodel Hexc).
      cbn [bind]. rewrite IH; [reflexivity |].
      intros p Hp. apply Hscored. right. exact Hp.
Qed.

End WorkerFacts.

Lemma optimize_arimax_params_scores_in_order_witness :
  exists results,
    optimize_arimax_params ARIMA_of_order fit_singular_at_q1
                           two_candidates [Fin 1; Fin 2; Fin 3]
                           None None "AIC" = Ok results /\
    Forall2 (fun params score =>
               exists model,
                 ARIMA_of_order [Fin 1; Fin 2; Fin 3] None params None None
                 = Ok model /\
                 score = match fit_singular_at_q1 model with
                         | Ok model_fit =>
                             py_round (if String.eqb "AIC" "BIC"
                                       then bic model_fit
                                       else aic model_fit) 5
                         | Raise _ => PInf
                         end)
            two_candidates results.
Proof.
  apply (optimize_arimax_params_scores_in_order
           order unit unit order ARIMA_of_order fit_singular_at_q1
           two_candidates [Fin 1; Fin 2; Fin 3] None None "AIC").
  - reflexivity.
  - left. reflexivity.
  - intros params _. exists params. split; [reflexivity |].
    intros e He. destruct params as [[p d] q]. simpl in He.
    destruct (q =? 1)%Z; [| discriminate He].
    injection He as <-. reflexivity.
Defined.

(* ================================================================== *)
(** * The score of a fitted candidate: rounding to five decimals *)
(* ================================================================== *)





Section RoundingFacts.

Variables Params Exog Trend Model : Type.
Variable ARIMA :
  list float -> option Exog -> Params -> option seasonal_order ->
  option Trend -> outcome Model.
Variable fit : Model -> outcome ARIMAResults.


End RoundingFacts.


(* ================================================================== *)
(** * Gap filling: the guard on negative values *)
(* ================================================================== *)

Section NegativeGuardFacts.

Variable adfuller : Series -> outcome float.
Variable Qsqrt : Q -> Q.
Variable norm_logpdf : float -> float -> float -> float.
Variable minimize :
  (float * float -> float) -> float * float -> outcome (float * float).
Variable log1p : float -> float.
Variable expm1 : float -> float.
Variable lowess :
  list float -> list float -> float -> Z -> list (float * float).

Lemma negative_nonzero_and_notnull (row : Z * float) :
  fltb (snd row) (Fin 0) = true -> nonzero_and_notnull row = true.
Proof.
  destruct row as [l v]. unfold nonzero_and_notnull. simpl.
  destruct v as [| | a |]; simpl; intros H; try discriminate H;
    try reflexivity.
  apply negb_true_iff in H. apply Qle_bool_false in H.
  rewrite andb_true_r. apply negb_true_iff. apply Qeq_bool_false.
  intros E. lra.
Qed.

Lemma negative_is_observed (y : Series) :
  existsb (fun x => fltb x (Fin 0)) (values (filter nonzero_and_notnull y))
  = existsb (fun x => fltb x (Fin 0)) (values y).
Proof.
  induction y as [| row y IH]; simpl.
  - reflexivity.
  - destruct (nonzero_and_notnull row) eqn:K; simpl.
    + rewrite IH. reflexivity.
    + rewrite IH. destruct (fltb (snd row) (Fin 0)) eqn:N; [| reflexivity].
      rewrite (negative_nonzero_and_notnull row N) in K. discriminate K.
Qed.

(** X15.  The guard of [interpolate_stock_prices] on negative values.
    Without the log transform and with [allow_negative_values=False], a
    series holding a negative value (minus infinity included) raises
    ValueError before any numerical routine runs; a series holding none is
    treated the same whether negative values are allowed or not; and with
    the log transform the flag [allow_negative_values] has no effect. *)
Theorem interpolate_stock_prices_negative_guard (y : Series) :
  ((exists v, In v (values y) /\ fltb v (Fin 0) = true) ->
   exists msg,
     interpolate_stock_prices adfuller Qsqrt norm_logpdf minimize log1p
                              expm1 lowess y false false
     = Raise (ValueError msg)) /\
  ((forall v, In v (values y) -> fltb v (Fin 0) = false) ->
   interpolate_stock_prices adfuller Qsqrt norm_logpdf minimize log1p
                            expm1 lowess y false false
   = interpolate_stock_prices adfuller Qsqrt norm_logpdf minimize log1p
                              expm1 lowess y false true) /\
  (forall allow allow',
      interpolate_stock_prices adfuller Qsqrt norm_logpdf minimize log1p
                               expm1 lowess y true allow
      = interpolate_stock_prices adfuller Qsqrt norm_logpdf minimize log1p
                                 expm1 lowess y true allow').
Proof.
  split; [| split].
  - intros [v [Hin Hneg]]. eexists. unfold interpolate_stock_prices.
    rewrite negative_is_observed.
    assert (E : existsb (fun x => fltb x (Fin 0)) (values y) = true)
      by (apply existsb_exists; exists v; auto).
    rewrite E. reflexivity.
  - intros Hnone. unfold interpolate_stock_prices.
    rewrite negative_is_observed.
    assert (E : existsb (fun x => fltb x (Fin 0)) (values y) = false).
    { destruct (existsb (fun x => fltb x (Fin 0)) (values y)) eqn:E;
        [| reflexivity].
      apply existsb_exists in E as [v [Hin Hneg]].
      rewrite (Hnone v Hin) in Hneg. discriminate Hneg. }
    rewrite E. reflexivity.
  - intros allow allow'. reflexivity.
Qed.

End NegativeGuardFacts.

Lemma interpolate_stock_prices_negative_guard_witness :
  exists msg,
    interpolate_stock_prices adfuller_never Qsqrt_id norm_logpdf_zero
                             minimize_x0 transform_id transform_id
                             lowess_interpolating
                             (pd_Series [Fin 3; NaN; Fin (-2); Fin 4; Fin 5])
                             false false
    = Raise (ValueError msg).
Proof.
  apply (interpolate_stock_prices_negative_guard
           adfuller_never Qsqrt_id norm_logpdf_zero minimize_x0
           transform_id transform_id lowess_interpolating
           (pd_Series [Fin 3; NaN; Fin (-2); Fin 4; Fin 5])).
  exists (Fin (-2)). split; [simpl; auto | reflexivity].
Defined.

(* ================================================================== *)
(** * level_shifts: the breakpoints reported *)
(* ================================================================== *)

Lemma comprehension_map {A B : Type} (f : A -> outcome B) (g : A -> B)
      (l : list A) :
  (forall x, In x l -> f x = Ok (g x)) ->
  comprehension f l = Ok (map g l).
Proof.
  induction l as [| x l IH]; intros H; simpl.
  - reflexivity.
  - rewrite (H x) by (left; reflexivity). cbn [bind].
    rewrite IH by (intros x' Hx'; apply H; right; exact Hx').
    reflexivity.
Qed.

Lemma ndarray_getitem_inside (a : list float) (i : Z) :
  (0 <= i < len a)%Z ->
  ndarray_getitem a i = Ok (nth (Z.to_nat i) a NaN).
Proof.
  intros Hi. unfold ndarray_getitem.
  destruct (Z.ltb_spec i 0) as [Hneg | _]; [lia |].
  destruct (Z.ltb_spec i 0) as [Hneg | _]; [lia |].
  destruct (Z.leb_spec (len a) i) as [Hout | _]; [lia |].
  simpl. rewrite (nth_error_nth' a NaN) by (unfold len in Hi; lia).
  reflexivity.
Qed.

Section LevelShiftFacts.

Variable pelt_predict :
  string -> Z -> Z -> list float -> float -> outcome (list Z).

(** X16.  [level_shifts] on a list, an array or a Series.  An argument of
    another type raises TypeError and an empty signal ValueError, before
    the change-point search is called.  When the search returns
    breakpoints that are not negative (PELT returns positions in 1..n, the
    last of them n), the function returns the breakpoints below the length
    n of the signal, in the order found, each with the value of the signal
    at that position, the first value after the shift; the closing
    breakpoint n is never reported. *)
Theorem level_shifts_reports_breakpoints
        (y_series : series_like) (model : string) (min_size jump : Z)
        (pen : float) :
  (as_signal y_series = None ->
   exists msg,
     level_shifts pelt_predict y_series model min_size jump pen
     = Raise (TypeError msg)) /\
  (as_signal y_series = Some [] ->
   exists msg,
     level_shifts pelt_predict y_series model min_size jump pen
     = Raise (ValueError msg)) /\
  (forall signal result,
      as_signal y_series = Some signal -> signal <> [] ->
      pelt_predict model min_size jump signal pen = Ok result ->
      Forall (fun i => (0 <= i)%Z) result ->
      let shifts := filter (fun i => (i <? len signal)%Z) result in
      level_shifts pelt_predict y_series model min_size jump pen
      = Ok (shifts, map (fun i => nth (Z.to_nat i) signal NaN) shifts) /\
      ~ In (len signal) shifts /\
      (forall i, In i shifts <-> In i result /\ (i < len signal)%Z)).
Proof.
  split; [| split].
  - intros H. destruct y_series; try discriminate H.
    eexists. reflexivity.
  - intros H. eexists.
    destruct y_series as [l | a | s |]; try discriminate H;
      injection H as H; unfold level_shifts; cbn [bind];
      rewrite H; reflexivity.
  - intros signal result Hsig Hne Hpelt Hpos shifts.
    assert (Hin : forall i, In i shifts <-> In i result /\ (i < len signal)%Z).
    { intros i. unfold shifts. rewrite filter_In, Z.ltb_lt. reflexivity. }
    split; [| split; [| exact Hin]].
    + assert (Hrun : level_shifts pelt_predict y_series model min_size jump
                                  pen
                     = (if (len signal =? 0)%Z
                        then Raise (ValueError "y_series must not be empty.")
                        else
                          result <- pelt_predict model min_size jump signal
                                                 pen ;;
                          level_shift_values <-
                            comprehension
                              (ndarray_getitem signal)
                              (filter (fun i => (i <? len signal)%Z) result) ;;
                          Ok (filter (fun i => (i <? len signal)%Z) result,
                              level_shift_values))).
      { destruct y_series as [l | a | s |]; try discriminate Hsig;
          injection Hsig as <-; reflexivity. }
      rewrite Hrun.
      destruct (Z.eqb_spec (len signal) 0) as [E | _].
      { exfalso. destruct signal; [contradiction | discriminate E]. }
      rewrite Hpelt. cbn [bind]. fold shifts.
      rewrite (comprehension_map _ (fun i => nth (Z.to_nat i) signal NaN)).
      * reflexivity.
      * intros i Hi. apply ndarray_getitem_inside.
        apply Hin in Hi as [Hi Hlt].
        rewrite Forall_forall in Hpos. specialize (Hpos i Hi). lia.
    + intros Habs. apply Hin in Habs as [_ Habs]. lia.
Qed.

End LevelShiftFacts.

Lemma level_shifts_reports_breakpoints_witness :
  level_shifts pelt_at_5 (FromSeries docstring_levels) "rbf" 1 10 (Fin 2)
  = Ok ([5%Z], [Fin 5]).
Proof.
  destruct (level_shifts_reports_breakpoints
              pelt_at_5 (FromSeries docstring_levels) "rbf" 1 10 (Fin 2))
    as [_ [_ H]].
  destruct (H (values docstring_levels) [5%Z; 10%Z]) as [Hrun _].
  - reflexivity.
  - discriminate.
  - reflexivity.
  - repeat constructor; lia.
  - exact Hrun.
Defined.

(* ================================================================== *)
(** * ForecastARIMAX: no instance is ever fitted *)
(* ================================================================== *)

Section ForecastARIMAXFacts.

Variables Exog Trend Model ModelFit : Type.
Variable ARIMA :
  list float -> option Exog -> candidate -> option seasonal_order ->
  option Trend -> outcome Model.
Variable fit : Model -> outcome ARIMAResults.
Variable fit_selected :
  list float -> Exog -> candidate -> outcome ModelFit.
Variable model_forecast : ModelFit -> Z -> option Exog -> outcome (list float).

(** A call of [fit] raises in the search and assigns nothing. *)
Lemma ForecastARIMAX_fit_raises (cpu_count : Z) (completion : list nat)
      (self : ForecastARIMAX Exog ModelFit) :
  exists e,
    ForecastARIMAX_fit ARIMA fit fit_selected cpu_count completion self
    = (Raise e, self).
Proof.
  unfold ForecastARIMAX_fit.
  destruct (auto_arimax_optimizer_raises
              _ _ _ _ ARIMA fit cpu_count completion
              (self_y_series self) (self_arimax_test_params self)
              (Some (self_X_df self)) None (self_penalty_criteria self)
              false None (-1) 8) as [e He].
  rewrite He. exists e. reflexivity.
Qed.

Lemma fit_repeatedly_unchanged (cpu_count : Z) (runs : list (list nat))
      (self : ForecastARIMAX Exog ModelFit) :
  fit_repeatedly ARIMA fit fit_selected cpu_count runs self = self.
Proof.
  induction runs as [| completion runs IH]; simpl.
  - reflexivity.
  - destruct (ForecastARIMAX_fit_raises cpu_count completion self)
      as [e He].
    rewrite He. simpl. exact IH.
Qed.

(** X17.  An instance of [ForecastARIMAX] can never forecast.  For every
    instance the constructor returns, whatever statsmodels computes: every
    call of [fit] raises (the exception of [auto_arimax_optimizer]) and
    leaves [optimal_params] and [model_fit] unset, so that after any number
    of calls of [fit], each caught by the caller, [forecast] raises the
    ValueError of a model that has not been fitted. *)
Theorem ForecastARIMAX_never_fitted
        (y_series : Series) (X_df : Exog) (max_p max_d max_q : Z)
        (d : option Z) (generate_seasonal_params : bool)
        (max_P max_D max_Q : Z) (seasonality_trend : option Z)
        (penalty_criteria : string) (self : ForecastARIMAX Exog ModelFit) :
  ForecastARIMAX_init y_series X_df max_p max_d max_q d
                      generate_seasonal_params max_P max_D max_Q
                      seasonality_trend penalty_criteria = Ok self ->
  (forall cpu_count completion,
      exists e,
        ForecastARIMAX_fit ARIMA fit fit_selected cpu_count completion self
        = (Raise e, self)) /\
  self_optimal_params self = None /\
  self_model_fit self = None /\
  (forall cpu_count runs steps exog,
      exists msg,
        ForecastARIMAX_forecast
          model_forecast
          (fit_repeatedly ARIMA fit fit_selected cpu_count runs self)
          steps exog
        = Raise (ValueError msg)).
Proof.
  intros Hinit. unfold ForecastARIMAX_init in Hinit.
  bind_inv Hinit generated Hgen. injection Hinit as <-.
  split; [| split; [| split]].
  - intros cpu_count completion. apply ForecastARIMAX_fit_raises.
  - reflexivity.
  - reflexivity.
  - intros cpu_count runs steps exog.
    rewrite fit_repeatedly_unchanged. eexists. reflexivity.
Qed.

End ForecastARIMAXFacts.

Lemma ForecastARIMAX_never_fitted_witness :
  ForecastARIMAX_init (ModelFit := candidate) five_prices tt 1 0 1 None false
                      0 0 0 None "AIC"
  = Ok {| self_y_series := five_prices;
          self_X_df := tt;
          self_arimax_test_params :=
            [Tuple3 (0, 0, 0); Tuple3 (0, 0, 1);
             Tuple3 (1, 0, 0); Tuple3 (1, 0, 1)]%Z;
          self_penalty_criteria := "AIC";
          self_optimal_params := None;
          self_model_fit := None |} /\
  exists msg,
    ForecastARIMAX_forecast
      forecast_ones
      (fit_repeatedly ARIMA_of_candidate fit_unit_score
                      fit_selected_candidate 4 [[1; 0]; [0; 1]]%nat
                      {| self_y_series := five_prices;
                         self_X_df := tt;
                         self_arimax_test_params :=
                           [Tuple3 (0, 0, 0); Tuple3 (0, 0, 1);
                            Tuple3 (1, 0, 0); Tuple3 (1, 0, 1)]%Z;
                         self_penalty_criteria := "AIC";
                         self_optimal_params := None;
                         self_model_fit := None |})
      3 None
    = Raise (ValueError msg).
Proof.
  split; [reflexivity |].
  apply (ForecastARIMAX_never_fitted
           unit unit candidate candidate
           ARIMA_of_candidate fit_unit_score fit_selected_candidate
           forecast_ones
           five_prices tt 1 0 1 None false 0 0 0 None "AIC").
  reflexivity.
Defined.

(* ================================================================== *)
(** * PriceForecast.trends *)
(* ================================================================== *)

Section TrendsFacts.

Variable log1p : float -> float.
Variable expm1 : float -> float.
Variable lowess :
  list float -> list float -> float -> Z -> list (float * float).
Variable Qsqrt : Q -> Q.
Variable norm_ppf : float -> float.

(** X18.  [PriceForecast.trends] smooths with the default window of 15:
    a price column of fewer than 15 values, or one holding a NaN or a
    zero, raises ValueError whatever the numerical routines compute.  On
    15 or more prices without NaN or zero, when the regression returns one
    fitted value per price, it returns the prices, the smoothed series and
    the two regions around it: the confidence bounds [smoothed -/+ m] and
    the prediction bounds [smoothed -/+ m * sqrt(1 + 1/n)] for one margin
    [m] and [n] prices, all four with the default index and the length of
    the prices. *)
Theorem PriceForecast_trends_columns (y_series : Series) :
  ((len y_series < 15)%Z \/ check_nans_and_zeros y_series = true ->
   exists msg,
     PriceForecast_trends log1p expm1 lowess Qsqrt norm_ppf y_series
     = Throw (Builtin (ValueError msg))) /\
  ((15 <= len y_series)%Z -> check_nans_and_zeros y_series = false ->
   let fitted := lowess (map log1p (values y_series))
                        (map of_int (range (len y_series)))
                        (fdiv (of_int 15) (of_int (len y_series))) 2 in
   let smoothed := map expm1 (map snd fitted) in
   List.length fitted = List.length y_series ->
   exists margin lower_ci upper_ci lower_pi upper_pi,
     PriceForecast_trends log1p expm1 lowess Qsqrt norm_ppf y_series
     = Return (y_series, pd_Series smoothed,
               lower_ci, upper_ci, lower_pi, upper_pi) /\
     (lower_ci, upper_ci) = band smoothed margin /\
     (lower_pi, upper_pi)
     = band smoothed
            (fmul margin
                  (fsqrt Qsqrt (Fin (1 + 1 / inject_Z (len y_series))))) /\
     Forall (fun column : Series =>
               index column = range (len y_series) /\
               List.length column = List.length y_series)
            [pd_Series smoothed; lower_ci; upper_ci; lower_pi; upper_pi]).
Proof.
  split.
  - intros Hbad. unfold PriceForecast_trends, smooth_lowess.
    destruct ((15 <? 3)%Z || (15 >? len y_series)%Z) eqn:G.
    + eexists. reflexivity.
    + destruct Hbad as [Hshort | Hnan].
      * apply orb_false_iff in G as [_ G]. rewrite Z.gtb_ltb in G.
        apply Z.ltb_ge in G. lia.
      * unfold check_nans_and_zeros in Hnan. rewrite Hnan.
        eexists. reflexivity.
  - intros Hlen Hclean fitted smoothed Hrows.
    assert (Hsmooth : List.length (pd_Series smoothed)
                      = List.length y_series).
    { rewrite length_pd_Series. unfold smoothed. rewrite !length_map.
      exact Hrows. }
    assert (Hne : y_series <> []).
    { intros ->. unfold len in Hlen. simpl in Hlen. lia. }
    destruct (regions_on_equal_lengths
                Qsqrt norm_ppf y_series (pd_Series smoothed) (Fin 0.05)
                (eq_sym Hsmooth) Hne) as [Hci Hpi].
    rewrite values_pd_Series in Hci, Hpi.
    set (m := fmul (norm_ppf (fsub (Fin 1) (fdiv (Fin 0.05) (Fin 2))))
                   (np_std Qsqrt (zip_with fsub (values y_series) smoothed)))
      in *.
    set (m' := fmul m (fsqrt Qsqrt (Fin (1 + 1 / inject_Z (len y_series)))))
      in *.
    exists m, (fst (band smoothed m)), (snd (band smoothed m)).
    exists (fst (band smoothed m')), (snd (band smoothed m')).
    split; [| split; [reflexivity | split; [reflexivity |]]].
    + unfold PriceForecast_trends.
      rewrite (smooth_lowess_valid_input log1p expm1 lowess y_series 15 2)
        by (try lia; exact Hclean).
      fold fitted. fold smoothed. cbn [of_outcome py_bind].
      rewrite Hci. cbn [of_outcome py_bind band]. rewrite Hpi.
      reflexivity.
    + assert (Hcol : forall vs : list float,
                 List.length vs = List.length y_series ->
                 index (pd_Series vs) = range (len y_series) /\
                 List.length (pd_Series vs) = List.length y_series).
      { intros vs Hvs. rewrite index_pd_Series, length_pd_Series.
        unfold len. rewrite Hvs. split; reflexivity. }
      assert (Hsm : List.length smoothed = List.length y_series)
        by (unfold smoothed; rewrite !length_map; exact Hrows).
      repeat constructor; simpl; apply Hcol; rewrite ?length_map;
        exact Hsm.
Qed.

End TrendsFacts.

Lemma PriceForecast_trends_columns_witness :
  exists margin lower_ci upper_ci lower_pi upper_pi,
    PriceForecast_trends transform_id transform_id lowess_interpolating
                         Qsqrt_id transform_id fifteen_prices
    = Return (fifteen_prices, fifteen_prices,
              lower_ci, upper_ci, lower_pi, upper_pi) /\
    (lower_ci, upper_ci) = band (values fifteen_prices) margin /\
    (lower_pi, upper_pi)
    = band (values fifteen_prices)
           (fmul margin (fsqrt Qsqrt_id (Fin (1 + 1 / 15)))) /\
    Forall (fun column : Series =>
              index column = range 15 /\ List.length column = 15%nat)
           [fifteen_prices; lower_ci; upper_ci; lower_pi; upper_pi].
Proof.
  exact (proj2 (PriceForecast_trends_columns
                  transform_id transform_id lowess_interpolating
                  Qsqrt_id transform_id fifteen_prices)
               ltac:(vm_compute; discriminate) eq_refl eq_refl).
Defined.

(* ================================================================== *)
(** * The forecast prediction interval at the ends of its domain *)
(* ================================================================== *)

Lemma zip_with_const_right (op : float -> float -> float) (c : float) :
  forall (a : list float) {K : Type} (ks : list K),
    List.length a = List.length ks ->
    zip_with op a (map (fun _ => c) ks) = map (fun x => op x c) a.
Proof.
  induction a as [| x a IH]; intros K [| k ks] E; simpl in *;
    try reflexivity; try discriminate E.
  f_equal. apply IH. lia.
Qed.

Section IntervalEdgeFacts.

Variable Qsqrt : Q -> Q.
Variable norm_ppf : float -> float.

(** X19.  [calculate_forecast_prediction_interval] outside a history longer
    than the forecast.  A forecast of at least one step that is as long as
    the history or longer leaves no residual: the function returns, and
    every lower and upper bound is NaN, whatever the quantile and the
    square root compute.  An empty forecast against a history of two or
    more values raises ValueError (the slices [y[:-0]] and [y[0:]] cannot
    be subtracted). *)
Theorem calculate_forecast_prediction_interval_edges
        (y_series y_forecast : Series) (alpha : float) :
  (y_forecast <> [] ->
   (List.length y_series <= List.length y_forecast)%nat ->
   calculate_forecast_prediction_interval Qsqrt norm_ppf
                                          y_series y_forecast alpha
   = Ok (pd_Series (map (fun _ => NaN) y_forecast),
         pd_Series (map (fun _ => NaN) y_forecast))) /\
  (y_forecast = [] -> (2 <= List.length y_series)%nat ->
   exists msg,
     calculate_forecast_prediction_interval Qsqrt norm_ppf
                                            y_series y_forecast alpha
     = Raise (ValueError msg)).
Proof.
  split.
  - intros Hne Hshort. unfold calculate_forecast_prediction_interval.
    assert (Hh : List.length (values y_forecast) <> 0%nat).
    { unfold values. rewrite length_map.
      destruct y_forecast; [contradiction | discriminate]. }
    rewrite (slices_residuals _ _ Hh). cbn [bind].
    assert (Hres : shifted_residuals (values y_series)
                                     (List.length (values y_forecast)) = []).
    { unfold shifted_residuals, values. rewrite !length_map.
      replace (List.length y_series - List.length y_forecast)%nat
        with 0%nat by lia.
      reflexivity. }
    rewrite Hres.
    assert (Hstd : np_std Qsqrt [] = NaN) by reflexivity.
    rewrite Hstd.
    assert (Hmargin : forall z s, fmul (fmul z NaN) s = NaN).
    { intros z s. destruct z; reflexivity. }
    rewrite (map_ext _ (fun _ => NaN)) by (intros s; apply Hmargin).
    rewrite !map_map.
    rewrite !np_binop_same_length
      by (rewrite length_map; unfold arange1;
          rewrite length_map, length_seq; reflexivity).
    cbn [bind].
    rewrite !zip_with_const_right
      by (unfold arange1; rewrite length_map, length_seq; reflexivity).
    assert (Hnan : forall op,
               (forall x, op x NaN = NaN) ->
               map (fun x => op x NaN) (values y_forecast)
               = map (fun _ => NaN) y_forecast).
    { intros op Hop. unfold values. rewrite map_map.
      apply map_ext. intros row. apply Hop. }
    rewrite (Hnan fsub) by (intros x; destruct x; reflexivity).
    rewrite (Hnan fadd) by (intros x; destruct x; reflexivity).
    reflexivity.
  - intros -> Hlong. unfold calculate_forecast_prediction_interval.
    simpl.
    destruct y_series as [| r1 [| r2 rest]]; simpl in Hlong; try lia.
    eexists. reflexivity.
Qed.

End IntervalEdgeFacts.

Lemma calculate_forecast_prediction_interval_edges_witness :
  calculate_forecast_prediction_interval
    Qsqrt_id transform_id (pd_Series [Fin 1; Fin 2])
    (pd_Series [Fin 11; Fin 12; Fin 13]) (Fin 0.05)
  = Ok (pd_Series [NaN; NaN; NaN], pd_Series [NaN; NaN; NaN]).
Proof.
  apply (calculate_forecast_prediction_interval_edges
           Qsqrt_id transform_id (pd_Series [Fin 1; Fin 2])
           (pd_Series [Fin 11; Fin 12; Fin 13]) (Fin 0.05)).
  - discriminate.
  - simpl. lia.
Defined.

(* ================================================================== *)
(** * Gap filling: observed prices are never changed *)
(* ================================================================== *)

Section ObservedFacts.

Variable adfuller : Series -> outcome float.
Variable Qsqrt : Q -> Q.
Variable norm_logpdf : float -> float -> float -> float.
Variable minimize :
  (float * float -> float) -> float * float -> outcome (float * float).
Variable log1p : float -> float.
Variable expm1 : float -> float.
Variable lowess :
  list float -> list float -> float -> Z -> list (float * float).

Lemma fillna_observed_row (smooth : Series) (row : Z * float) :
  is_missing (snd row) = false ->
  (let '(l, v) := let '(l, v) := row in
                  (l, if feqb v (Fin 0) then NaN else v) in
   (l, if isna v then aligned l smooth else v)) = row.
Proof.
  destruct row as [l v]. unfold is_missing. simpl. intros H.
  apply orb_false_iff in H as [Hna Hz]. rewrite Hz, Hna. reflexivity.
Qed.

(** X20.  [interpolate_stock_prices] never changes an observed price,
    whatever the index of the series, with or without the log transform
    and whatever the numerical routines compute: a returned series has the
    labels and the length of the input, every row whose value is neither
    NaN nor zero is returned as it is, and a series without NaN and zero
    is returned unchanged. *)
Theorem interpolate_stock_prices_keeps_observed
        (y : Series) (log_transform allow_negative_values : bool)
        (out : Series) :
  interpolate_stock_prices adfuller Qsqrt norm_logpdf minimize
                           log1p expm1 lowess
                           y log_transform allow_negative_values
  = Ok out ->
  index out = index y /\
  List.length out = List.length y /\
  (forall i row, nth_error y i = Some row -> is_missing (snd row) = false ->
                 nth_error out i = Some row) /\
  (check_nans_and_zeros y = false -> out = y).
Proof.
  intros H.
  apply interpolate_stock_prices_Ok_inv in H
    as [c [s [k [mu [sigma [smooth [_ [_ [_ ->]]]]]]]]].
  unfold Series_fillna, zeros_to_nan. rewrite map_map.
  split; [| split; [| split]].
  - unfold index. rewrite map_map. apply map_ext.
    intros [l v]. reflexivity.
  - apply length_map.
  - intros i row Hrow Hobs. rewrite nth_error_map, Hrow. simpl.
    f_equal. apply fillna_observed_row, Hobs.
  - intros Hclean. rewrite <- (map_id y) at 2. apply map_ext_in.
    intros row Hin. apply fillna_observed_row.
    unfold check_nans_and_zeros in Hclean.
    apply orb_false_iff in Hclean as [Hna Hz].
    unfold is_missing. apply orb_false_iff. split.
    + destruct (isna (snd row)) eqn:E; [| reflexivity].
      rewrite <- Hna. symmetry. apply existsb_exists.
      exists (snd row). split; [apply in_map, Hin | exact E].
    + destruct (feqb (snd row) (Fin 0)) eqn:E; [| reflexivity].
      rewrite <- Hz. symmetry. apply existsb_exists.
      exists (snd row). split; [apply in_map, Hin | exact E].
Qed.

End ObservedFacts.

Lemma interpolate_stock_prices_keeps_observed_witness :
  index (zeros_to_nan docstring_prices_sliced)
  = index docstring_prices_sliced /\
  nth_error (zeros_to_nan docstring_prices_sliced) 2
  = Some (102%Z, Fin 102).
Proof.
  destruct (interpolate_stock_prices_keeps_observed
              adfuller_never Qsqrt_id norm_logpdf_zero minimize_x0
              transform_id transform_id lowess_interpolating
              docstring_prices_sliced true false
              (zeros_to_nan docstring_prices_sliced))
    as [Hindex [_ [Hobserved _]]].
  - vm_compute. reflexivity.
  - split; [exact Hindex |].
    apply (Hobserved 2%nat (102%Z, Fin 102)); reflexivity.
Defined.
